(** * ShengJi engine: card ranking and the Game orchestrator

    A shallow embedding of [env/utils.py] and [env/Game.py].  Cards,
    seats, stages and actions are inductive types, a [CardSet] is the
    count table of the 54 card tokens, the [Game] object is a record
    whose fields are the attributes set in [Game.__init__], and
    [run_action] threads that record through one branch per action
    class.  A call either returns or raises; both outcomes carry the
    game object as the call left it. *)

From Stdlib Require Import ZArith QArith List Bool Lia String Sorted.
Import ListNotations.

Close Scope Q_scope.
Open Scope nat_scope.

(** ** [env/utils.py]: enums *)

(** [TrumpSuit(str, Enum)]: all the possible suits for a trump
    declaration. *)
Module TrumpSuit.
Inductive t := CLUB | SPADE | HEART | DIAMOND | XJ | DJ.

Definition value (s : t) : string :=
  match s with
  | CLUB => "♣" | SPADE => "♠" | HEART => "♥" | DIAMOND => "♦"
  | XJ => "XJ" | DJ => "DJ"
  end.

(** [is_NT]: [self == 'XJ' or self == 'DJ'] (string comparison of the
    enum value). *)
Definition is_NT (s : t) : bool :=
  String.eqb (value s) "XJ" || String.eqb (value s) "DJ".

Definition eqb (a b : t) : bool := String.eqb (value a) (value b).
End TrumpSuit.

(** [CardSuit(str, Enum)]: all suits a card can belong to in a game. *)
Module CardSuit.
Inductive t := CLUB | SPADE | HEART | DIAMOND | TRUMP.

Definition value (s : t) : string :=
  match s with
  | CLUB => "♣" | SPADE => "♠" | HEART => "♥" | DIAMOND => "♦"
  | TRUMP => "T"
  end.

Definition eqb (a b : t) : bool := String.eqb (value a) (value b).
End CardSuit.

(** Both suit enums mix in [str], so [suit == dominant_suit] between a
    [CardSuit] and a [TrumpSuit] compares their string values. *)
Definition suit_eq_trump (s : CardSuit.t) (d : TrumpSuit.t) : bool :=
  String.eqb (CardSuit.value s) (TrumpSuit.value d).

Inductive RelativePosition := LEFT | RIGHT | OPPOSITE | SELF.

Inductive AbsolutePosition := NORTH | SOUTH | EAST | WEST.

Inductive Stage := declare_stage | kitty_stage | chaodi_stage | main_stage.

Definition pos_eqb (a b : AbsolutePosition) : bool :=
  match a, b with
  | NORTH, NORTH | SOUTH, SOUTH | EAST, EAST | WEST, WEST => true
  | _, _ => false
  end.

Definition stage_eqb (a b : Stage) : bool :=
  match a, b with
  | declare_stage, declare_stage | kitty_stage, kitty_stage
  | chaodi_stage, chaodi_stage | main_stage, main_stage => true
  | _, _ => false
  end.

(** [==] between two attributes that may be [None]. *)
Definition opt_pos_eqb (a b : option AbsolutePosition) : bool :=
  match a, b with
  | Some x, Some y => pos_eqb x y
  | None, None => true
  | _, _ => false
  end.

(** [['N', 'W', 'S', 'E'].index(position)] *)
Definition seat_index (p : AbsolutePosition) : Z :=
  match p with NORTH => 0 | WEST => 1 | SOUTH => 2 | EAST => 3 end.

(** [AbsolutePosition.relative_to]:
    [['S','L','O','R'][(index(position) - index(self)) % 4]]. *)
Definition relative_to (self position : AbsolutePosition) : RelativePosition :=
  let k := ((seat_index position - seat_index self) mod 4)%Z in
  if (k =? 0)%Z then SELF
  else if (k =? 1)%Z then LEFT
  else if (k =? 2)%Z then OPPOSITE
  else RIGHT.

Definition next_position (p : AbsolutePosition) : AbsolutePosition :=
  match p with NORTH => WEST | WEST => SOUTH | SOUTH => EAST | EAST => NORTH end.

Definition last_position (p : AbsolutePosition) : AbsolutePosition :=
  match p with NORTH => EAST | WEST => NORTH | SOUTH => WEST | EAST => SOUTH end.

(** ** Card tokens

    A card is one of the strings of [ORDERING]: ['XJ'], ['DJ'], or a rank
    symbol followed by a suit symbol.  [card[:-1]] is the rank symbol and
    [card[-1]] the suit symbol. *)

Inductive RankSym := rA | rK | rQ | rJ | r10 | r9 | r8 | r7 | r6 | r5 | r4 | r3 | r2.

Inductive SuitSym := sym_diamond | sym_club | sym_heart | sym_spade.

Inductive Card := card_XJ | card_DJ | card (rank : RankSym) (suit : SuitSym).

Definition RankSym_eqb (a b : RankSym) : bool :=
  match a, b with
  | rA, rA | rK, rK | rQ, rQ | rJ, rJ | r10, r10 | r9, r9 | r8, r8
  | r7, r7 | r6, r6 | r5, r5 | r4, r4 | r3, r3 | r2, r2 => true
  | _, _ => false
  end.

Definition SuitSym_eqb (a b : SuitSym) : bool :=
  match a, b with
  | sym_diamond, sym_diamond | sym_club, sym_club
  | sym_heart, sym_heart | sym_spade, sym_spade => true
  | _, _ => false
  end.

Definition Card_eqb (a b : Card) : bool :=
  match a, b with
  | card_XJ, card_XJ | card_DJ, card_DJ => true
  | card r s, card r' s' => RankSym_eqb r r' && SuitSym_eqb s s'
  | _, _ => false
  end.

Definition all_ranks : list RankSym :=
  [rA; rK; rQ; rJ; r10; r9; r8; r7; r6; r5; r4; r3; r2].

(** [ORDERING]: the 54 tokens, diamonds, clubs, hearts, spades from ace
    down to two, then the two jokers. *)
Definition ORDERING : list Card :=
  Eval cbv in
    flat_map (fun s => map (fun r => card r s) all_ranks)
             [sym_diamond; sym_club; sym_heart; sym_spade]
    ++ [card_XJ; card_DJ].

(** [CardSuit(card[-1])] *)
Definition CardSuit_of (s : SuitSym) : CardSuit.t :=
  match s with
  | sym_diamond => CardSuit.DIAMOND | sym_club => CardSuit.CLUB
  | sym_heart => CardSuit.HEART | sym_spade => CardSuit.SPADE
  end.

(** [LETTER_RANK]: a lookup outside 2..14 is a [KeyError]. *)
Definition LETTER_RANK (n : Z) : option RankSym :=
  match n with
  | 2 => Some r2 | 3 => Some r3 | 4 => Some r4 | 5 => Some r5
  | 6 => Some r6 | 7 => Some r7 | 8 => Some r8 | 9 => Some r9
  | 10 => Some r10 | 11 => Some rJ | 12 => Some rQ | 13 => Some rK
  | 14 => Some rA
  | _ => None
  end%Z.

(** [NUMERIC_RANK = {v: k for k, v in LETTER_RANK.items()}] *)
Definition NUMERIC_RANK (r : RankSym) : Z :=
  match r with
  | r2 => 2 | r3 => 3 | r4 => 4 | r5 => 5 | r6 => 6 | r7 => 7 | r8 => 8
  | r9 => 9 | r10 => 10 | rJ => 11 | rQ => 12 | rK => 13 | rA => 14
  end%Z.

(** ** [get_suit] and [get_rank] *)

Definition get_suit (c : Card) (dominant_suit : TrumpSuit.t) (dominant_rank : Z)
  : CardSuit.t :=
  match c with
  | card_XJ | card_DJ => CardSuit.TRUMP
  | card r s =>
      let rank := NUMERIC_RANK r in
      let suit := CardSuit_of s in
      if (rank =? dominant_rank)%Z || suit_eq_trump suit dominant_suit
      then CardSuit.TRUMP
      else suit
  end.

Definition get_rank (c : Card) (dominant_suit : TrumpSuit.t) (dominant_rank : Z) : Z :=
  match c with
  | card_DJ => 18
  | card_XJ => 17
  | card r s =>
      let suit := CardSuit_of s in
      let rank := NUMERIC_RANK r in
      if (rank =? dominant_rank)%Z
         && (suit_eq_trump suit dominant_suit || TrumpSuit.is_NT dominant_suit)
      then 16
      else if (rank =? dominant_rank)%Z then 15
      else if (rank <? dominant_rank)%Z then rank + 1
      else rank
  end%Z.

(** ** [Declaration] *)

Record Declaration := mkDeclaration {
  suit : TrumpSuit.t;
  level : Z;
  absolute_position : AbsolutePosition;
  relative_position : option RelativePosition
}.

(** [Declaration(suit, level, position)]: [relative_position] defaults to
    [None]. *)
Definition new_Declaration (s : TrumpSuit.t) (l : Z) (p : AbsolutePosition) :=
  mkDeclaration s l p None.

Definition Declaration_relative_to (d : Declaration) (position : AbsolutePosition) :=
  mkDeclaration (suit d) (level d) (absolute_position d)
                (Some (relative_to (absolute_position d) position)).

(** [Declaration.get_card]: the card a declaration shows and how many of
    it.  [LETTER_RANK[dominant_rank]] is evaluated first, also for the
    joker suits. *)
Definition get_card (d : Declaration) (dominant_rank : Z) : option (Card * nat) :=
  match LETTER_RANK dominant_rank with
  | None => None
  | Some rank_symbol =>
      let count := if (level d =? 0)%Z then 1 else 2 in
      Some (match suit d with
            | TrumpSuit.XJ => card_XJ
            | TrumpSuit.DJ => card_DJ
            | TrumpSuit.DIAMOND => card rank_symbol sym_diamond
            | TrumpSuit.CLUB => card rank_symbol sym_club
            | TrumpSuit.HEART => card rank_symbol sym_heart
            | TrumpSuit.SPADE => card rank_symbol sym_spade
            end, count)
  end.

Definition chaodi_level (s : TrumpSuit.t) (l : Z) : Z :=
  if (l >=? 1)%Z then
    match s with
    | TrumpSuit.DIAMOND => 1
    | TrumpSuit.CLUB => 2
    | TrumpSuit.HEART => 3
    | TrumpSuit.SPADE => 4
    | TrumpSuit.XJ => 5
    | TrumpSuit.DJ => 6
    end%Z
  else 0%Z.

(** ** [CardSet]

    [env/CardSet.py] is not among the sources.  The count table and its
    elementary operations are modelled here; the move algorithms are
    taken as the interface [CardSetRules] below. *)

(** Modelled from the spec: class [CardSet], "a mapping from card identity
    to a non-negative count".  [Game] reads [_cards[card]] for any card
    without a key check, so the table is total over the 54 tokens. *)
Definition CardSet := Card -> nat.

(** Modelled from the spec: [CardSet()], the empty multiset. *)
Definition CardSet_empty : CardSet := fun _ => 0.

(** Modelled from the spec: [CardSet.add_card(card, count=1)], "addition
    of a single card". *)
Definition add_card (self : CardSet) (c : Card) (count : nat) : CardSet :=
  fun c' => if Card_eqb c' c then self c' + count else self c'.

(** Modelled from the spec: [CardSet.remove_card(card, count=1)], removal
    of a single card, which "fails if removing more than present". *)
Definition remove_card (self : CardSet) (c : Card) (count : nat) : option CardSet :=
  if count <=? self c
  then Some (fun c' => if Card_eqb c' c then self c' - count else self c')
  else None.

(** Modelled from the spec: [CardSet.add_cardset(other)], addition of a
    whole CardSet. *)
Definition add_cardset (self other : CardSet) : CardSet :=
  fun c => self c + other c.

(** Modelled from the spec: [CardSet.remove_cardset(other)], removal of a
    whole CardSet, which "fails if removing more than present". *)
Definition remove_cardset (self other : CardSet) : option CardSet :=
  if forallb (fun c => other c <=? self c) ORDERING
  then Some (fun c => self c - other c)
  else None.

(** Modelled from the spec: [CardSet.size], the sum of the counts. *)
Definition size (self : CardSet) : nat := list_sum (map self ORDERING).

(** Modelled from the spec: [CardSet.has_card(card)], a positive "count
    of a specific card". *)
Definition has_card (self : CardSet) (c : Card) : bool := 0 <? self c.

(** Modelled from the spec: [CardSet.copy()], an independent copy; a
    value in this embedding. *)
Definition copy (self : CardSet) : CardSet := self.

(** Modelled from the spec: [CardSet.count_suit(suit, dominant_suit,
    dominant_rank)], the "count of cards of an effective suit". *)
Definition count_suit (self : CardSet) (s : CardSuit.t)
    (dominant_suit : TrumpSuit.t) (dominant_rank : Z) : nat :=
  list_sum (map self
    (filter (fun c => CardSuit.eqb (get_suit c dominant_suit dominant_rank) s)
            ORDERING)).

(** Modelled from the spec: [CardSet.filter_by_suit(suit, dominant_suit,
    dominant_rank)], "the sub-multiset of cards in one effective suit". *)
Definition filter_by_suit (self : CardSet) (s : CardSuit.t)
    (dominant_suit : TrumpSuit.t) (dominant_rank : Z) : CardSet :=
  fun c => if CardSuit.eqb (get_suit c dominant_suit dominant_rank) s
           then self c else 0.

(** Modelled from the spec: [CardSet.get_count(suit, dominant_rank)], how
    many copies the hand holds of the card that qualifies a declaration
    in [suit] (the joker itself, or the trump-rank card of that suit);
    the rank lookup raises outside 2..14. *)
Definition get_count (self : CardSet) (s : TrumpSuit.t) (dominant_rank : Z)
  : option nat :=
  match get_card (new_Declaration s 0 NORTH) dominant_rank with
  | Some (c, _) => Some (self c)
  | None => None
  end.

(** Modelled from the spec: [CardSet.new_deck()] returns the CardSet of
    the full 108-card deck, two copies of each token, together with a
    shuffled list of the tokens; the list is an input of [new_Game]. *)
Definition full_deck : CardSet := fun _ => 2.

(** Modelled from the spec: [MoveType], the shape a card group is
    classified into (single, pair, tractor, combo).  [Game] only builds
    [MoveType.Combo(cardset)] and reads the attribute [cardset]. *)
Inductive MoveType :=
| Single (cs : CardSet)
| Pair (cs : CardSet)
| Tractor (cs : CardSet)
| Combo (cs : CardSet).

Definition cardset (m : MoveType) : CardSet :=
  match m with Single cs | Pair cs | Tractor cs | Combo cs => cs end.

(** ** [env/Actions.py]: the closed set of action classes that
    [run_action] dispatches on.

    Modelled from the spec: the action variants (declare, pass-declare,
    place-one-kitty-card, place-all-kitty-cards, pass-counter-bid,
    counter-bid, start-lead, extend-lead, close-lead, follow), each with
    the constructor arguments [get_observation] passes and the attributes
    [run_action] reads. *)
Inductive Action :=
| DeclareAction (declaration : Declaration)
| DontDeclareAction
| PlaceKittyAction (c : Card) (count : nat)
| PlaceAllKittyAction (cards : CardSet)
| DontChaodiAction
| ChaodiAction (declaration : Declaration)
| LeadAction (move : MoveType)
| AppendLeadAction (current : CardSet) (move : MoveType)
| EndLeadAction (move : MoveType)
| FollowAction (cs : CardSet).

(** ** [env/Observation.py]

    Modelled from the spec: the per-seat snapshot, with one field per
    keyword argument of the [Observation(...)] call in
    [Game.get_observation]. *)
Module Observation.
Record t := mk {
  hand : CardSet;
  position : AbsolutePosition;
  actions : list Action;
  stage : Stage;
  dominant_rank : Z;
  declaration : option Declaration;
  next_declaration_turn : option RelativePosition;
  dealer_position : option RelativePosition;
  defender_points : Z;
  opponent_points : Z;
  round_history : list (RelativePosition * list CardSet);
  unplayed_cards : CardSet;
  leads_current_trick : bool;
  chaodi_times : list Z;
  kitty : option CardSet;
  is_chaodi_turn : bool;
  perceived_left : CardSet;
  perceived_right : CardSet;
  perceived_opposite : CardSet;
  actual_left : CardSet;
  actual_right : CardSet;
  actual_opposite : CardSet;
  oracle_value : Q
}.
End Observation.

(** The algorithms of [CardSet] and [MoveType] that [Game] calls and whose
    code is not among the sources.  [Game] is embedded over any
    implementation of them. *)
Record CardSetRules := {
  (** [CardSet.trump_declaration_options(dominant_rank).items()] *)
  trump_declaration_options : CardSet -> Z -> list (TrumpSuit.t * Z);
  (** [CardSet.get_leading_moves(dominant_suit, dominant_rank)] *)
  get_leading_moves : CardSet -> TrumpSuit.t -> Z -> list MoveType;
  (** [CardSet.get_matching_moves(move, dominant_suit, dominant_rank)] *)
  get_matching_moves : CardSet -> MoveType -> TrumpSuit.t -> Z -> list CardSet;
  (** [CardSet.is_legal_combo(move, other_hands, dominant_suit,
      dominant_rank)]: legality and the penalty move, a fresh CardSet *)
  is_legal_combo : MoveType -> list CardSet -> TrumpSuit.t -> Z -> bool * CardSet;
  (** [CardSet.round_winner(moves, dominant_suit, dominant_rank)]: an
      index into the four played groups *)
  round_winner : list CardSet -> TrumpSuit.t -> Z -> nat;
  (** [MoveType.get_multiplier(dominant_suit, dominant_rank)] *)
  get_multiplier : MoveType -> TrumpSuit.t -> Z -> Z;
  (** [CardSet.total_points()] *)
  total_points : CardSet -> Z;
  (** [CardSet.card_list()]: the cards of the set, with repetition *)
  card_list_of : CardSet -> list Card;
  (** [CardSet.count_iterator()]: the (card, count) pairs of the set *)
  count_iterator : CardSet -> list (Card * nat)
}.

(** ** The [Game] object

    One field per attribute assigned in [Game.__init__].  [deck] is the
    part of [card_list] the iterator [self.deck] has not yet yielded. *)

Record Game := mkGame {
  hands : AbsolutePosition -> CardSet;
  public_cards : AbsolutePosition -> CardSet;
  unplayed_cards : CardSet;
  card_list : list Card;
  deck : list Card;
  kitty : CardSet;
  round_history : list (AbsolutePosition * list CardSet);
  stage : Stage;
  kitty_stage_completed : bool;
  kitty_owner : option AbsolutePosition;
  dominant_rank : Z;
  declarations : list Declaration;
  current_declaration_turn : option AbsolutePosition;
  initial_declaration_position : option AbsolutePosition;
  is_initial_game : bool;
  dealer_position : option AbsolutePosition;
  opponent_points : Z;
  defender_points : Z;
  game_ended : bool;
  kitty_multiplier : option Z;
  points_per_round : list Z;
  final_opponent_reward : option Z;
  final_defender_reward : option Z;
  enable_chaodi : bool;
  current_chaodi_turn : option AbsolutePosition;
  initial_chaodi_position : option AbsolutePosition;
  chaodi_times : list Z;
  enable_combos : bool;
  draw_order : list (AbsolutePosition * Card);
  is_warmup_game : bool;
  oracle_value : Q;
  consecutive_moves : Z;
  combo_penalty : Q;
  combo_alternation : bool
}.

(** Attribute assignment [self.f = v]: one setter per attribute that
    [start_game] or [run_action] assigns. *)

Definition set_hands (v : AbsolutePosition -> CardSet) (g : Game) : Game :=
  mkGame v (public_cards g) (unplayed_cards g) (card_list g) (deck g)
    (kitty g) (round_history g) (stage g) (kitty_stage_completed g)
    (kitty_owner g) (dominant_rank g) (declarations g)
    (current_declaration_turn g) (initial_declaration_position g)
    (is_initial_game g) (dealer_position g) (opponent_points g)
    (defender_points g) (game_ended g) (kitty_multiplier g)
    (points_per_round g) (final_opponent_reward g) (final_defender_reward g)
    (enable_chaodi g) (current_chaodi_turn g) (initial_chaodi_position g)
    (chaodi_times g) (enable_combos g) (draw_order g) (is_warmup_game g)
    (oracle_value g) (consecutive_moves g) (combo_penalty g)
    (combo_alternation g).

Definition set_public_cards (v : AbsolutePosition -> CardSet) (g : Game) : Game :=
  mkGame (hands g) v (unplayed_cards g) (card_list g) (deck g) (kitty g)
    (round_history g) (stage g) (kitty_stage_completed g) (kitty_owner g)
    (dominant_rank g) (declarations g) (current_declaration_turn g)
    (initial_declaration_position g) (is_initial_game g) (dealer_position g)
    (opponent_points g) (defender_points g) (game_ended g)
    (kitty_multiplier g) (points_per_round g) (final_opponent_reward g)
    (final_defender_reward g) (enable_chaodi g) (current_chaodi_turn g)
    (initial_chaodi_position g) (chaodi_times g) (enable_combos g)
    (draw_order g) (is_warmup_game g) (oracle_value g) (consecutive_moves g)
    (combo_penalty g) (combo_alternation g).

Definition set_unplayed_cards (v : CardSet) (g : Game) : Game :=
  mkGame (hands g) (public_cards g) v (card_list g) (deck g) (kitty g)
    (round_history g) (stage g) (kitty_stage_completed g) (kitty_owner g)
    (dominant_rank g) (declarations g) (current_declaration_turn g)
    (initial_declaration_position g) (is_initial_game g) (dealer_position g)
    (opponent_points g) (defender_points g) (game_ended g)
    (kitty_multiplier g) (points_per_round g) (final_opponent_reward g)
    (final_defender_reward g) (enable_chaodi g) (current_chaodi_turn g)
    (initial_chaodi_position g) (chaodi_times g) (enable_combos g)
    (draw_order g) (is_warmup_game g) (oracle_value g) (consecutive_moves g)
    (combo_penalty g) (combo_alternation g).

Definition set_deck (v : list Card) (g : Game) : Game :=
  mkGame (hands g) (public_cards g) (unplayed_cards g) (card_list g) v
    (kitty g) (round_history g) (stage g) (kitty_stage_completed g)
    (kitty_owner g) (dominant_rank g) (declarations g)
    (current_declaration_turn g) (initial_declaration_position g)
    (is_initial_game g) (dealer_position g) (opponent_points g)
    (defender_points g) (game_ended g) (kitty_multiplier g)
    (points_per_round g) (final_opponent_reward g) (final_defender_reward g)
    (enable_chaodi g) (current_chaodi_turn g) (initial_chaodi_position g)
    (chaodi_times g) (enable_combos g) (draw_order g) (is_warmup_game g)
    (oracle_value g) (consecutive_moves g) (combo_penalty g)
    (combo_alternation g).

Definition set_kitty (v : CardSet) (g : Game) : Game :=
  mkGame (hands g) (public_cards g) (unplayed_cards g) (card_list g)
    (deck g) v (round_history g) (stage g) (kitty_stage_completed g)
    (kitty_owner g) (dominant_rank g) (declarations g)
    (current_declaration_turn g) (initial_declaration_position g)
    (is_initial_game g) (dealer_position g) (opponent_points g)
    (defender_points g) (game_ended g) (kitty_multiplier g)
    (points_per_round g) (final_opponent_reward g) (final_defender_reward g)
    (enable_chaodi g) (current_chaodi_turn g) (initial_chaodi_position g)
    (chaodi_times g) (enable_combos g) (draw_order g) (is_warmup_game g)
    (oracle_value g) (consecutive_moves g) (combo_penalty g)
    (combo_alternation g).

Definition set_round_history (v : list (AbsolutePosition * list CardSet)) (g : Game) : Game :=
  mkGame (hands g) (public_cards g) (unplayed_cards g) (card_list g)
    (deck g) (kitty g) v (stage g) (kitty_stage_completed g) (kitty_owner g)
    (dominant_rank g) (declarations g) (current_declaration_turn g)
    (initial_declaration_position g) (is_initial_game g) (dealer_position g)
    (opponent_points g) (defender_points g) (game_ended g)
    (kitty_multiplier g) (points_per_round g) (final_opponent_reward g)
    (final_defender_reward g) (enable_chaodi g) (current_chaodi_turn g)
    (initial_chaodi_position g) (chaodi_times g) (enable_combos g)
    (draw_order g) (is_warmup_game g) (oracle_value g) (consecutive_moves g)
    (combo_penalty g) (combo_alternation g).

Definition set_stage (v : Stage) (g : Game) : Game :=
  mkGame (hands g) (public_cards g) (unplayed_cards g) (card_list g)
    (deck g) (kitty g) (round_history g) v (kitty_stage_completed g)
    (kitty_owner g) (dominant_rank g) (declarations g)
    (current_declaration_turn g) (initial_declaration_position g)
    (is_initial_game g) (dealer_position g) (opponent_points g)
    (defender_points g) (game_ended g) (kitty_multiplier g)
    (points_per_round g) (final_opponent_reward g) (final_defender_reward g)
    (enable_chaodi g) (current_chaodi_turn g) (initial_chaodi_position g)
    (chaodi_times g) (enable_combos g) (draw_order g) (is_warmup_game g)
    (oracle_value g) (consecutive_moves g) (combo_penalty g)
    (combo_alternation g).

Definition set_kitty_owner (v : option AbsolutePosition) (g : Game) : Game :=
  mkGame (hands g) (public_cards g) (unplayed_cards g) (card_list g)
    (deck g) (kitty g) (round_history g) (stage g) (kitty_stage_completed g)
    v (dominant_rank g) (declarations g) (current_declaration_turn g)
    (initial_declaration_position g) (is_initial_game g) (dealer_position g)
    (opponent_points g) (defender_points g) (game_ended g)
    (kitty_multiplier g) (points_per_round g) (final_opponent_reward g)
    (final_defender_reward g) (enable_chaodi g) (current_chaodi_turn g)
    (initial_chaodi_position g) (chaodi_times g) (enable_combos g)
    (draw_order g) (is_warmup_game g) (oracle_value g) (consecutive_moves g)
    (combo_penalty g) (combo_alternation g).

Definition set_declarations (v : list Declaration) (g : Game) : Game :=
  mkGame (hands g) (public_cards g) (unplayed_cards g) (card_list g)
    (deck g) (kitty g) (round_history g) (stage g) (kitty_stage_completed g)
    (kitty_owner g) (dominant_rank g) v (current_declaration_turn g)
    (initial_declaration_position g) (is_initial_game g) (dealer_position g)
    (opponent_points g) (defender_points g) (game_ended g)
    (kitty_multiplier g) (points_per_round g) (final_opponent_reward g)
    (final_defender_reward g) (enable_chaodi g) (current_chaodi_turn g)
    (initial_chaodi_position g) (chaodi_times g) (enable_combos g)
    (draw_order g) (is_warmup_game g) (oracle_value g) (consecutive_moves g)
    (combo_penalty g) (combo_alternation g).

Definition set_current_declaration_turn (v : option AbsolutePosition) (g : Game) : Game :=
  mkGame (hands g) (public_cards g) (unplayed_cards g) (card_list g)
    (deck g) (kitty g) (round_history g) (stage g) (kitty_stage_completed g)
    (kitty_owner g) (dominant_rank g) (declarations g) v
    (initial_declaration_position g) (is_initial_game g) (dealer_position g)
    (opponent_points g) (defender_points g) (game_ended g)
    (kitty_multiplier g) (points_per_round g) (final_opponent_reward g)
    (final_defender_reward g) (enable_chaodi g) (current_chaodi_turn g)
    (initial_chaodi_position g) (chaodi_times g) (enable_combos g)
    (draw_order g) (is_warmup_game g) (oracle_value g) (consecutive_moves g)
    (combo_penalty g) (combo_alternation g).

Definition set_initial_declaration_position (v : option AbsolutePosition) (g : Game) : Game :=
  mkGame (hands g) (public_cards g) (unplayed_cards g) (card_list g)
    (deck g) (kitty g) (round_history g) (stage g) (kitty_stage_completed g)
    (kitty_owner g) (dominant_rank g) (declarations g)
    (current_declaration_turn g) v (is_initial_game g) (dealer_position g)
    (opponent_points g) (defender_points g) (game_ended g)
    (kitty_multiplier g) (points_per_round g) (final_opponent_reward g)
    (final_defender_reward g) (enable_chaodi g) (current_chaodi_turn g)
    (initial_chaodi_position g) (chaodi_times g) (enable_combos g)
    (draw_order g) (is_warmup_game g) (oracle_value g) (consecutive_moves g)
    (combo_penalty g) (combo_alternation g).

Definition set_dealer_position (v : option AbsolutePosition) (g : Game) : Game :=
  mkGame (hands g) (public_cards g) (unplayed_cards g) (card_list g)
    (deck g) (kitty g) (round_history g) (stage g) (kitty_stage_completed g)
    (kitty_owner g) (dominant_rank g) (declarations g)
    (current_declaration_turn g) (initial_declaration_position g)
    (is_initial_game g) v (opponent_points g) (defender_points g)
    (game_ended g) (kitty_multiplier g) (points_per_round g)
    (final_opponent_reward g) (final_defender_reward g) (enable_chaodi g)
    (current_chaodi_turn g) (initial_chaodi_position g) (chaodi_times g)
    (enable_combos g) (draw_order g) (is_warmup_game g) (oracle_value g)
    (consecutive_moves g) (combo_penalty g) (combo_alternation g).

Definition set_opponent_points (v : Z) (g : Game) : Game :=
  mkGame (hands g) (public_cards g) (unplayed_cards g) (card_list g)
    (deck g) (kitty g) (round_history g) (stage g) (kitty_stage_completed g)
    (kitty_owner g) (dominant_rank g) (declarations g)
    (current_declaration_turn g) (initial_declaration_position g)
    (is_initial_game g) (dealer_position g) v (defender_points g)
    (game_ended g) (kitty_multiplier g) (points_per_round g)
    (final_opponent_reward g) (final_defender_reward g) (enable_chaodi g)
    (current_chaodi_turn g) (initial_chaodi_position g) (chaodi_times g)
    (enable_combos g) (draw_order g) (is_warmup_game g) (oracle_value g)
    (consecutive_moves g) (combo_penalty g) (combo_alternation g).

Definition set_defender_points (v : Z) (g : Game) : Game :=
  mkGame (hands g) (public_cards g) (unplayed_cards g) (card_list g)
    (deck g) (kitty g) (round_history g) (stage g) (kitty_stage_completed g)
    (kitty_owner g) (dominant_rank g) (declarations g)
    (current_declaration_turn g) (initial_declaration_position g)
    (is_initial_game g) (dealer_position g) (opponent_points g) v
    (game_ended g) (kitty_multiplier g) (points_per_round g)
    (final_opponent_reward g) (final_defender_reward g) (enable_chaodi g)
    (current_chaodi_turn g) (initial_chaodi_position g) (chaodi_times g)
    (enable_combos g) (draw_order g) (is_warmup_game g) (oracle_value g)
    (consecutive_moves g) (combo_penalty g) (combo_alternation g).

Definition set_game_ended (v : bool) (g : Game) : Game :=
  mkGame (hands g) (public_cards g) (unplayed_cards g) (card_list g)
    (deck g) (kitty g) (round_history g) (stage g) (kitty_stage_completed g)
    (kitty_owner g) (dominant_rank g) (declarations g)
    (current_declaration_turn g) (initial_declaration_position g)
    (is_initial_game g) (dealer_position g) (opponent_points g)
    (defender_points g) v (kitty_multiplier g) (points_per_round g)
    (final_opponent_reward g) (final_defender_reward g) (enable_chaodi g)
    (current_chaodi_turn g) (initial_chaodi_position g) (chaodi_times g)
    (enable_combos g) (draw_order g) (is_warmup_game g) (oracle_value g)
    (consecutive_moves g) (combo_penalty g) (combo_alternation g).

Definition set_points_per_round (v : list Z) (g : Game) : Game :=
  mkGame (hands g) (public_cards g) (unplayed_cards g) (card_list g)
    (deck g) (kitty g) (round_history g) (stage g) (kitty_stage_completed g)
    (kitty_owner g) (dominant_rank g) (declarations g)
    (current_declaration_turn g) (initial_declaration_position g)
    (is_initial_game g) (dealer_position g) (opponent_points g)
    (defender_points g) (game_ended g) (kitty_multiplier g) v
    (final_opponent_reward g) (final_defender_reward g) (enable_chaodi g)
    (current_chaodi_turn g) (initial_chaodi_position g) (chaodi_times g)
    (enable_combos g) (draw_order g) (is_warmup_game g) (oracle_value g)
    (consecutive_moves g) (combo_penalty g) (combo_alternation g).

Definition set_final_opponent_reward (v : option Z) (g : Game) : Game :=
  mkGame (hands g) (public_cards g) (unplayed_cards g) (card_list g)
    (deck g) (kitty g) (round_history g) (stage g) (kitty_stage_completed g)
    (kitty_owner g) (dominant_rank g) (declarations g)
    (current_declaration_turn g) (initial_declaration_position g)
    (is_initial_game g) (dealer_position g) (opponent_points g)
    (defender_points g) (game_ended g) (kitty_multiplier g)
    (points_per_round g) v (final_defender_reward g) (enable_chaodi g)
    (current_chaodi_turn g) (initial_chaodi_position g) (chaodi_times g)
    (enable_combos g) (draw_order g) (is_warmup_game g) (oracle_value g)
    (consecutive_moves g) (combo_penalty g) (combo_alternation g).

Definition set_final_defender_reward (v : option Z) (g : Game) : Game :=
  mkGame (hands g) (public_cards g) (unplayed_cards g) (card_list g)
    (deck g) (kitty g) (round_history g) (stage g) (kitty_stage_completed g)
    (kitty_owner g) (dominant_rank g) (declarations g)
    (current_declaration_turn g) (initial_declaration_position g)
    (is_initial_game g) (dealer_position g) (opponent_points g)
    (defender_points g) (game_ended g) (kitty_multiplier g)
    (points_per_round g) (final_opponent_reward g) v (enable_chaodi g)
    (current_chaodi_turn g) (initial_chaodi_position g) (chaodi_times g)
    (enable_combos g) (draw_order g) (is_warmup_game g) (oracle_value g)
    (consecutive_moves g) (combo_penalty g) (combo_alternation g).

Definition set_current_chaodi_turn (v : option AbsolutePosition) (g : Game) : Game :=
  mkGame (hands g) (public_cards g) (unplayed_cards g) (card_list g)
    (deck g) (kitty g) (round_history g) (stage g) (kitty_stage_completed g)
    (kitty_owner g) (dominant_rank g) (declarations g)
    (current_declaration_turn g) (initial_declaration_position g)
    (is_initial_game g) (dealer_position g) (opponent_points g)
    (defender_points g) (game_ended g) (kitty_multiplier g)
    (points_per_round g) (final_opponent_reward g) (final_defender_reward g)
    (enable_chaodi g) v (initial_chaodi_position g) (chaodi_times g)
    (enable_combos g) (draw_order g) (is_warmup_game g) (oracle_value g)
    (consecutive_moves g) (combo_penalty g) (combo_alternation g).

Definition set_initial_chaodi_position (v : option AbsolutePosition) (g : Game) : Game :=
  mkGame (hands g) (public_cards g) (unplayed_cards g) (card_list g)
    (deck g) (kitty g) (round_history g) (stage g) (kitty_stage_completed g)
    (kitty_owner g) (dominant_rank g) (declarations g)
    (current_declaration_turn g) (initial_declaration_position g)
    (is_initial_game g) (dealer_position g) (opponent_points g)
    (defender_points g) (game_ended g) (kitty_multiplier g)
    (points_per_round g) (final_opponent_reward g) (final_defender_reward g)
    (enable_chaodi g) (current_chaodi_turn g) v (chaodi_times g)
    (enable_combos g) (draw_order g) (is_warmup_game g) (oracle_value g)
    (consecutive_moves g) (combo_penalty g) (combo_alternation g).

Definition set_chaodi_times (v : list Z) (g : Game) : Game :=
  mkGame (hands g) (public_cards g) (unplayed_cards g) (card_list g)
    (deck g) (kitty g) (round_history g) (stage g) (kitty_stage_completed g)
    (kitty_owner g) (dominant_rank g) (declarations g)
    (current_declaration_turn g) (initial_declaration_position g)
    (is_initial_game g) (dealer_position g) (opponent_points g)
    (defender_points g) (game_ended g) (kitty_multiplier g)
    (points_per_round g) (final_opponent_reward g) (final_defender_reward g)
    (enable_chaodi g) (current_chaodi_turn g) (initial_chaodi_position g) v
    (enable_combos g) (draw_order g) (is_warmup_game g) (oracle_value g)
    (consecutive_moves g) (combo_penalty g) (combo_alternation g).

Definition set_draw_order (v : list (AbsolutePosition * Card)) (g : Game) : Game :=
  mkGame (hands g) (public_cards g) (unplayed_cards g) (card_list g)
    (deck g) (kitty g) (round_history g) (stage g) (kitty_stage_completed g)
    (kitty_owner g) (dominant_rank g) (declarations g)
    (current_declaration_turn g) (initial_declaration_position g)
    (is_initial_game g) (dealer_position g) (opponent_points g)
    (defender_points g) (game_ended g) (kitty_multiplier g)
    (points_per_round g) (final_opponent_reward g) (final_defender_reward g)
    (enable_chaodi g) (current_chaodi_turn g) (initial_chaodi_position g)
    (chaodi_times g) (enable_combos g) v (is_warmup_game g) (oracle_value g)
    (consecutive_moves g) (combo_penalty g) (combo_alternation g).

Definition set_consecutive_moves (v : Z) (g : Game) : Game :=
  mkGame (hands g) (public_cards g) (unplayed_cards g) (card_list g)
    (deck g) (kitty g) (round_history g) (stage g) (kitty_stage_completed g)
    (kitty_owner g) (dominant_rank g) (declarations g)
    (current_declaration_turn g) (initial_declaration_position g)
    (is_initial_game g) (dealer_position g) (opponent_points g)
    (defender_points g) (game_ended g) (kitty_multiplier g)
    (points_per_round g) (final_opponent_reward g) (final_defender_reward g)
    (enable_chaodi g) (current_chaodi_turn g) (initial_chaodi_position g)
    (chaodi_times g) (enable_combos g) (draw_order g) (is_warmup_game g)
    (oracle_value g) v (combo_penalty g) (combo_alternation g).

(** ** Calls that may raise

    A method of [Game] either returns a value or raises (an [assert], a
    failed removal, [StopIteration], an index out of range).  The [Game]
    object is mutated in place, so both outcomes carry it. *)
Inductive result (A : Type) :=
| Returned (g : Game) (a : A)
| Raised (g : Game).

Arguments Returned {A} g a.
Arguments Raised {A} g.

Definition state_of {A} (r : result A) : Game :=
  match r with Returned g _ => g | Raised g => g end.

(** The value a call returned, [None] if it raised. *)
Definition outcome_of {A} (r : result A) : option A :=
  match r with Returned _ a => Some a | Raised _ => None end.

(** ** List and dictionary helpers *)

(** [l[-1]], [None] standing for the [IndexError] on an empty list. *)
Fixpoint last_opt {A} (l : list A) : option A :=
  match l with
  | [] => None
  | [x] => Some x
  | _ :: t => last_opt t
  end.

(** [l[-1] = f(l[-1])]: replace the last element. *)
Fixpoint upd_last {A} (f : A -> A) (l : list A) : list A :=
  match l with
  | [] => []
  | [x] => [f x]
  | x :: t => x :: upd_last f t
  end.

(** [d[p] = v] on a dictionary keyed by the four seats. *)
Definition upd {A} (d : AbsolutePosition -> A) (p : AbsolutePosition) (v : A)
  : AbsolutePosition -> A :=
  fun q => if pos_eqb q p then v else d q.

(** [l[i] += 1] *)
Fixpoint incr_at (i : nat) (l : list Z) : list Z :=
  match l, i with
  | [], _ => []
  | x :: t, O => (x + 1)%Z :: t
  | x :: t, S i' => x :: incr_at i' t
  end.

(** [l.index(x)] on a list of seats ([None] for the [ValueError]). *)
Fixpoint index_of (x : AbsolutePosition) (l : list AbsolutePosition) : option nat :=
  match l with
  | [] => None
  | y :: t => if pos_eqb y x then Some 0
              else match index_of x t with Some i => Some (S i) | None => None end
  end.

(** ** [Game]: construction, properties, [start_game] *)

(** [Game.__init__].  [cards] is the list the constructor leaves in
    [self.card_list]: the tutorial deck, the [deck] argument, or the
    shuffled new deck. *)
Definition new_Game (dominant_rank : Z) (dealer_position : option AbsolutePosition)
    (enable_chaodi enable_combos : bool) (cards : list Card)
    (is_warmup_game : bool) (oracle_value combo_penalty : Q)
    (combo_alternation : bool) : Game :=
  {| hands := fun _ => CardSet_empty;
     public_cards := fun _ => CardSet_empty;
     unplayed_cards := full_deck;
     card_list := cards;
     deck := cards;
     kitty := CardSet_empty;
     round_history := [];
     stage := declare_stage;
     kitty_stage_completed := false;
     kitty_owner := dealer_position;
     dominant_rank := dominant_rank;
     declarations := [];
     current_declaration_turn := None;
     initial_declaration_position := None;
     is_initial_game := match dealer_position with None => true | Some _ => false end;
     dealer_position := dealer_position;
     opponent_points := 0%Z;
     defender_points := 0%Z;
     game_ended := false;
     kitty_multiplier := None;
     points_per_round := [];
     final_opponent_reward := None;
     final_defender_reward := None;
     enable_chaodi := enable_chaodi;
     current_chaodi_turn := None;
     initial_chaodi_position := None;
     chaodi_times := [0; 0; 0; 0]%Z;
     enable_combos := enable_combos;
     draw_order := [];
     is_warmup_game := is_warmup_game;
     oracle_value := oracle_value;
     consecutive_moves := 0%Z;
     combo_penalty := combo_penalty;
     combo_alternation := combo_alternation |}.

(** The property [dominant_suit]. *)
Definition dominant_suit (g : Game) : TrumpSuit.t :=
  match last_opt (declarations g) with
  | Some d => suit d
  | None => TrumpSuit.XJ
  end.

(** [sum([h.size for h in d.values()])] for a dictionary of CardSets
    filled in the order N, S, W, E. *)
Definition sum_sizes (d : AbsolutePosition -> CardSet) : nat :=
  list_sum (map (fun p => size (d p)) [NORTH; SOUTH; WEST; EAST]).

(** [sum([h.size for h in self.hands.values()])] *)
Definition hands_total (g : Game) : nat := sum_sizes (hands g).

(** The three statements that draw a card for seat [seat]:
    [next_card = next(self.deck)],
    [self.hands[seat].add_card(next_card)],
    [self.draw_order.append((seat, next_card))].
    [None] is the [StopIteration] of an exhausted deck. *)
Definition draw_card (g : Game) (seat : AbsolutePosition) : option Game :=
  match deck g with
  | [] => None
  | next_card :: rest =>
      let g := set_deck rest g in
      let g := set_hands (upd (hands g) seat (add_card (hands g seat) next_card 1)) g in
      Some (set_draw_order (draw_order g ++ [(seat, next_card)]) g)
  end.

(** [Game.start_game].  [rnd] is the seat [AbsolutePosition.random()]
    yields if it is consulted. *)
Definition start_game (rnd : AbsolutePosition) (g : Game) : result AbsolutePosition :=
  let first_player :=
    match dealer_position g with Some d => d | None => rnd end in
  match draw_card g first_player with
  | Some g' => Returned g' first_player
  | None => Raised g
  end.

(** ** [Game.run_action], one definition per [isinstance] branch

    Every branch returns the seat to act next ([None] when the game has
    just ended) and the reward of the action. *)

Definition step_result := result (option AbsolutePosition * Q).

(** [isinstance(action, DontDeclareAction)] *)
Definition run_DontDeclareAction (rnd : AbsolutePosition) (g : Game)
    (player_position : AbsolutePosition) : step_result :=
  if opt_pos_eqb (current_declaration_turn g) (Some player_position) then
    if opt_pos_eqb (Some (next_position player_position))
                   (initial_declaration_position g) then
      let g := set_current_declaration_turn None g in
      let g := set_stage kitty_stage g in
      let dealer := match dealer_position g with Some d => d | None => rnd end in
      let g := set_dealer_position (Some dealer) g in
      let g := set_hands
                 (upd (hands g) dealer
                      (fold_left (fun h remaining_card => add_card h remaining_card 1)
                                 (deck g) (hands g dealer)))
                 (set_deck [] g) in
      Returned g (dealer_position g, 0%Q)
    else
      match current_declaration_turn g with
      | Some turn =>
          let g := set_current_declaration_turn (Some (next_position turn)) g in
          Returned g (current_declaration_turn g, 0%Q)
      | None => Raised g
      end
  else if hands_total g <? 100 then
    if size (hands g (next_position player_position)) <? 25 then
      match draw_card g (next_position player_position) with
      | Some g' => Returned g' (Some (next_position player_position), 0%Q)
      | None => Raised g
      end
    else Raised g
  else
    let g := set_initial_declaration_position
               (Some (next_position player_position)) g in
    let g := set_current_declaration_turn
               (Some (next_position player_position)) g in
    Returned g (current_declaration_turn g, 0%Q).

(** The first assertion of the [DeclareAction] branch:
    [not self.declarations or self.declarations[-1].level < level]. *)
Definition level_increases (g : Game) (d : Declaration) : bool :=
  match last_opt (declarations g) with
  | None => true
  | Some standing => (level standing <? level d)%Z
  end.

(** [isinstance(action, DeclareAction)] *)
Definition run_DeclareAction (g : Game) (declaration : Declaration)
    (player_position : AbsolutePosition) : step_result :=
  if negb (level_increases g declaration) then Raised g
  else
    match get_count (hands g player_position) (suit declaration) (dominant_rank g) with
    | None => Raised g
    | Some held =>
        if negb (1 <=? held) then Raised g
        else
          let g :=
            if match dealer_position g with None => true | Some _ => false end
               || is_initial_game g
            then set_kitty_owner (Some player_position)
                   (set_dealer_position (Some player_position) g)
            else g in
          let g := set_declarations (declarations g ++ [declaration]) g in
          match get_card declaration (dominant_rank g) with
          | None => Raised g
          | Some (shown, count) =>
              let g := set_public_cards
                         (upd (public_cards g) player_position
                              (add_card (public_cards g player_position) shown count))
                         g in
              if hands_total g <? 100 then
                match draw_card g (next_position player_position) with
                | Some g' => Returned g' (Some (next_position player_position), 0%Q)
                | None => Raised g
                end
              else
                let g := set_initial_declaration_position (Some player_position) g in
                let g := set_current_declaration_turn
                           (Some (next_position player_position)) g in
                Returned g (current_declaration_turn g, 0%Q)
          end
    end.

(** The loop counting the natural suits the hand still holds:
    [for suit in [CLUB, DIAMOND, HEART, SPADE]: if count_suit(...) > 0]. *)
Definition suit_count (h : CardSet) (ds : TrumpSuit.t) (dr : Z) : Z :=
  Z.of_nat (List.length (filter (fun s => 0 <? count_suit h s ds dr)
               [CardSuit.CLUB; CardSuit.DIAMOND; CardSuit.HEART; CardSuit.SPADE])).

(** The reward computed by the [PlaceKittyAction] branch from the hand
    before and after the discard. *)
Definition kitty_discard_reward (before after : CardSet) (discarded : Card)
    (ds : TrumpSuit.t) (dr : Z) : Q :=
  let suit_count_before := suit_count before ds dr in
  let trump_count_before := count_suit before CardSuit.TRUMP ds dr in
  let suit_count_after := suit_count after ds dr in
  let trump_count_after := count_suit after CardSuit.TRUMP ds dr in
  let reward := (0.2 * inject_Z (suit_count_before - suit_count_after))%Q in
  let reward := if trump_count_after <? trump_count_before
                then (reward - 0.5)%Q else reward in
  let reward := if (get_rank discarded ds dr >=? 15)%Z
                then (reward - 1)%Q else reward in
  reward.

(** [if not self.round_history: self.round_history.append((p, []))] *)
Definition open_first_round (g : Game) (p : AbsolutePosition) : Game :=
  match round_history g with
  | [] => set_round_history [(p, [])] g
  | _ :: _ => g
  end.

(** [isinstance(action, PlaceKittyAction)] *)
Definition run_PlaceKittyAction (g : Game) (c : Card)
    (player_position : AbsolutePosition) : step_result :=
  if negb (size (kitty g) <? 8) then Raised g
  else
    let before := hands g player_position in
    let g := set_kitty (add_card (kitty g) c 1) g in
    match remove_card (hands g player_position) c 1 with
    | None => Raised g
    | Some after =>
        let g := set_hands (upd (hands g) player_position after) g in
        let reward :=
          kitty_discard_reward before after c (dominant_suit g) (dominant_rank g) in
        if size (kitty g) =? 8 then
          let g := open_first_round g player_position in
          if negb (enable_chaodi g) then
            let g := set_stage main_stage g in
            Returned g (dealer_position g, reward)
          else
            let g := set_stage chaodi_stage g in
            let g := set_initial_chaodi_position (Some player_position) g in
            let g := set_current_chaodi_turn
                       (Some (next_position player_position)) g in
            Returned g (Some (next_position player_position), reward)
        else
          Returned g (Some player_position, 0%Q)
    end.

(** [isinstance(action, PlaceAllKittyAction)] *)
Definition run_PlaceAllKittyAction (g : Game) (cards : CardSet)
    (player_position : AbsolutePosition) : step_result :=
  let g := set_kitty (add_cardset (kitty g) cards) g in
  match remove_cardset (hands g player_position) cards with
  | None => Raised g
  | Some after =>
      let g := set_hands (upd (hands g) player_position after) g in
      let g := open_first_round g player_position in
      if negb (enable_chaodi g)
         || match declarations g with [] => true | _ :: _ => false end
      then
        let g := set_stage main_stage g in
        Returned g (dealer_position g, 0%Q)
      else
        let g := set_stage chaodi_stage g in
        let g := set_initial_chaodi_position (Some player_position) g in
        let g := set_current_chaodi_turn (Some (next_position player_position)) g in
        Returned g (Some (next_position player_position), 0%Q)
  end.

(** [isinstance(action, DontChaodiAction)] *)
Definition run_DontChaodiAction (g : Game) (player_position : AbsolutePosition)
  : step_result :=
  match current_chaodi_turn g with
  | None => Raised g
  | Some turn =>
      if opt_pos_eqb (Some (next_position turn)) (initial_chaodi_position g) then
        let g := set_current_chaodi_turn None g in
        let g := set_stage main_stage g in
        Returned g (dealer_position g, 0%Q)
      else
        let g := set_current_chaodi_turn (Some (next_position turn)) g in
        Returned g (current_chaodi_turn g, 0%Q)
  end.

(** [isinstance(action, ChaodiAction)] *)
Definition run_ChaodiAction (g : Game) (declaration : Declaration)
    (player_position : AbsolutePosition) : step_result :=
  let g := set_declarations (declarations g ++ [declaration]) g in
  let g := set_hands (upd (hands g) player_position
                          (add_cardset (hands g player_position) (kitty g))) g in
  match remove_cardset (kitty g) (kitty g) with
  | None => Raised g
  | Some emptied =>
      let g := set_kitty emptied g in
      match get_card declaration (dominant_rank g) with
      | None => Raised g
      | Some (shown, count) =>
          let g := set_public_cards
                     (upd (public_cards g) player_position
                          (add_card (public_cards g player_position) shown count))
                     g in
          let g := set_kitty_owner (Some player_position) g in
          let g := set_stage kitty_stage g in
          let g := set_chaodi_times
                     (incr_at (Z.to_nat (seat_index player_position)) (chaodi_times g))
                     g in
          if (level declaration =? 3)%Z then
            let g := set_current_chaodi_turn None g in
            Returned g (Some player_position, 0%Q)
          else
            Returned g (Some player_position, 0%Q)
      end
  end.

(** [for card in cs.card_list(): if public.has_card(card):
    public.remove_card(card)]: a played card is no longer a card the seat
    is known to hold. *)
Definition forget_played (public : CardSet) (played : list Card) : CardSet :=
  fold_left
    (fun pc c =>
       if has_card pc c
       then match remove_card pc c 1 with Some pc' => pc' | None => pc end
       else pc)
    played public.

(** [for (card, count) in failed.count_iterator(): if public._cards[card]
    < count: public._cards[card] = count] *)
Definition reveal_failed (public : CardSet) (failed : list (Card * nat)) : CardSet :=
  fold_left
    (fun pc '(c, count) =>
       if pc c <? count
       then (fun c' => if Card_eqb c' c then count else pc c')
       else pc)
    failed public.

(** The reward bucket computed when the game ends (the chain of
    comparisons on [self.opponent_points]). *)
Definition opponent_reward (opponent_points : Z) : Z :=
  if (opponent_points >=? 80)%Z then (1 + (opponent_points - 80) / 40)%Z
  else if (opponent_points >=? 40)%Z then (-1)%Z
  else if (opponent_points >? 0)%Z then (-2)%Z
  else (-3)%Z.

(** [isinstance(action, LeadAction)] *)
Definition run_LeadAction (g : Game) (move : MoveType)
    (player_position : AbsolutePosition) : step_result :=
  match round_history g with
  | [] => Raised g
  | _ :: _ =>
      let g := set_round_history
                 (upd_last (fun r => (fst r, snd r ++ [cardset move]))
                           (round_history g)) g in
      let g := set_consecutive_moves 1%Z g in
      Returned g (Some player_position, 0%Q)
  end.

(** [isinstance(action, AppendLeadAction)] *)
Definition run_AppendLeadAction (g : Game) (move : MoveType)
    (player_position : AbsolutePosition) : step_result :=
  match last_opt (round_history g) with
  | None | Some (_, []) => Raised g
  | Some (_, _ :: _) =>
      let g := set_round_history
                 (upd_last (fun r => (fst r, cardset move :: tl (snd r)))
                           (round_history g)) g in
      let g := set_consecutive_moves (consecutive_moves g + 1)%Z g in
      Returned g (Some player_position, 0%Q)
  end.

Section WithRules.

Variable rules : CardSetRules.

(** [isinstance(action, EndLeadAction)] *)
Definition run_EndLeadAction (g : Game) (move : MoveType)
    (player_position : AbsolutePosition) : step_result :=
  let other_player_hands :=
    [hands g (next_position player_position);
     hands g (next_position (next_position player_position));
     hands g (next_position (next_position (next_position player_position)))] in
  let '(is_legal, penalty_move) :=
    is_legal_combo rules move other_player_hands (dominant_suit g) (dominant_rank g) in
  if is_legal then
    match last_opt (round_history g) with
    | None => Raised g
    | Some (_, moves) =>
        let g :=
          match moves with
          | [] => set_round_history
                    (upd_last (fun r => (fst r, snd r ++ [cardset move]))
                              (round_history g)) g
          | _ :: _ => g
          end in
        match remove_cardset (hands g player_position) (cardset move) with
        | None => Raised g
        | Some h =>
            let g := set_hands (upd (hands g) player_position h) g in
            match remove_cardset (unplayed_cards g) (cardset move) with
            | None => Raised g
            | Some u =>
                let g := set_unplayed_cards u g in
                let g := set_public_cards
                           (upd (public_cards g) player_position
                                (forget_played (public_cards g player_position)
                                               (card_list_of rules (cardset move))))
                           g in
                Returned g (Some (next_position player_position), 0%Q)
            end
        end
    end
  else
    match last_opt (round_history g) with
    | None | Some (_, []) => Raised g
    | Some (_, _ :: _) =>
        let g := set_round_history
                   (upd_last (fun r => (fst r, removelast (snd r) ++ [penalty_move]))
                             (round_history g)) g in
        match remove_cardset (hands g player_position) penalty_move with
        | None => Raised g
        | Some h =>
            let g := set_hands (upd (hands g) player_position h) g in
            match remove_cardset (unplayed_cards g) penalty_move with
            | None => Raised g
            | Some u =>
                let g := set_unplayed_cards u g in
                match remove_cardset (cardset move) penalty_move with
                | None => Raised g
                | Some failed_cards =>
                    let g := set_public_cards
                               (upd (public_cards g) player_position
                                    (reveal_failed (public_cards g player_position)
                                                   (count_iterator rules failed_cards)))
                               g in
                    Returned g (Some (next_position player_position),
                                (- combo_penalty g)%Q)
                end
            end
        end
    end.

(** The settlement of a finished round inside the [FollowAction] branch
    ([if len(moves) == 4:]); [moves] are the four groups played. *)
Definition settle_round (g : Game) (lead_position : AbsolutePosition)
    (moves : list CardSet) (player_position : AbsolutePosition) : step_result :=
  let winner_index := round_winner rules moves (dominant_suit g) (dominant_rank g) in
  let round_points := fold_right Z.add 0%Z (map (total_points rules) moves) in
  let position_array :=
    [lead_position; next_position lead_position;
     next_position (next_position lead_position); last_position lead_position] in
  match dealer_position g with
  | None => Raised g
  | Some dealer =>
      match index_of dealer position_array with
      | None => Raised g
      | Some dealer_index =>
          match nth_error position_array winner_index with
          | None => Raised g
          | Some new_leading_position =>
              let declarer_wins_round :=
                (winner_index =? dealer_index)
                || ((winner_index + 2) mod 4 =? dealer_index) in
              let g :=
                if declarer_wins_round then
                  let g := set_defender_points (defender_points g + round_points)%Z g in
                  set_points_per_round (points_per_round g ++ [round_points]) g
                else
                  let g := set_opponent_points (opponent_points g + round_points)%Z g in
                  set_points_per_round (points_per_round g ++ [(- round_points)%Z]) g in
              if size (hands g player_position) =? 0 then
                let g := set_game_ended true g in
                let kitty_points := total_points rules (kitty g) in
                let settled :=
                  if negb declarer_wins_round then
                    match nth_error moves winner_index with
                    | None => None
                    | Some winning =>
                        let multiplier :=
                          get_multiplier rules (Combo winning)
                                         (dominant_suit g) (dominant_rank g) in
                        let g := set_opponent_points
                                   (opponent_points g + kitty_points * multiplier)%Z g in
                        Some (set_points_per_round
                                (upd_last (fun x => x - kitty_points * multiplier)%Z
                                          (points_per_round g)) g)
                    end
                  else
                    Some (set_points_per_round
                            (upd_last (fun x => x + kitty_points * 2)%Z
                                      (points_per_round g)) g) in
                match settled with
                | None => Raised g
                | Some g =>
                    let reward := opponent_reward (opponent_points g) in
                    let g := set_final_opponent_reward (Some reward) g in
                    let g := set_final_defender_reward (Some (- reward)%Z) g in
                    Returned g (None, 0%Q)
                end
              else
                let g := set_round_history
                           (round_history g ++ [(new_leading_position, [])]) g in
                Returned g (Some new_leading_position, 0%Q)
          end
      end
  end.

(** [isinstance(action, FollowAction)] *)
Definition run_FollowAction (g : Game) (cs : CardSet)
    (player_position : AbsolutePosition) : step_result :=
  match last_opt (round_history g) with
  | None => Raised g
  | Some (lead_position, previous) =>
      match remove_cardset (hands g player_position) cs with
      | None => Raised g
      | Some h =>
          let g := set_hands (upd (hands g) player_position h) g in
          let moves := previous ++ [cs] in
          let g := set_round_history
                     (upd_last (fun r => (fst r, snd r ++ [cs])) (round_history g)) g in
          match remove_cardset (unplayed_cards g) cs with
          | None => Raised g
          | Some u =>
              let g := set_unplayed_cards u g in
              let g := set_public_cards
                         (upd (public_cards g) player_position
                              (forget_played (public_cards g player_position)
                                             (card_list_of rules cs)))
                         g in
              if List.length moves =? 4
              then settle_round g lead_position moves player_position
              else Returned g (Some (next_position player_position), 0%Q)
          end
      end
  end.

(** [Game.run_action]: the chain of [isinstance] tests.  The action
    classes are disjoint, so the chain is a case analysis and the final
    [raise AssertionError] is unreachable. *)
Definition run_action (rnd : AbsolutePosition) (g : Game) (action : Action)
    (player_position : AbsolutePosition) : step_result :=
  match action with
  | DontDeclareAction => run_DontDeclareAction rnd g player_position
  | DeclareAction declaration => run_DeclareAction g declaration player_position
  | PlaceKittyAction c _ => run_PlaceKittyAction g c player_position
  | PlaceAllKittyAction cards => run_PlaceAllKittyAction g cards player_position
  | DontChaodiAction => run_DontChaodiAction g player_position
  | ChaodiAction declaration => run_ChaodiAction g declaration player_position
  | LeadAction move => run_LeadAction g move player_position
  | AppendLeadAction _ move => run_AppendLeadAction g move player_position
  | EndLeadAction move => run_EndLeadAction g move player_position
  | FollowAction cs => run_FollowAction g cs player_position
  end.

(** ** [Game.get_observation] *)

(** The condition under which a declaration option is offered in the
    DECLARE stage:
    [not self.declarations or self.declarations[-1].level < level and
     (self.declarations[-1].suit == suit or
      self.declarations[-1].absolute_position != position)]. *)
Definition may_declare (g : Game) (position : AbsolutePosition)
    (s : TrumpSuit.t) (l : Z) : bool :=
  match last_opt (declarations g) with
  | None => true
  | Some standing =>
      (level standing <? l)%Z
      && (TrumpSuit.eqb (suit standing) s
          || negb (pos_eqb (absolute_position standing) position))
  end.

(** The part of [get_observation] under [# Compute actions], up to and
    including [assert actions]; [None] when it raises. *)
Definition compute_actions (g : Game) (position : AbsolutePosition)
  : option (list Action) :=
  let hand := hands g position in
  let actions :=
    if stage_eqb (stage g) declare_stage then
      Some ((if negb (is_warmup_game g) then
               flat_map (fun '(s, l) =>
                           if may_declare g position s l
                           then [DeclareAction (new_Declaration s l position)]
                           else [])
                        (trump_declaration_options rules hand (dominant_rank g))
             else [])
            ++ [DontDeclareAction])
    else if 25 <? size hand then
      Some (flat_map (fun c => if 0 <? hand c then [PlaceKittyAction c (hand c)] else [])
                     ORDERING)
    else if opt_pos_eqb (current_chaodi_turn g) (Some position) then
      Some ((if enable_chaodi g
                && match declarations g with [] => false | _ :: _ => true end
             then
               flat_map (fun '(s, l) =>
                           match last_opt (declarations g) with
                           | Some standing =>
                               if (chaodi_level s l
                                   >? chaodi_level (suit standing) (level standing))%Z
                               then [ChaodiAction (new_Declaration s l position)]
                               else []
                           | None => []
                           end)
                        (trump_declaration_options rules hand (dominant_rank g))
             else [])
            ++ [DontChaodiAction])
    else
      match last_opt (round_history g) with
      | None => None
      | Some (leader, moves) =>
          if pos_eqb leader position then
            if negb (enable_combos g)
               || match moves with [] => true | _ :: _ => false end
            then
              let ban_combos :=
                combo_alternation g
                && (pos_eqb position EAST || pos_eqb position WEST) in
              Some (map (fun move =>
                           if enable_combos g && negb ban_combos
                           then LeadAction move else EndLeadAction move)
                        (get_leading_moves rules hand (dominant_suit g) (dominant_rank g)))
            else
              match moves with
              | [] => None
              | current_action :: _ =>
                  match card_list_of rules current_action with
                  | [] => None
                  | first :: _ =>
                      let current_action_suit :=
                        get_suit first (dominant_suit g) (dominant_rank g) in
                      match remove_cardset
                              (filter_by_suit hand current_action_suit
                                              (dominant_suit g) (dominant_rank g))
                              current_action with
                      | None => None
                      | Some remaining_cards =>
                          Some ((if (consecutive_moves g <? 3)%Z then
                                   map (fun move => AppendLeadAction current_action move)
                                       (get_leading_moves rules remaining_cards
                                          (dominant_suit g) (dominant_rank g))
                                 else [])
                                ++ [EndLeadAction (Combo current_action)])
                      end
                  end
              end
          else
            match moves with
            | [] => None
            | led :: _ =>
                Some (map FollowAction
                          (get_matching_moves rules hand (Combo led)
                             (dominant_suit g) (dominant_rank g)))
            end
      end in
  match actions with
  | Some [] => None
  | other => other
  end.

Definition get_observation (g : Game) (position : AbsolutePosition)
  : option Observation.t :=
  match compute_actions g position with
  | None => None
  | Some actions =>
      Some {|
        Observation.hand := copy (hands g position);
        Observation.position := position;
        Observation.actions := actions;
        Observation.stage := stage g;
        Observation.dominant_rank := dominant_rank g;
        Observation.declaration :=
          match last_opt (declarations g) with
          | Some d => Some (Declaration_relative_to d position)
          | None => None
          end;
        Observation.next_declaration_turn :=
          match current_declaration_turn g with
          | Some turn => Some (relative_to turn position)
          | None => None
          end;
        Observation.dealer_position :=
          match dealer_position g with
          | Some d => Some (relative_to d position)
          | None => None
          end;
        Observation.defender_points := opponent_points g;
        Observation.opponent_points := opponent_points g;
        Observation.round_history :=
          map (fun r => (relative_to (fst r) position, snd r)) (round_history g);
        Observation.unplayed_cards := copy (unplayed_cards g);
        Observation.leads_current_trick :=
          match last_opt (round_history g) with
          | Some (leader, _) => pos_eqb leader position
          | None => opt_pos_eqb (Some position) (dealer_position g)
          end;
        Observation.chaodi_times := chaodi_times g;
        Observation.kitty :=
          if opt_pos_eqb (Some position) (kitty_owner g)
          then Some (copy (kitty g)) else None;
        Observation.is_chaodi_turn :=
          opt_pos_eqb (current_chaodi_turn g) (Some position);
        Observation.perceived_left := copy (public_cards g (last_position position));
        Observation.perceived_right := copy (public_cards g (next_position position));
        Observation.perceived_opposite :=
          copy (public_cards g (next_position (next_position position)));
        Observation.actual_left := copy (hands g (last_position position));
        Observation.actual_right := copy (hands g (next_position position));
        Observation.actual_opposite :=
          copy (hands g (next_position (next_position position)));
        Observation.oracle_value := oracle_value g
      |}
  end.

End WithRules.

(** ** Scripts and reachable states *)

(** Apply a list of (action, acting seat) pairs in order; [None] as soon
    as one call raises. *)
Fixpoint run_script (rules : CardSetRules) (rnd : AbsolutePosition) (g : Game)
    (script : list (Action * AbsolutePosition)) : option Game :=
  match script with
  | [] => Some g
  | (a, p) :: rest =>
      match run_action rules rnd g a p with
      | Returned g' _ => run_script rules rnd g' rest
      | Raised _ => None
      end
  end.

(** The states a game object goes through: the constructed game [g0],
    and every state a returning [start_game] or [run_action] call leaves,
    for any acting seat and any action satisfying [allowed] in the state
    it is applied to.  [run_action] itself checks neither turn nor
    stage. *)
Inductive reachable (rules : CardSetRules) (allowed : Game -> Action -> Prop)
    (g0 : Game) : Game -> Prop :=
| reach_new : reachable rules allowed g0 g0
| reach_start : forall rnd g g' first,
    reachable rules allowed g0 g ->
    start_game rnd g = Returned g' first ->
    reachable rules allowed g0 g'
| reach_action : forall rnd g a p g' r,
    reachable rules allowed g0 g ->
    allowed g a ->
    run_action rules rnd g a p = Returned g' r ->
    reachable rules allowed g0 g'.

Definition any_action : Game -> Action -> Prop := fun _ _ => True.

(** Cards in the groups recorded in a round history. *)
Definition rounds_total (rh : list (AbsolutePosition * list CardSet)) : nat :=
  list_sum (map (fun r => list_sum (map size (snd r))) rh).

Definition played_total (g : Game) : nat := rounds_total (round_history g).

(** The sum of card counts across the four hands, the kitty, the undealt
    part of the deck and the groups in the round history. *)
Definition card_total (g : Game) : nat :=
  hands_total g + size (kitty g) + List.length (deck g) + played_total g.


Definition not_chaodi (_ : Game) (a : Action) : Prop :=
  match a with ChaodiAction _ => False | _ => True end.

(** The order the specification gives for successive declarations: the
    level is strictly higher, or it is equal, the bidder differs and the
    suit is the running suit (re-affirmation). *)
Definition supersedes_spec (standing later : Declaration) : Prop :=
  (level standing < level later)%Z
  \/ (level standing = level later
      /\ absolute_position later <> absolute_position standing
      /\ suit later = suit standing).

Definition level_lt (standing later : Declaration) : Prop :=
  (level standing < level later)%Z.

(** The observation with the three [actual_*] fields blanked. *)
Definition without_actual_hands (o : Observation.t) : Observation.t :=
  {| Observation.hand := Observation.hand o;
     Observation.position := Observation.position o;
     Observation.actions := Observation.actions o;
     Observation.stage := Observation.stage o;
     Observation.dominant_rank := Observation.dominant_rank o;
     Observation.declaration := Observation.declaration o;
     Observation.next_declaration_turn := Observation.next_declaration_turn o;
     Observation.dealer_position := Observation.dealer_position o;
     Observation.defender_points := Observation.defender_points o;
     Observation.opponent_points := Observation.opponent_points o;
     Observation.round_history := Observation.round_history o;
     Observation.unplayed_cards := Observation.unplayed_cards o;
     Observation.leads_current_trick := Observation.leads_current_trick o;
     Observation.chaodi_times := Observation.chaodi_times o;
     Observation.kitty := Observation.kitty o;
     Observation.is_chaodi_turn := Observation.is_chaodi_turn o;
     Observation.perceived_left := Observation.perceived_left o;
     Observation.perceived_right := Observation.perceived_right o;
     Observation.perceived_opposite := Observation.perceived_opposite o;
     Observation.actual_left := CardSet_empty;
     Observation.actual_right := CardSet_empty;
     Observation.actual_opposite := CardSet_empty;
     Observation.oracle_value := Observation.oracle_value o |}.

(** ** A reference instance of the rules, for running concrete games *)

(** The CardSet holding the cards of a list. *)
Definition cardset_of_list (l : list Card) : CardSet :=
  fold_left (fun cs c => add_card cs c 1) l CardSet_empty.

Module Reference.

(** Modelled from the spec: [CardSet.card_list], the cards of the set
    with repetition, in table order. *)
Definition card_list_of (cs : CardSet) : list Card :=
  flat_map (fun c => repeat c (cs c)) ORDERING.

(** Modelled from the spec: [CardSet.count_iterator], the cards held
    with their counts. *)
Definition count_iterator (cs : CardSet) : list (Card * nat) :=
  flat_map (fun c => if 0 <? cs c then [(c, cs c)] else []) ORDERING.

(** Modelled from the spec: [CardSet.total_points], "face value of
    point-bearing ranks": fives count 5, tens and kings count 10. *)
Definition total_points (cs : CardSet) : Z :=
  fold_right Z.add 0%Z
    (map (fun c =>
            match c with
            | card r5 _ => 5 * Z.of_nat (cs c)
            | card r10 _ | card rK _ => 10 * Z.of_nat (cs c)
            | _ => 0
            end%Z) ORDERING).

(** Modelled from the spec: [trump_declaration_options], "based on how
    many trumpRank cards of that suit, or jokers, the hand holds": one
    trump-rank card of a suit is level 0, a pair level 1, a pair of
    small jokers level 2, a pair of big jokers level 3. *)
Definition trump_declaration_options (hand : CardSet) (dominant_rank : Z)
  : list (TrumpSuit.t * Z) :=
  match LETTER_RANK dominant_rank with
  | None => []
  | Some r =>
      flat_map (fun '(t, s) =>
                  if 1 <=? hand (card r s)
                  then [(t, Z.of_nat (hand (card r s)) - 1)%Z] else [])
               [(TrumpSuit.DIAMOND, sym_diamond); (TrumpSuit.CLUB, sym_club);
                (TrumpSuit.HEART, sym_heart); (TrumpSuit.SPADE, sym_spade)]
      ++ (if hand card_XJ =? 2 then [(TrumpSuit.XJ, 2%Z)] else [])
      ++ (if hand card_DJ =? 2 then [(TrumpSuit.DJ, 3%Z)] else [])
  end.

(** Modelled from the spec: [get_leading_moves], restricted to the
    single-card leads. *)
Definition get_leading_moves (hand : CardSet) (ds : TrumpSuit.t) (dr : Z)
  : list MoveType :=
  flat_map (fun c => if 0 <? hand c then [Single (cardset_of_list [c])] else [])
           ORDERING.

(** Modelled from the spec: [get_matching_moves] for a single-card
    lead: a card of the led effective suit if the hand holds one,
    "otherwise may play any cards". *)
Definition get_matching_moves (hand : CardSet) (led : MoveType)
    (ds : TrumpSuit.t) (dr : Z) : list CardSet :=
  match card_list_of (cardset led) with
  | [] => []
  | first :: _ =>
      let in_suit := filter_by_suit hand (get_suit first ds dr) ds dr in
      let pool := if 0 <? size in_suit then in_suit else hand in
      flat_map (fun c => if 0 <? pool c then [cardset_of_list [c]] else [])
               ORDERING
  end.

(** The strength of a one-card answer to a one-card lead: trump beats
    the led suit, another suit cannot win. *)
Definition strength (led_suit : CardSuit.t) (ds : TrumpSuit.t) (dr : Z)
    (group : CardSet) : Z :=
  match card_list_of group with
  | [] => 0
  | c :: _ =>
      if CardSuit.eqb (get_suit c ds dr) CardSuit.TRUMP
      then 100 + get_rank c ds dr
      else if CardSuit.eqb (get_suit c ds dr) led_suit
      then get_rank c ds dr
      else 0
  end%Z.

(** Index of the first maximum of a list of strengths. *)
Fixpoint first_max (l : list Z) (i best_i : nat) (best : Z) : nat :=
  match l with
  | [] => best_i
  | x :: t => if (best <? x)%Z then first_max t (S i) i x
              else first_max t (S i) best_i best
  end.

(** Modelled from the spec: [round_winner] for single-card rounds:
    "trump-suit plays beat non-trump; ... a single beats a lower
    single"; the earlier play wins a tie. *)
Definition round_winner (moves : list CardSet) (ds : TrumpSuit.t) (dr : Z) : nat :=
  match moves with
  | [] => 0
  | lead :: _ =>
      match card_list_of lead with
      | [] => 0
      | c :: _ =>
          first_max (map (strength (get_suit c ds dr) ds dr) moves) 0 0 (-1)%Z
      end
  end.

(** Modelled from the spec: [is_legal_combo] on a single-component
    lead, which no holding can make illegal; and [get_multiplier],
    the kitty multiplier of a single-card winning move. *)
Definition rules : CardSetRules :=
  Build_CardSetRules
    trump_declaration_options
    get_leading_moves
    get_matching_moves
    (fun move _ _ _ => (true, cardset move))
    round_winner
    (fun _ _ _ => 2%Z)
    total_points
    card_list_of
    count_iterator.

End Reference.

(** ** Concrete games

    Games played from explicit decks with a fixed dealer, so that no
    random source is consulted.  The dominant rank is 2 and North
    deals. *)
Module Scenario.

(** Two copies of [ORDERING], unshuffled. *)
Definition standard_deck : list Card := ORDERING ++ ORDERING.

Fixpoint remove_one (c : Card) (l : list Card) : list Card :=
  match l with
  | [] => []
  | x :: t => if Card_eqb x c then t else x :: remove_one c t
  end.

(** The standard deck reordered so that [front] is dealt first. *)
Definition stacked_deck (front : list Card) : list Card :=
  front ++ fold_left (fun l c => remove_one c l) front standard_deck.

(** The seat that acts at step [k] of the rotation N, W, S, E. *)
Definition seat_cycle (k : nat) : AbsolutePosition :=
  match k mod 4 with 0 => NORTH | 1 => WEST | 2 => SOUTH | _ => EAST end.

(** [n] consecutive passes, the first by seat [seat_cycle from]. *)
Definition passes (from n : nat) : list (Action * AbsolutePosition) :=
  map (fun k => (DontDeclareAction, seat_cycle k)) (seq from n).

Definition after (g : Game) (script : list (Action * AbsolutePosition)) : Game :=
  match run_script Reference.rules NORTH g script with
  | Some g' => g'
  | None => g
  end.

Definition one (c : Card) : CardSet := cardset_of_list [c].

(** A game on the standard deck; [combos] is [enable_combos]. *)
Definition fresh (combos : bool) : Game :=
  new_Game 2 (Some NORTH) true combos standard_deck false 0%Q 0.1%Q false.

Definition started (combos : bool) : Game :=
  state_of (start_game NORTH (fresh combos)).

(** 100 cards are out and every seat has passed on every card but the
    last. *)
Definition hundred_out : Game := after (started false) (passes 0 99).

(** Four passes of the final lap later, East is about to close it. *)
Definition lap_end : Game := after (started false) (passes 0 103).

(** The dealer has picked up the last eight cards. *)
Definition kitty_time (combos : bool) : Game :=
  after (started combos) (passes 0 104).

Definition discards : CardSet :=
  cardset_of_list
    [card r6 sym_diamond; card r4 sym_diamond; card r7 sym_club;
     card r3 sym_club; card r8 sym_heart; card r6 sym_heart;
     card r4 sym_spade; card r3 sym_spade].

(** North has put eight cards away in one batch; nobody declared, so
    play starts. *)
Definition kitty_set (combos : bool) : Game :=
  after (kitty_time combos) [(PlaceAllKittyAction discards, NORTH)].

(** North leads the ace of diamonds and wins the king, queen and jack
    that follow. *)
Definition first_trick : list (Action * AbsolutePosition) :=
  [(EndLeadAction (Single (one (card rA sym_diamond))), NORTH);
   (FollowAction (one (card rK sym_diamond)), WEST);
   (FollowAction (one (card rQ sym_diamond)), SOUTH);
   (FollowAction (one (card rJ sym_diamond)), EAST)].

Definition after_first_trick : Game := after (kitty_set false) first_trick.

(** With combos enabled, North starts a lead with the ace of
    diamonds. *)
Definition lead_started : Game :=
  after (kitty_set true)
        [(LeadAction (Single (one (card rA sym_diamond))), NORTH)].

(** Eight more cards North holds after the first batch. *)
Definition more_discards : CardSet :=
  cardset_of_list
    [card r8 sym_diamond; card r9 sym_club; card r5 sym_club;
     card r10 sym_heart; card r4 sym_heart; card r9 sym_spade;
     card r7 sym_spade; card r6 sym_spade].

(** West and East have exchanged their hands. *)
Definition swapped (g : Game) : AbsolutePosition -> CardSet :=
  upd (upd (hands g) WEST (hands g EAST)) EAST (hands g WEST).

(** A deck that gives North both twos of diamonds and West both twos of
    clubs within the first six cards. *)
Definition pairs_deck : list Card :=
  stacked_deck
    [card r2 sym_diamond; card r2 sym_club; card r3 sym_diamond;
     card r3 sym_club; card r2 sym_diamond; card r2 sym_club].

(** Eight cards North holds at the end of the draw from [pairs_deck]. *)
Definition pairs_discards : CardSet :=
  cardset_of_list
    [card r6 sym_diamond; card r4 sym_diamond; card r7 sym_club;
     card r6 sym_club; card r6 sym_heart; card r6 sym_heart;
     card r4 sym_spade; card r3 sym_spade].

Definition diamonds_pair : Declaration := new_Declaration TrumpSuit.DIAMOND 1 NORTH.
Definition clubs_pair : Declaration := new_Declaration TrumpSuit.CLUB 1 WEST.

(** North declares the pair of diamonds on its second card; everybody
    passes to the end of the draw and through the final lap; North
    sets the kitty; West is first to speak in the counter-bid lap. *)
Definition pairs_game : Game :=
  new_Game 2 (Some NORTH) true false pairs_deck false 0%Q 0.1%Q false.

Definition counter_bid_time : Game :=
  after (state_of (start_game NORTH pairs_game))
        (passes 0 4
         ++ [(DeclareAction diamonds_pair, NORTH)]
         ++ passes 1 99
         ++ [(PlaceAllKittyAction pairs_discards, NORTH)]).

Definition counter_bid_made : Game :=
  after counter_bid_time [(ChaodiAction clubs_pair, WEST)].

(** A deck whose first two cards are the twos of hearts. *)
Definition hearts_deck : list Card :=
  stacked_deck [card r2 sym_heart; card r2 sym_heart].

Definition hearts_north : Declaration := new_Declaration TrumpSuit.HEART 0 NORTH.
Definition hearts_west : Declaration := new_Declaration TrumpSuit.HEART 0 WEST.

(** North declares hearts with its first card; West has just drawn the
    other two of hearts. *)
Definition hearts_game : Game :=
  new_Game 2 (Some NORTH) true false hearts_deck false 0%Q 0.1%Q false.

Definition hearts_declared : Game :=
  after (state_of (start_game NORTH hearts_game))
        [(DeclareAction hearts_north, NORTH)].

(** The last trick of a game: East, the last to follow, holds one
    card, and North, South and West have played theirs. *)
Definition last_trick : Game :=
  set_hands (upd (fun _ => CardSet_empty) EAST (one (card r5 sym_club)))
    (set_round_history
       [(NORTH, [one (card rK sym_club); one (card r9 sym_club);
                 one (card r10 sym_club)])]
       (set_opponent_points 60%Z
          (set_kitty discards
             (set_stage main_stage (fresh false))))).

Definition first_diamond : Declaration := new_Declaration TrumpSuit.DIAMOND 0 NORTH.

(** North declares diamonds with its first card, and again with the
    pair when the second two of diamonds arrives. *)
Definition two_bids : list (Action * AbsolutePosition) :=
  [(DeclareAction first_diamond, NORTH)]
  ++ passes 1 3
  ++ [(DeclareAction diamonds_pair, NORTH)].

Definition raised_bid : Game :=
  after (state_of (start_game NORTH pairs_game)) two_bids.

(** After [raised_bid] everybody passes to the end of the draw and
    through the final lap, North sets the kitty and West counter-bids
    with the pair of clubs. *)
Definition counter_after_raise : list (Action * AbsolutePosition) :=
  passes 1 99
  ++ [(PlaceAllKittyAction pairs_discards, NORTH)]
  ++ [(ChaodiAction clubs_pair, WEST)].

Definition raised_then_countered : Game := after raised_bid counter_after_raise.





End Scenario.

(** How often a card occurs in a list of cards. *)
Definition occurrences (c : Card) (l : list Card) : nat :=
  List.length (filter (fun c' => Card_eqb c' c) l).

(** The copies of a card that have not been played: those in the four
    hands, in the kitty and in the undealt part of the deck. *)
Definition copies_held (g : Game) (c : Card) : nat :=
  list_sum (map (fun p => hands g p c) [NORTH; SOUTH; WEST; EAST])
  + kitty g c + occurrences c (deck g).

(** The property [game_started]:
    [sum([c.size for c in self.hands.values()]) > 0 or self.game_ended]. *)
Definition game_started (g : Game) : bool :=
  (0 <? sum_sizes (hands g)) || game_ended g.

(** How a declaration entered [declarations]: by a declare action or by
    a counter-bid. *)
Inductive Accepted : Type := by_declare | by_chaodi.

(** The mark a returning action leaves: one for each branch of
    [run_action] that appends to [declarations]. *)
Definition accepted_by (a : Action) : list Accepted :=
  match a with
  | DeclareAction _ => [by_declare]
  | ChaodiAction _ => [by_chaodi]
  | _ => []
  end.

(** The states of [reachable] under any action, each with the record of
    how its declarations were accepted, in the order of
    [declarations]. *)
Inductive bidding (rules : CardSetRules) (g0 : Game)
  : Game -> list Accepted -> Prop :=
| bid_new : bidding rules g0 g0 []
| bid_start : forall rnd g how g' first,
    bidding rules g0 g how ->
    start_game rnd g = Returned g' first ->
    bidding rules g0 g' how
| bid_action : forall rnd g how a p g' r,
    bidding rules g0 g how ->
    run_action rules rnd g a p = Returned g' r ->
    bidding rules g0 g' (how ++ accepted_by a).

(** The marks of a script of actions. *)
Definition script_marks (script : list (Action * AbsolutePosition))
  : list Accepted :=
  flat_map (fun ap => accepted_by (fst ap)) script.

(** Whether every action of a script returns. *)
Definition script_returns (rules : CardSetRules) (rnd : AbsolutePosition)
    (g : Game) (script : list (Action * AbsolutePosition)) : bool :=
  match run_script rules rnd g script with Some _ => true | None => false end.



(** * Properties *)

(** ** Seats and cards *)

Lemma pos_eqb_eq : forall a b, pos_eqb a b = true <-> a = b.
Proof. intros [] []; simpl; split; congruence. Qed.

Lemma pos_eqb_refl : forall a, pos_eqb a a = true.
Proof. intros []; reflexivity. Qed.

Lemma pos_eqb_neq : forall a b, pos_eqb a b = false <-> a <> b.
Proof. intros [] []; simpl; split; congruence. Qed.

Lemma opt_pos_eqb_eq : forall a b, opt_pos_eqb a b = true <-> a = b.
Proof.
  intros [a|] [b|]; simpl; try (split; congruence).
  rewrite pos_eqb_eq; split; congruence.
Qed.

Lemma next_position_neq : forall p, next_position p <> p.
Proof. intros []; discriminate. Qed.

Lemma Card_eqb_eq : forall a b, Card_eqb a b = true <-> a = b.
Proof.
  intros [| |r s] [| |r' s']; simpl; try (split; congruence).
  destruct r, r'; simpl; try (split; congruence);
    destruct s, s'; simpl; split; congruence.
Qed.

Lemma Card_eqb_refl : forall a, Card_eqb a a = true.
Proof. intros a; apply Card_eqb_eq; reflexivity. Qed.

Lemma ORDERING_complete : forall c, In c ORDERING.
Proof. intros [| |[] []]; simpl; tauto. Qed.

Lemma ORDERING_NoDup : NoDup ORDERING.
Proof.
  unfold ORDERING.
  repeat (constructor; [simpl; intuition discriminate|]).
  constructor.
Qed.

(** ** Ranking *)

Lemma suit_eq_trump_iff : forall s d,
  suit_eq_trump s d = true <-> CardSuit.value s = TrumpSuit.value d.
Proof. intros s d; unfold suit_eq_trump; apply String.eqb_eq. Qed.

Lemma is_NT_iff : forall d,
  TrumpSuit.is_NT d = true <-> d = TrumpSuit.XJ \/ d = TrumpSuit.DJ.
Proof.
  intros []; cbv; split; intros H; try discriminate; auto;
    destruct H; discriminate.
Qed.

Lemma NUMERIC_RANK_range : forall r, (2 <= NUMERIC_RANK r <= 14)%Z.
Proof. intros []; simpl; lia. Qed.

(** C3.  The effective rank orders cards in tiers: the big joker is 18
    and the small joker 17; a card of the trump rank is 16 when its suit
    is the trump suit or the trump suit is one of the two no-trump
    markers, and 15 otherwise; a card below the trump rank has its
    natural rank plus one, a card above it its natural rank; with the
    trump rank in 2..14 these last two tiers stay within 3..14, below
    every trump-rank card and joker. *)
Theorem get_rank_tiers :
  forall (dominant_suit : TrumpSuit.t) (dominant_rank : Z),
    get_rank card_DJ dominant_suit dominant_rank = 18%Z
    /\ get_rank card_XJ dominant_suit dominant_rank = 17%Z
    /\ forall r s,
         (NUMERIC_RANK r = dominant_rank ->
          CardSuit.value (CardSuit_of s) = TrumpSuit.value dominant_suit
          \/ dominant_suit = TrumpSuit.XJ \/ dominant_suit = TrumpSuit.DJ ->
          get_rank (card r s) dominant_suit dominant_rank = 16%Z)
         /\ (NUMERIC_RANK r = dominant_rank ->
             CardSuit.value (CardSuit_of s) <> TrumpSuit.value dominant_suit ->
             dominant_suit <> TrumpSuit.XJ -> dominant_suit <> TrumpSuit.DJ ->
             get_rank (card r s) dominant_suit dominant_rank = 15%Z)
         /\ ((NUMERIC_RANK r < dominant_rank)%Z ->
             get_rank (card r s) dominant_suit dominant_rank
             = (NUMERIC_RANK r + 1)%Z)
         /\ ((NUMERIC_RANK r > dominant_rank)%Z ->
             get_rank (card r s) dominant_suit dominant_rank = NUMERIC_RANK r)
         /\ ((2 <= dominant_rank <= 14)%Z ->
             NUMERIC_RANK r <> dominant_rank ->
             (3 <= get_rank (card r s) dominant_suit dominant_rank <= 14)%Z).
Proof.
  intros ds dr. split; [reflexivity|]. split; [reflexivity|].
  intros r s. unfold get_rank.
  pose proof (NUMERIC_RANK_range r) as Hr.
  destruct (Z.eqb_spec (NUMERIC_RANK r) dr) as [He|Hne].
  - repeat split; intros; try lia.
    + assert (Hb : suit_eq_trump (CardSuit_of s) ds || TrumpSuit.is_NT ds = true).
      { apply orb_true_iff. destruct H0 as [H0|H0].
        - left. apply suit_eq_trump_iff; exact H0.
        - right. apply is_NT_iff; exact H0. }
      rewrite Hb. reflexivity.
    + assert (Hb : suit_eq_trump (CardSuit_of s) ds || TrumpSuit.is_NT ds = false).
      { apply orb_false_iff. split.
        - destruct (suit_eq_trump (CardSuit_of s) ds) eqn:E; [|reflexivity].
          apply suit_eq_trump_iff in E. contradiction.
        - destruct (TrumpSuit.is_NT ds) eqn:E; [|reflexivity].
          apply is_NT_iff in E. destruct E; contradiction. }
      rewrite Hb. reflexivity.
  - simpl. destruct (Z.ltb_spec (NUMERIC_RANK r) dr); repeat split; intros; lia.
Qed.

(** The tiers of C3 on four cards: with hearts trump at rank 2 the two of
    hearts is 16 and the two of spades 15; at rank 7 a five is 6 and a
    king stays 13. *)
Lemma get_rank_tiers_witness :
  get_rank (card r2 sym_heart) TrumpSuit.HEART 2 = 16%Z
  /\ get_rank (card r2 sym_spade) TrumpSuit.HEART 2 = 15%Z
  /\ get_rank (card r5 sym_club) TrumpSuit.SPADE 7 = 6%Z
  /\ get_rank (card rK sym_club) TrumpSuit.SPADE 7 = 13%Z.
Proof.
  destruct (get_rank_tiers TrumpSuit.HEART 2) as (_ & _ & Hh).
  destruct (get_rank_tiers TrumpSuit.SPADE 7) as (_ & _ & Hs).
  split; [|split; [|split]].
  - apply (proj1 (Hh r2 sym_heart)); [reflexivity | left; reflexivity].
  - apply (proj1 (proj2 (Hh r2 sym_spade)));
      [reflexivity | simpl; discriminate | discriminate | discriminate].
  - apply (proj1 (proj2 (proj2 (Hs r5 sym_club)))). simpl; lia.
  - apply (proj1 (proj2 (proj2 (proj2 (Hs rK sym_club))))). simpl; lia.
Defined.


(** ** Record fields through setters *)

Ltac fields :=
  cbn [hands public_cards unplayed_cards card_list deck kitty
       round_history stage kitty_stage_completed kitty_owner
       dominant_rank declarations current_declaration_turn
       initial_declaration_position is_initial_game dealer_position
       opponent_points defender_points game_ended kitty_multiplier
       points_per_round final_opponent_reward final_defender_reward
       enable_chaodi current_chaodi_turn initial_chaodi_position
       chaodi_times enable_combos draw_order is_warmup_game
       oracle_value consecutive_moves combo_penalty combo_alternation
       set_hands set_public_cards set_unplayed_cards set_deck
       set_kitty set_round_history set_stage set_kitty_owner
       set_declarations set_current_declaration_turn
       set_initial_declaration_position set_dealer_position
       set_opponent_points set_defender_points set_game_ended
       set_points_per_round set_final_opponent_reward
       set_final_defender_reward set_current_chaodi_turn
       set_initial_chaodi_position set_chaodi_times set_draw_order
       set_consecutive_moves] in *.

(** Split on the first test or pattern match a hypothesis is stuck on. *)
Ltac split_match H :=
  match type of H with
  | context [match ?x with _ => _ end] => destruct x eqn:?
  end.

Ltac returned H :=
  repeat split_match H; try discriminate H;
  inversion H; subst; clear H.

(** ** Sizes of card sets *)


Lemma occurrences_ORDERING : forall c, occurrences c ORDERING = 1.
Proof. intros [| |[] []]; reflexivity. Qed.

Lemma sum_add_card : forall l h c n,
  list_sum (map (add_card h c n) l) = list_sum (map h l) + n * occurrences c l.
Proof.
  induction l as [|x l IH]; intros h c n; simpl.
  - unfold occurrences; simpl; lia.
  - rewrite IH. unfold add_card at 1, occurrences. simpl.
    destruct (Card_eqb x c); simpl; lia.
Qed.

Lemma size_add_card : forall h c n, size (add_card h c n) = size h + n.
Proof.
  intros h c n. unfold size. rewrite sum_add_card, occurrences_ORDERING. lia.
Qed.

Lemma sum_remove_card : forall l h c n,
  n <= h c ->
  list_sum (map (fun c' => if Card_eqb c' c then h c' - n else h c') l)
  + n * occurrences c l
  = list_sum (map h l).
Proof.
  induction l as [|x l IH]; intros h c n Hle; simpl.
  - unfold occurrences; simpl; lia.
  - specialize (IH h c n Hle). unfold occurrences in *. simpl.
    destruct (Card_eqb x c) eqn:E; simpl.
    + apply Card_eqb_eq in E; subst x. lia.
    + lia.
Qed.

Lemma size_remove_card : forall h c n h',
  remove_card h c n = Some h' -> size h' + n = size h.
Proof.
  intros h c n h' H. unfold remove_card in H.
  destruct (Nat.leb_spec n (h c)); [|discriminate].
  inversion H; subst; clear H. unfold size.
  pose proof (sum_remove_card ORDERING h c n H0) as E.
  rewrite occurrences_ORDERING in E. lia.
Qed.

Lemma size_add_cardset : forall a b, size (add_cardset a b) = size a + size b.
Proof.
  intros a b. unfold size, add_cardset.
  induction ORDERING as [|x l IH]; simpl; lia.
Qed.

Lemma size_remove_cardset : forall a b a',
  remove_cardset a b = Some a' -> size a' + size b = size a.
Proof.
  intros a b a' H. unfold remove_cardset in H.
  destruct (forallb (fun c => b c <=? a c) ORDERING) eqn:E; [|discriminate].
  inversion H; subst; clear H. unfold size.
  induction ORDERING as [|x l IH]; simpl in *; [reflexivity|].
  apply andb_true_iff in E. destruct E as [E1 E2].
  apply Nat.leb_le in E1. specialize (IH E2). lia.
Qed.

Lemma size_empty : size CardSet_empty = 0.
Proof. reflexivity. Qed.

Lemma size_deal_all : forall l h,
  size (fold_left (fun h c => add_card h c 1) l h) = size h + List.length l.
Proof.
  induction l as [|x l IH]; intros h; simpl; [lia|].
  rewrite IH, size_add_card. lia.
Qed.

Lemma sum_sizes_upd : forall d p v,
  sum_sizes (upd d p v) + size (d p) = sum_sizes d + size v.
Proof.
  intros d p v. unfold sum_sizes, upd.
  destruct p; cbn [list_sum fold_right map pos_eqb]; lia.
Qed.

Lemma rounds_total_app : forall rh p moves,
  rounds_total (rh ++ [(p, moves)]) = rounds_total rh + list_sum (map size moves).
Proof.
  intros. unfold rounds_total. rewrite map_app, list_sum_app. simpl. lia.
Qed.

Lemma rounds_total_upd_last_app : forall rh cs,
  rh <> [] ->
  rounds_total (upd_last (fun r => (fst r, snd r ++ [cs])) rh)
  = rounds_total rh + size cs.
Proof.
  unfold rounds_total.
  induction rh as [|r rh IH]; intros cs Hne; [congruence|].
  destruct rh as [|r' rh].
  - simpl. rewrite map_app, list_sum_app. simpl. lia.
  - change (upd_last (fun r0 => (fst r0, snd r0 ++ [cs])) (r :: r' :: rh))
      with (r :: upd_last (fun r0 => (fst r0, snd r0 ++ [cs])) (r' :: rh)).
    cbn [map list_sum fold_right] in *. rewrite IH by discriminate.
    cbn [map list_sum fold_right]. lia.
Qed.

Lemma last_opt_nonempty : forall A (l : list A) x, last_opt l = Some x -> l <> [].
Proof. intros A [|y l] x H; [discriminate|discriminate]. Qed.

(** ** Effect of a draw *)

Lemma draw_card_effect : forall g seat g',
  draw_card g seat = Some g' ->
  card_total g' = card_total g
  /\ declarations g' = declarations g
  /\ game_ended g' = game_ended g
  /\ stage g' = stage g.
Proof.
  intros g seat g' H. unfold draw_card in H.
  destruct (deck g) as [|c rest] eqn:D; [discriminate|].
  inversion H; subst; clear H.
  unfold card_total, hands_total, played_total. fields. rewrite D.
  pose proof (sum_sizes_upd (hands g) seat (add_card (hands g seat) c 1)) as E.
  rewrite size_add_card in E. simpl List.length. repeat split; lia.
Qed.

Lemma run_DontDeclareAction_effect : forall rnd g p g' r,
  run_DontDeclareAction rnd g p = Returned g' r ->
  card_total g' = card_total g
  /\ declarations g' = declarations g
  /\ game_ended g' = game_ended g.
Proof.
  intros rnd g p g' r H. unfold run_DontDeclareAction in H.
  destruct (opt_pos_eqb (current_declaration_turn g) (Some p)).
  - destruct (opt_pos_eqb (Some (next_position p)) (initial_declaration_position g)).
    + inversion H; subst; clear H.
      unfold card_total, hands_total, played_total. fields.
      set (d := match dealer_position g with Some d => d | None => rnd end).
      pose proof (sum_sizes_upd (hands g) d
        (fold_left (fun h c => add_card h c 1) (deck g) (hands g d))) as E.
      rewrite size_deal_all in E. simpl List.length. repeat split; lia.
    + destruct (current_declaration_turn g); [|discriminate].
      inversion H; subst; clear H. repeat split.
  - destruct (hands_total g <? 100).
    + destruct (size (hands g (next_position p)) <? 25); [|discriminate].
      destruct (draw_card g (next_position p)) eqn:D; [|discriminate].
      inversion H; subst; clear H.
      apply draw_card_effect in D. tauto.
    + inversion H; subst; clear H. repeat split.
Qed.

Ltac totals :=
  unfold card_total, hands_total, played_total in *; fields.

Ltac use_draw :=
  repeat match goal with
         | D : draw_card _ _ = Some _ |- _ =>
             apply draw_card_effect in D; destruct D as (? & ? & ? & ?)
         end.

Lemma run_DeclareAction_effect : forall g d p g' r,
  run_DeclareAction g d p = Returned g' r ->
  card_total g' = card_total g
  /\ declarations g' = declarations g ++ [d]
  /\ game_ended g' = game_ended g
  /\ level_increases g d = true.
Proof.
  intros g d p g' r H. unfold run_DeclareAction in H. cbv zeta in H.
  destruct (level_increases g d); [|discriminate]. simpl negb in H.
  destruct (match dealer_position g with Some _ => false | None => true end
            || is_initial_game g);
    fields; returned H; use_draw; totals; repeat split; try congruence; lia.
Qed.

Lemma run_PlaceKittyAction_effect : forall g c p g' r,
  run_PlaceKittyAction g c p = Returned g' r ->
  card_total g' = card_total g
  /\ declarations g' = declarations g
  /\ game_ended g' = game_ended g.
Proof.
  intros g c p g' r H. unfold run_PlaceKittyAction in H. cbv zeta in H.
  fields.
  destruct (size (kitty g) <? 8); [|discriminate]. simpl negb in H.
  destruct (remove_card (hands g p) c 1) as [after|] eqn:R; [|discriminate].
  apply size_remove_card in R.
  pose proof (sum_sizes_upd (hands g) p after) as E.
  pose proof (size_add_card (kitty g) c 1) as K.
  unfold open_first_round in H. fields.
  returned H; totals; try rewrite Heql; cbn [rounds_total map list_sum fold_right snd];
    repeat split; lia.
Qed.

Lemma run_PlaceAllKittyAction_effect : forall g cards p g' r,
  run_PlaceAllKittyAction g cards p = Returned g' r ->
  card_total g' = card_total g
  /\ declarations g' = declarations g
  /\ game_ended g' = game_ended g.
Proof.
  intros g cards p g' r H. unfold run_PlaceAllKittyAction in H. cbv zeta in H.
  fields.
  destruct (remove_cardset (hands g p) cards) as [after|] eqn:R; [|discriminate].
  apply size_remove_cardset in R.
  pose proof (sum_sizes_upd (hands g) p after) as E.
  pose proof (size_add_cardset (kitty g) cards) as K.
  unfold open_first_round in H. fields.
  returned H; totals; try rewrite Heql; cbn [rounds_total map list_sum fold_right snd];
    repeat split; lia.
Qed.

Lemma run_DontChaodiAction_effect : forall g p g' r,
  run_DontChaodiAction g p = Returned g' r ->
  card_total g' = card_total g
  /\ declarations g' = declarations g
  /\ game_ended g' = game_ended g.
Proof.
  intros g p g' r H. unfold run_DontChaodiAction in H.
  returned H; repeat split.
Qed.

Lemma run_ChaodiAction_effect : forall g d p g' r,
  run_ChaodiAction g d p = Returned g' r ->
  card_total g' = card_total g
  /\ declarations g' = declarations g ++ [d]
  /\ game_ended g' = game_ended g.
Proof.
  intros g d p g' r H. unfold run_ChaodiAction in H.
  destruct (remove_cardset _ _) as [emptied|] eqn:R in H; [|discriminate].
  destruct (get_card _ _) as [[shown count]|] in H; [|discriminate].
  apply size_remove_cardset in R. cbn [kitty set_hands set_declarations] in R.
  pose proof (sum_sizes_upd (hands g) p (add_cardset (hands g p) (kitty g))) as E.
  rewrite size_add_cardset in E.
  destruct (level d =? 3)%Z; inversion H; subst; clear H;
    unfold card_total, hands_total, played_total; fields;
    repeat split; lia.
Qed.

Lemma run_LeadAction_effect : forall g move p g' r,
  run_LeadAction g move p = Returned g' r ->
  card_total g' = card_total g + size (cardset move)
  /\ declarations g' = declarations g
  /\ game_ended g' = game_ended g.
Proof.
  intros g move p g' r H. unfold run_LeadAction in H.
  destruct (round_history g) as [|r0 rh] eqn:RH; [discriminate|].
  rewrite <- RH in H.
  assert (Hne : round_history g <> []) by (rewrite RH; discriminate).
  inversion H; subst; clear H. totals.
  rewrite rounds_total_upd_last_app by assumption.
  repeat split; lia.
Qed.

Lemma run_AppendLeadAction_frame : forall g move p g' r,
  run_AppendLeadAction g move p = Returned g' r ->
  declarations g' = declarations g /\ game_ended g' = game_ended g.
Proof.
  intros g move p g' r H. unfold run_AppendLeadAction in H.
  returned H; repeat split.
Qed.

Section EffectsWithRules.

Variable rules : CardSetRules.

Lemma run_EndLeadAction_frame : forall g move p g' r,
  run_EndLeadAction rules g move p = Returned g' r ->
  declarations g' = declarations g /\ game_ended g' = game_ended g.
Proof.
  intros g move p g' r H. unfold run_EndLeadAction in H. cbv zeta in H.
  destruct (is_legal_combo rules move _ (dominant_suit g) (dominant_rank g))
    as [is_legal penalty_move].
  destruct is_legal.
  - destruct (last_opt (round_history g)) as [[leader moves]|]; [|discriminate].
    destruct moves; fields; returned H; repeat split.
  - destruct (last_opt (round_history g)) as [[leader [|m moves]]|];
      try discriminate.
    fields; returned H; repeat split.
Qed.


Lemma settle_round_effect : forall g lead moves p g' r,
  settle_round rules g lead moves p = Returned g' r ->
  card_total g' = card_total g
  /\ declarations g' = declarations g
  /\ (game_ended g' = game_ended g
      \/ (game_ended g' = true
          /\ final_opponent_reward g' = Some (opponent_reward (opponent_points g'))
          /\ final_defender_reward g'
             = Some (- opponent_reward (opponent_points g'))%Z)).
Proof.
  intros g lead moves p g' r H. unfold settle_round in H. cbv zeta in H.
  destruct (dealer_position g) as [dealer|]; [|discriminate].
  destruct (index_of dealer _) as [dealer_index|]; [|discriminate].
  destruct (nth_error _ (round_winner rules moves (dominant_suit g) (dominant_rank g)))
    as [new_leading_position|]; [|discriminate].
  destruct ((round_winner rules moves (dominant_suit g) (dominant_rank g) =? dealer_index)
            || ((round_winner rules moves (dominant_suit g) (dominant_rank g) + 2) mod 4
                =? dealer_index)); fields.
  - destruct (size (hands g p) =? 0).
    + simpl negb in H. cbv iota in H. fields.
      inversion H; subst; clear H. totals. repeat split. right. repeat split.
    + inversion H; subst; clear H. totals. rewrite rounds_total_app.
      simpl. repeat split; try lia. left; reflexivity.
  - destruct (size (hands g p) =? 0).
    + simpl negb in H. cbv iota in H.
      destruct (nth_error moves _) as [winning|]; [|discriminate]. fields.
      inversion H; subst; clear H. totals. repeat split. right. repeat split.
    + inversion H; subst; clear H. totals. rewrite rounds_total_app.
      simpl. repeat split; try lia. left; reflexivity.
Qed.

Lemma run_FollowAction_effect : forall g cs p g' r,
  run_FollowAction rules g cs p = Returned g' r ->
  card_total g' = card_total g
  /\ declarations g' = declarations g
  /\ (game_ended g' = game_ended g
      \/ (game_ended g' = true
          /\ final_opponent_reward g' = Some (opponent_reward (opponent_points g'))
          /\ final_defender_reward g'
             = Some (- opponent_reward (opponent_points g'))%Z)).
Proof.
  intros g cs p g' r H. unfold run_FollowAction in H. cbv zeta in H.
  destruct (last_opt (round_history g)) as [[lead previous]|] eqn:L; [|discriminate].
  apply last_opt_nonempty in L.
  destruct (remove_cardset (hands g p) cs) as [h|] eqn:R; [|discriminate].
  apply size_remove_cardset in R.
  pose proof (sum_sizes_upd (hands g) p h) as E. fields.
  destruct (remove_cardset (unplayed_cards g) cs) as [u|]; [|discriminate].
  destruct (List.length (previous ++ [cs]) =? 4).
  - apply settle_round_effect in H. destruct H as (T & D & G).
    split; [|split; [exact D | exact G]].
    rewrite T. totals. rewrite rounds_total_upd_last_app by assumption. lia.
  - inversion H; subst; clear H. totals.
    rewrite rounds_total_upd_last_app by assumption.
    repeat split; try lia. left; reflexivity.
Qed.

(** Every returning action other than a declaration or a counter-bid
    leaves the list of declarations as it was. *)
Lemma run_action_declarations : forall rnd g a p g' r,
  run_action rules rnd g a p = Returned g' r ->
  match a with
  | DeclareAction d =>
      declarations g' = declarations g ++ [d] /\ level_increases g d = true
  | ChaodiAction d => declarations g' = declarations g ++ [d]
  | _ => declarations g' = declarations g
  end.
Proof.
  intros rnd g a p g' r H. destruct a; simpl in H.
  - apply run_DeclareAction_effect in H. tauto.
  - apply run_DontDeclareAction_effect in H. tauto.
  - apply run_PlaceKittyAction_effect in H. tauto.
  - apply run_PlaceAllKittyAction_effect in H. tauto.
  - apply run_DontChaodiAction_effect in H. tauto.
  - apply run_ChaodiAction_effect in H. tauto.
  - apply run_LeadAction_effect in H. tauto.
  - apply run_AppendLeadAction_frame in H. tauto.
  - apply run_EndLeadAction_frame in H. tauto.
  - apply run_FollowAction_effect in H. tauto.
Qed.


End EffectsWithRules.


(** ** Reachability of scripted games *)

Lemma start_game_effect : forall rnd g g' first,
  start_game rnd g = Returned g' first ->
  card_total g' = card_total g
  /\ declarations g' = declarations g
  /\ game_ended g' = game_ended g.
Proof.
  intros rnd g g' first H. unfold start_game in H.
  destruct (draw_card g _) as [g1|] eqn:D; [|discriminate].
  inversion H; subst; clear H. apply draw_card_effect in D. tauto.
Qed.

Lemma started_reachable : forall rules allowed rnd g0,
  reachable rules allowed g0 (state_of (start_game rnd g0)).
Proof.
  intros rules allowed rnd g0.
  destruct (start_game rnd g0) as [g' first|g'] eqn:S; simpl.
  - eapply reach_start; [apply reach_new | exact S].
  - unfold start_game in S. destruct (draw_card g0 _); [discriminate|].
    inversion S; subst. apply reach_new.
Qed.

Lemma run_script_reachable : forall rules (allowed : Game -> Action -> Prop) g0 rnd script g g',
  (forall a p s, In (a, p) script -> allowed s a) ->
  reachable rules allowed g0 g ->
  run_script rules rnd g script = Some g' ->
  reachable rules allowed g0 g'.
Proof.
  intros rules allowed g0 rnd script.
  induction script as [|[a p] rest IH]; intros g g' A R H; simpl in H.
  - inversion H; subst; exact R.
  - destruct (run_action rules rnd g a p) as [g1 r|g1] eqn:S; [|discriminate].
    apply (IH g1 g').
    + intros a' p' s I. apply (A a' p'). right; exact I.
    + eapply reach_action; [exact R | apply (A a p); left; reflexivity | exact S].
    + exact H.
Qed.

Lemma after_reachable : forall (allowed : Game -> Action -> Prop) g0 g script,
  (forall a p s, In (a, p) script -> allowed s a) ->
  reachable Reference.rules allowed g0 g ->
  reachable Reference.rules allowed g0 (Scenario.after g script).
Proof.
  intros allowed g0 g script A R. unfold Scenario.after.
  destruct (run_script Reference.rules NORTH g script) as [g'|] eqn:S; [|exact R].
  eapply run_script_reachable; eassumption.
Qed.


(** ** The last element of a list *)

Lemma last_opt_snoc : forall A (l : list A) x, last_opt (l ++ [x]) = Some x.
Proof.
  intros A l x. induction l as [|a l IH]; [reflexivity|].
  simpl. destruct (l ++ [x]) eqn:E; [destruct l; discriminate | exact IH].
Qed.

Lemma last_opt_None : forall A (l : list A), last_opt l = None -> l = [].
Proof.
  intros A l. induction l as [|a l IH]; [reflexivity|].
  simpl. destruct l; [discriminate|]. intros H. specialize (IH H). discriminate.
Qed.

Lemma upd_last_snoc : forall A (f : A -> A) l x,
  upd_last f (l ++ [x]) = l ++ [f x].
Proof.
  induction l as [|y l IH]; intros x; [reflexivity|].
  change ((y :: l) ++ [x]) with (y :: (l ++ [x])).
  destruct (l ++ [x]) as [|z t] eqn:E.
  - destruct l; discriminate.
  - change (upd_last f (y :: z :: t)) with (y :: upd_last f (z :: t)).
    rewrite <- E, IH. reflexivity.
Qed.

Lemma last_opt_upd_last : forall A (f : A -> A) l x,
  last_opt l = Some x -> last_opt (upd_last f l) = Some (f x).
Proof.
  induction l as [|y l IH]; intros x H; [discriminate|].
  destruct l as [|z t].
  - inversion H; subst. reflexivity.
  - change (upd_last f (y :: z :: t)) with (y :: upd_last f (z :: t)).
    change (last_opt (y :: z :: t)) with (last_opt (z :: t)) in H.
    specialize (IH x H).
    destruct (upd_last f (z :: t)) as [|u v] eqn:E; [discriminate IH|].
    exact IH.
Qed.

(** ** C2: the card total *)















Lemma LETTER_RANK_None_iff : forall n,
  LETTER_RANK n = None <-> (n < 2 \/ 14 < n)%Z.
Proof.
  intros n. split.
  - intros H.
    destruct (Z_lt_dec n 2) as [|G]; [left; assumption|].
    destruct (Z_lt_dec 14 n) as [|G']; [right; assumption|].
    exfalso.
    assert (E : (n = 2 \/ n = 3 \/ n = 4 \/ n = 5 \/ n = 6 \/ n = 7 \/ n = 8
                \/ n = 9 \/ n = 10 \/ n = 11 \/ n = 12 \/ n = 13 \/ n = 14)%Z)
      by lia.
    repeat (destruct E as [E|E]; [subst; discriminate|]).
    subst; discriminate.
  - intros H.
    destruct n as [|q|q]; try reflexivity.
    repeat (destruct q as [q|q|]; try reflexivity; try lia).
Qed.

Lemma forallb_le_refl : forall (k : CardSet) l,
  forallb (fun c => k c <=? k c) l = true.
Proof.
  intros k l. apply forallb_forall. intros c _. apply Nat.leb_refl.
Qed.

(** ** C6: the sequence of declarations *)

Lemma Sorted_snoc : forall (R : Declaration -> Declaration -> Prop) l d,
  Sorted R l ->
  (forall s, last_opt l = Some s -> R s d) ->
  Sorted R (l ++ [d]).
Proof.
  intros R l d S. induction S as [|a l S IH H]; intros L; simpl.
  - repeat constructor.
  - constructor.
    + apply IH. intros s E. apply L. destruct l; [discriminate|exact E].
    + destruct l as [|b l]; simpl.
      * constructor. apply L. reflexivity.
      * constructor. inversion H; assumption.
Qed.

Lemma level_increases_iff : forall g d,
  level_increases g d = true <->
  forall s, last_opt (declarations g) = Some s -> (level s < level d)%Z.
Proof.
  intros g d. unfold level_increases.
  destruct (last_opt (declarations g)) as [s|].
  - rewrite Z.ltb_lt. split.
    + intros H s' E. inversion E; subst; exact H.
    + intros H. apply H. reflexivity.
  - split; [intros _ s E; discriminate | reflexivity].
Qed.

(** C6, counterexample.  North declares the pair of diamonds (level 1)
    during the draw; after the kitty is set West counter-bids with the
    pair of clubs (level 1), which is accepted: the two accepted
    declarations have the same level and different suits. *)
Lemma counter_bid_keeps_level :
  reachable Reference.rules any_action Scenario.pairs_game Scenario.counter_bid_made
  /\ declarations Scenario.counter_bid_made
     = [Scenario.diamonds_pair; Scenario.clubs_pair]
  /\ ~ Sorted supersedes_spec (declarations Scenario.counter_bid_made).
Proof.
  split; [|split].
  - unfold Scenario.counter_bid_made, Scenario.counter_bid_time.
    repeat (apply after_reachable; [intros; exact I|]).
    apply started_reachable.
  - vm_compute. reflexivity.
  - assert (E : declarations Scenario.counter_bid_made
                = [Scenario.diamonds_pair; Scenario.clubs_pair])
      by (vm_compute; reflexivity).
    rewrite E. intros S. inversion S as [|a l S' H]; subst.
    inversion H as [|b l' Hr]; subst.
    destruct Hr as [Hr|(_ & _ & Hr)]; [vm_compute in Hr|]; discriminate.
Qed.

Lemma last_opt_nth_error : forall A (l : list A) i s,
  nth_error l i = Some s -> S i = List.length l -> last_opt l = Some s.
Proof.
  intros A l. induction l as [|x l IH]; intros i s N L; [discriminate|].
  destruct i as [|i].
  - destruct l; [exact N|discriminate].
  - destruct l as [|y l]; [discriminate|].
    change (last_opt (x :: y :: l)) with (last_opt (y :: l)).
    apply (IH i); [exact N|]. simpl in L. simpl. lia.
Qed.

Lemma started_bidding : forall rules rnd g0,
  bidding rules g0 (state_of (start_game rnd g0)) [].
Proof.
  intros rules rnd g0.
  destruct (start_game rnd g0) as [g' first|g'] eqn:S; simpl.
  - eapply bid_start; [apply bid_new | exact S].
  - unfold start_game in S. destruct (draw_card g0 _); [discriminate|].
    inversion S; subst. apply bid_new.
Qed.

Lemma run_script_bidding : forall rules g0 rnd script g how g',
  bidding rules g0 g how ->
  run_script rules rnd g script = Some g' ->
  bidding rules g0 g' (how ++ script_marks script).
Proof.
  intros rules g0 rnd script.
  induction script as [|[a p] rest IH]; intros g how g' B S; simpl in S.
  - inversion S; subst. unfold script_marks. simpl. rewrite app_nil_r. exact B.
  - destruct (run_action rules rnd g a p) as [g1 r|g1] eqn:E; [|discriminate].
    unfold script_marks. cbn [flat_map fst]. rewrite app_assoc.
    apply (IH g1); [|exact S].
    eapply bid_action; eassumption.
Qed.

Lemma after_bidding : forall g0 g how script,
  script_returns Reference.rules NORTH g script = true ->
  bidding Reference.rules g0 g how ->
  bidding Reference.rules g0 (Scenario.after g script) (how ++ script_marks script).
Proof.
  intros g0 g how script T B. unfold Scenario.after. unfold script_returns in T.
  destruct (run_script Reference.rules NORTH g script) as [g'|] eqn:S; [|discriminate].
  eapply run_script_bidding; eassumption.
Qed.

Lemma reachable_bidding : forall rules g0 g,
  reachable rules any_action g0 g -> exists how, bidding rules g0 g how.
Proof.
  intros rules g0 g R.
  induction R as [|rnd g g' first R [how IH] S|rnd g a p g' r R [how IH] _ S].
  - exists []. apply bid_new.
  - exists how. eapply bid_start; eassumption.
  - exists (how ++ accepted_by a). eapply bid_action; eassumption.
Qed.

Lemma bidding_levels : forall rules g0 g how,
  declarations g0 = [] ->
  bidding rules g0 g how ->
  List.length how = List.length (declarations g)
  /\ (forall i s d,
         nth_error (declarations g) i = Some s ->
         nth_error (declarations g) (S i) = Some d ->
         nth_error how (S i) = Some by_declare ->
         (level s < level d)%Z)
  /\ (Forall (eq by_declare) how -> Sorted level_lt (declarations g)).
Proof.
  intros rules g0 g how E B.
  induction B as [|rnd g how g' first B IH Run|rnd g how a p g' r B IH Run].
  - rewrite E. split; [reflexivity|]. split.
    + intros i s d N. destruct i; discriminate.
    + intros _. constructor.
  - apply start_game_effect in Run. destruct Run as (_ & D & _). rewrite D. exact IH.
  - destruct IH as (Len & Adj & Srt).
    pose proof (run_action_declarations rules rnd g a p g' r Run) as D.
    assert (Old : forall (x : Declaration) (m : Accepted) i s d,
               nth_error (declarations g ++ [x]) i = Some s ->
               nth_error (declarations g ++ [x]) (S i) = Some d ->
               nth_error (how ++ [m]) (S i) = Some by_declare ->
               S i < List.length (declarations g) ->
               (level s < level d)%Z).
    { intros x m i s d N1 N2 N3 Lt.
      rewrite nth_error_app1 in N1 by lia.
      rewrite nth_error_app1 in N2 by lia.
      rewrite nth_error_app1 in N3 by lia.
      exact (Adj i s d N1 N2 N3). }
    assert (Edge : forall (x : Declaration) i d,
               nth_error (declarations g ++ [x]) (S i) = Some d ->
               ~ S i < List.length (declarations g) ->
               S i = List.length (declarations g) /\ d = x).
    { intros x i d N2 Ge.
      assert (Lt : S i < List.length (declarations g ++ [x]))
        by (apply nth_error_Some; congruence).
      rewrite length_app in Lt. simpl in Lt.
      assert (Eq : S i = List.length (declarations g)) by lia.
      split; [exact Eq|].
      rewrite nth_error_app2 in N2 by lia.
      rewrite Eq, Nat.sub_diag in N2. simpl in N2. congruence. }
    destruct a as [d| | | | |d| | | |]; cbn [accepted_by];
      try (rewrite app_nil_r, D; repeat split; assumption).
    + destruct D as [D L]. rewrite D. rewrite !length_app, Len.
      split; [reflexivity|]. split.
      * intros i s d' N1 N2 N3.
        destruct (lt_dec (S i) (List.length (declarations g))) as [Lt|Ge].
        -- exact (Old d by_declare i s d' N1 N2 N3 Lt).
        -- destruct (Edge d i d' N2 Ge) as [Eq Ed]. subst d'.
           rewrite nth_error_app1 in N1 by lia.
           apply level_increases_iff with (g := g); [exact L|].
           exact (last_opt_nth_error _ _ i s N1 Eq).
      * intros F. apply Forall_app in F. destruct F as [F _].
        apply Sorted_snoc; [exact (Srt F)|].
        apply level_increases_iff. exact L.
    + rewrite D. rewrite !length_app, Len.
      split; [reflexivity|]. split.
      * intros i s d' N1 N2 N3.
        destruct (lt_dec (S i) (List.length (declarations g))) as [Lt|Ge].
        -- exact (Old d by_chaodi i s d' N1 N2 N3 Lt).
        -- destruct (Edge d i d' N2 Ge) as [Eq _].
           rewrite nth_error_app2 in N3 by lia.
           rewrite Eq, Len, Nat.sub_diag in N3. discriminate N3.
      * intros F. apply Forall_app in F. destruct F as [_ F].
        inversion F as [|m l M _]; subst. discriminate M.
Qed.

Lemma run_ChaodiAction_returns : forall g d p,
  (2 <= dominant_rank g <= 14)%Z ->
  exists g' r, run_ChaodiAction g d p = Returned g' r.
Proof.
  intros g d p B. unfold run_ChaodiAction. fields.
  unfold remove_cardset. rewrite forallb_le_refl. fields.
  destruct (get_card d (dominant_rank g)) as [[shown count]|] eqn:G.
  - destruct (level d =? 3)%Z; eexists; eexists; reflexivity.
  - exfalso. unfold get_card in G.
    destruct (LETTER_RANK (dominant_rank g)) eqn:R; [discriminate|].
    apply LETTER_RANK_None_iff in R. lia.
Qed.

(** C6, amended.  Whatever the run, counter-bids included: a declaration
    accepted by a declare action has a bid level strictly above the
    declaration that precedes it in [declarations], and when every
    declaration was accepted by a declare action the levels are strictly
    increasing along the list.  A declare action is accepted only with a
    level strictly above the standing declaration: one of the same or a
    lower level raises, so a bid is never re-affirmed.  A counter-bid is
    accepted and appended with no check of its level, whenever the trump
    rank is one of 2..14. *)
Theorem declare_levels_increase :
  forall rules,
    (forall g0 g how,
        declarations g0 = [] ->
        bidding rules g0 g how ->
        List.length how = List.length (declarations g)
        /\ (forall i s d,
               nth_error (declarations g) i = Some s ->
               nth_error (declarations g) (S i) = Some d ->
               nth_error how (S i) = Some by_declare ->
               (level s < level d)%Z)
        /\ (Forall (eq by_declare) how -> Sorted level_lt (declarations g)))
    /\ (forall g0 g,
           reachable rules any_action g0 g -> exists how, bidding rules g0 g how)
    /\ (forall g0 g,
           declarations g0 = [] ->
           reachable rules not_chaodi g0 g ->
           Sorted level_lt (declarations g))
    /\ (forall rnd g d p g' r,
           run_action rules rnd g (DeclareAction d) p = Returned g' r ->
           declarations g' = declarations g ++ [d]
           /\ forall s, last_opt (declarations g) = Some s ->
                        (level s < level d)%Z)
    /\ (forall rnd g d p s,
           last_opt (declarations g) = Some s ->
           (level d <= level s)%Z ->
           outcome_of (run_action rules rnd g (DeclareAction d) p) = None)
    /\ (forall rnd g d p,
           (2 <= dominant_rank g <= 14)%Z ->
           exists g' r,
             run_action rules rnd g (ChaodiAction d) p = Returned g' r
             /\ declarations g' = declarations g ++ [d]).
Proof.
  intros rules. repeat match goal with |- _ /\ _ => split end.
  - intros g0 g how E B. exact (bidding_levels rules g0 g how E B).
  - intros g0 g R. exact (reachable_bidding rules g0 g R).
  - intros g0 g E R.
    induction R as [|rnd g g' first R IH S|rnd g a p g' r R IH C S].
    + rewrite E. constructor.
    + apply start_game_effect in S. destruct S as (_ & D & _). rewrite D. exact IH.
    + pose proof (run_action_declarations rules rnd g a p g' r S) as D.
      destruct a; simpl in C; try contradiction; try (rewrite D; exact IH).
      destruct D as [D L]. rewrite D. apply Sorted_snoc; [exact IH|].
      apply level_increases_iff. exact L.
  - intros rnd g d p g' r S.
    pose proof (run_action_declarations rules rnd g (DeclareAction d) p g' r S) as [D L].
    split; [exact D|]. apply level_increases_iff. exact L.
  - intros rnd g d p s La Le.
    destruct (run_action rules rnd g (DeclareAction d) p) as [g' r|g'] eqn:S;
      [|reflexivity].
    pose proof (run_action_declarations rules rnd g (DeclareAction d) p g' r S) as [_ L].
    pose proof (proj1 (level_increases_iff g d) L s La). lia.
  - intros rnd g d p B.
    destruct (run_ChaodiAction_returns g d p B) as (g' & r & S).
    exists g', r. split; [exact S|].
    exact (run_action_declarations rules rnd g (ChaodiAction d) p g' r S).
Qed.

(** C6 as amended on a run with three accepted declarations: North
    declares diamonds with one card (level 0) and raises it with the
    pair (level 1), and after the kitty West counter-bids with the pair
    of clubs (level 1).  The raise is above the first bid; the
    counter-bid is not above the raise. *)
Lemma declare_levels_increase_witness :
  declarations Scenario.raised_then_countered
  = [Scenario.first_diamond; Scenario.diamonds_pair; Scenario.clubs_pair]
  /\ (level Scenario.first_diamond < level Scenario.diamonds_pair)%Z
  /\ Sorted level_lt [Scenario.first_diamond; Scenario.diamonds_pair].
Proof.
  assert (D : declarations Scenario.raised_then_countered
              = [Scenario.first_diamond; Scenario.diamonds_pair; Scenario.clubs_pair])
    by (vm_compute; reflexivity).
  assert (D2 : declarations Scenario.raised_bid
               = [Scenario.first_diamond; Scenario.diamonds_pair])
    by (vm_compute; reflexivity).
  assert (T1 : script_returns Reference.rules NORTH
                 (state_of (start_game NORTH Scenario.pairs_game))
                 Scenario.two_bids = true)
    by (vm_compute; reflexivity).
  assert (T2 : script_returns Reference.rules NORTH Scenario.raised_bid
                 Scenario.counter_after_raise = true)
    by (vm_compute; reflexivity).
  assert (B1 : bidding Reference.rules Scenario.pairs_game Scenario.raised_bid
                 [by_declare; by_declare]).
  { exact (after_bidding Scenario.pairs_game _ [] Scenario.two_bids T1
             (started_bidding Reference.rules NORTH Scenario.pairs_game)). }
  assert (B2 : bidding Reference.rules Scenario.pairs_game
                 Scenario.raised_then_countered
                 [by_declare; by_declare; by_chaodi]).
  { exact (after_bidding Scenario.pairs_game _ _ Scenario.counter_after_raise T2 B1). }
  split; [exact D|]. split.
  - destruct (proj1 (declare_levels_increase Reference.rules)
                Scenario.pairs_game Scenario.raised_then_countered
                [by_declare; by_declare; by_chaodi] eq_refl B2) as (_ & Adj & _).
    apply (Adj 0 Scenario.first_diamond Scenario.diamonds_pair);
      try (rewrite D); reflexivity.
  - rewrite <- D2.
    apply (proj1 (declare_levels_increase Reference.rules)
             Scenario.pairs_game Scenario.raised_bid
             [by_declare; by_declare] eq_refl B1).
    repeat constructor.
Defined.


(** * Further properties of [env/utils.py] *)

(** ** The rank tables *)

Lemma LETTER_RANK_inv : forall n r, LETTER_RANK n = Some r -> NUMERIC_RANK r = n.
Proof.
  intros n r H.
  destruct n as [|q|q]; try discriminate H.
  repeat (destruct q as [q|q|]; try discriminate H;
          try (inversion H; reflexivity)).
Qed.

(** [NUMERIC_RANK] inverts [LETTER_RANK]: every rank symbol is the symbol
    of its number, a number that has a symbol is the number of that
    symbol, and exactly the numbers outside 2..14 have none (the lookup
    raises [KeyError]). *)
Theorem rank_tables_round_trip :
  (forall r, LETTER_RANK (NUMERIC_RANK r) = Some r)
  /\ (forall n r, LETTER_RANK n = Some r -> NUMERIC_RANK r = n)
  /\ (forall n, LETTER_RANK n = None <-> (n < 2 \/ 14 < n)%Z).
Proof.
  split; [|split].
  - intros []; reflexivity.
  - exact LETTER_RANK_inv.
  - exact LETTER_RANK_None_iff.
Qed.

(** ** Seats *)

(** The seats form one cycle of length four in the order N, W, S, E, the
    order of the seat index: [next_position] goes from North to West,
    from West to South, from South to East and from East to North, one
    step up in the index modulo 4; [last_position] is its inverse, one
    step down; no seat is its own neighbour or its own opposite, and
    three steps forward are one step back. *)
Theorem seat_rotation :
  (next_position NORTH = WEST /\ next_position WEST = SOUTH
   /\ next_position SOUTH = EAST /\ next_position EAST = NORTH)
  /\ forall p,
       last_position (next_position p) = p
       /\ next_position (last_position p) = p
       /\ next_position (next_position (next_position (next_position p))) = p
       /\ next_position p <> p
       /\ next_position (next_position p) <> p
       /\ next_position (next_position (next_position p)) = last_position p
       /\ seat_index (next_position p) = ((seat_index p + 1) mod 4)%Z
       /\ seat_index (last_position p) = ((seat_index p - 1) mod 4)%Z.
Proof.
  split; [repeat split|].
  intros []; repeat split; discriminate.
Qed.

(** [relative_to] depends only on the rotation distance from [self] to
    the other seat: zero steps is SELF, one step LEFT, two OPPOSITE,
    three RIGHT; it is SELF only for the seat itself. *)
Theorem relative_to_rotation :
  forall p q,
    relative_to p p = SELF
    /\ relative_to p (next_position p) = LEFT
    /\ relative_to p (next_position (next_position p)) = OPPOSITE
    /\ relative_to p (last_position p) = RIGHT
    /\ (relative_to p q = SELF <-> p = q)
    /\ relative_to (next_position p) (next_position q) = relative_to p q.
Proof.
  intros [] []; repeat split; try reflexivity; try discriminate;
    intros H; discriminate H.
Qed.

(** ** Effective suit and rank *)

(** [get_suit] answers TRUMP exactly for the jokers, the cards of the
    dominant rank and the cards of the dominant suit, and the natural
    suit of the card otherwise. *)
Theorem get_suit_characterisation :
  forall c dominant_suit dominant_rank,
    (get_suit c dominant_suit dominant_rank = CardSuit.TRUMP <->
     c = card_XJ \/ c = card_DJ
     \/ exists r s, c = card r s
                    /\ (NUMERIC_RANK r = dominant_rank
                        \/ CardSuit.value (CardSuit_of s)
                           = TrumpSuit.value dominant_suit))
    /\ (forall r s,
           c = card r s ->
           get_suit c dominant_suit dominant_rank <> CardSuit.TRUMP ->
           get_suit c dominant_suit dominant_rank = CardSuit_of s).
Proof.
  intros c ds dr. split.
  - destruct c as [| |r s]; simpl.
    + split; auto.
    + split; auto.
    + destruct (Z.eqb_spec (NUMERIC_RANK r) dr) as [E|N]; simpl.
      * split; [|reflexivity]. intros _. right; right. exists r, s. auto.
      * destruct (suit_eq_trump (CardSuit_of s) ds) eqn:S.
        -- split; [|reflexivity]. intros _. right; right. exists r, s.
           split; [reflexivity|]. right. apply suit_eq_trump_iff. exact S.
        -- split.
           ++ destruct s; discriminate.
           ++ intros [H|[H|(r' & s' & H & [H'|H'])]]; try discriminate;
                inversion H; subst.
              ** contradiction.
              ** apply suit_eq_trump_iff in H'. congruence.
  - intros r s E H. subst c. simpl in *.
    destruct ((NUMERIC_RANK r =? dr)%Z || suit_eq_trump (CardSuit_of s) ds);
      [contradiction H; reflexivity | reflexivity].
Qed.

(** With the dominant rank in 2..14, a card ranked 15 or more by
    [get_rank] is a trump by [get_suit]: the top tiers hold only jokers
    and dominant-rank cards. *)
Theorem high_rank_is_trump :
  forall c dominant_suit dominant_rank,
    (2 <= dominant_rank <= 14)%Z ->
    (15 <= get_rank c dominant_suit dominant_rank)%Z ->
    get_suit c dominant_suit dominant_rank = CardSuit.TRUMP.
Proof.
  intros c ds dr R H. destruct c as [| |r s]; [reflexivity|reflexivity|].
  pose proof (NUMERIC_RANK_range r) as Hr.
  unfold get_rank in H. unfold get_suit.
  destruct (Z.eqb_spec (NUMERIC_RANK r) dr) as [E|N]; [reflexivity|].
  simpl in H. destruct (Z.ltb_spec (NUMERIC_RANK r) dr); lia.
Qed.

Lemma high_rank_is_trump_witness :
  get_suit (card r2 sym_spade) TrumpSuit.HEART 2 = CardSuit.TRUMP.
Proof.
  apply high_rank_is_trump; [lia | vm_compute; discriminate].
Defined.

(** Within one natural suit [get_rank] never gives two cards the same
    rank, and with the dominant rank in 2..14 the twelve cards that are
    not of the dominant rank fill the ranks 3..14 without a gap: the
    shift by one closes the hole the dominant rank leaves. *)
Theorem get_rank_contiguous :
  forall dominant_suit dominant_rank s,
    (forall r r',
        get_rank (card r s) dominant_suit dominant_rank
        = get_rank (card r' s) dominant_suit dominant_rank -> r = r')
    /\ ((2 <= dominant_rank <= 14)%Z ->
        forall v, (3 <= v <= 14)%Z ->
                  exists r, NUMERIC_RANK r <> dominant_rank
                            /\ get_rank (card r s) dominant_suit dominant_rank = v).
Proof.
  intros ds dr s. split.
  - intros r r' H. unfold get_rank in H.
    assert (I : forall a b, NUMERIC_RANK a = NUMERIC_RANK b -> a = b)
      by (intros [] []; simpl; intros; congruence || lia).
    pose proof (NUMERIC_RANK_range r) as Hr.
    pose proof (NUMERIC_RANK_range r') as Hr'.
    destruct (Z.eqb_spec (NUMERIC_RANK r) dr) as [E|N];
      destruct (Z.eqb_spec (NUMERIC_RANK r') dr) as [E'|N'].
    + apply I. congruence.
    + exfalso. simpl in H.
      destruct (suit_eq_trump (CardSuit_of s) ds || TrumpSuit.is_NT ds);
        destruct (Z.ltb_spec (NUMERIC_RANK r') dr); lia.
    + exfalso. simpl in H.
      destruct (suit_eq_trump (CardSuit_of s) ds || TrumpSuit.is_NT ds);
        destruct (Z.ltb_spec (NUMERIC_RANK r) dr); lia.
    + simpl in H. apply I.
      destruct (Z.ltb_spec (NUMERIC_RANK r) dr);
        destruct (Z.ltb_spec (NUMERIC_RANK r') dr); lia.
  - intros R v V.
    destruct (Z_le_dec v dr) as [L|G].
    + destruct (LETTER_RANK (v - 1)) as [r|] eqn:E.
      * apply LETTER_RANK_inv in E.
        exists r. split; [lia|]. unfold get_rank.
        destruct (Z.eqb_spec (NUMERIC_RANK r) dr); [lia|]. simpl.
        destruct (Z.ltb_spec (NUMERIC_RANK r) dr); lia.
      * apply LETTER_RANK_None_iff in E. lia.
    + destruct (LETTER_RANK v) as [r|] eqn:E.
      * apply LETTER_RANK_inv in E.
        exists r. split; [lia|]. unfold get_rank.
        destruct (Z.eqb_spec (NUMERIC_RANK r) dr); [lia|]. simpl.
        destruct (Z.ltb_spec (NUMERIC_RANK r) dr); lia.
      * apply LETTER_RANK_None_iff in E. lia.
Qed.

Lemma get_rank_contiguous_witness :
  exists r, NUMERIC_RANK r <> 7%Z
            /\ get_rank (card r sym_club) TrumpSuit.SPADE 7 = 7%Z.
Proof.
  apply (proj2 (get_rank_contiguous TrumpSuit.SPADE 7 sym_club)); lia.
Defined.

(** ** Declarations *)

(** [Declaration.get_card] raises exactly when the dominant rank is
    outside 2..14 (also for a joker declaration); otherwise it shows one
    card at level 0 and two at any other level, and the card shown is a
    trump whatever the trump suit is, ranked 15 or more. *)
Theorem get_card_shows_a_trump :
  forall d dominant_rank,
    (get_card d dominant_rank = None <-> (dominant_rank < 2 \/ 14 < dominant_rank)%Z)
    /\ (forall c n,
           get_card d dominant_rank = Some (c, n) ->
           (n = if (level d =? 0)%Z then 1 else 2)
           /\ forall dominant_suit,
               get_suit c dominant_suit dominant_rank = CardSuit.TRUMP
               /\ (15 <= get_rank c dominant_suit dominant_rank)%Z).
Proof.
  intros d dr. split.
  - unfold get_card. destruct (LETTER_RANK dr) as [r|] eqn:E.
    + split; [discriminate|]. intros H.
      apply LETTER_RANK_None_iff in H. congruence.
    + split; [|reflexivity]. intros _.
      apply LETTER_RANK_None_iff. exact E.
  - intros c n H. unfold get_card in H.
    destruct (LETTER_RANK dr) as [r|] eqn:E; [|discriminate].
    apply LETTER_RANK_inv in E.
    inversion H; subst; clear H. split; [reflexivity|].
    intros ds.
    destruct (suit d); simpl; rewrite ?Z.eqb_refl; simpl;
      try (split; [reflexivity|]);
      try (destruct (_ || _); lia); lia.
Qed.

Lemma get_card_shows_a_trump_witness :
  get_suit (card r2 sym_heart) TrumpSuit.SPADE 2 = CardSuit.TRUMP
  /\ (15 <= get_rank (card r2 sym_heart) TrumpSuit.SPADE 2)%Z.
Proof.
  apply (proj2 (proj2 (get_card_shows_a_trump Scenario.hearts_north 2)
                  (card r2 sym_heart) 1 eq_refl) TrumpSuit.SPADE).
Defined.

(** [chaodi_level] is 0 for every single-card declaration (level below
    1) and otherwise orders the suits diamond, club, heart, spade, small
    joker, big joker as 1, 2, 3, 4, 5, 6, whatever the level: two pair
    declarations have the same chaodi level only when they have the same
    suit, a single-card declaration never outranks anything, and nothing
    outranks a pair of big jokers. *)
Theorem chaodi_level_order :
  forall s l s' l',
    (0 <= chaodi_level s l <= 6)%Z
    /\ ((l < 1)%Z -> chaodi_level s l = 0%Z)
    /\ ((1 <= l)%Z -> (1 <= l')%Z ->
        chaodi_level s l = chaodi_level s' l' -> s = s')
    /\ ((l < 1)%Z -> ~ (chaodi_level s l > chaodi_level s' l')%Z)
    /\ ((1 <= l)%Z -> (chaodi_level s' l' <= chaodi_level TrumpSuit.DJ l)%Z)
    /\ ((1 <= l)%Z ->
        chaodi_level TrumpSuit.DIAMOND l = 1%Z
        /\ chaodi_level TrumpSuit.CLUB l = 2%Z
        /\ chaodi_level TrumpSuit.HEART l = 3%Z
        /\ chaodi_level TrumpSuit.SPADE l = 4%Z
        /\ chaodi_level TrumpSuit.XJ l = 5%Z
        /\ chaodi_level TrumpSuit.DJ l = 6%Z).
Proof.
  intros s l s' l'. unfold chaodi_level.
  destruct (Z.geb_spec l 1); destruct (Z.geb_spec l' 1);
    destruct s, s'; repeat split; intros; try lia; try congruence.
Qed.

Lemma chaodi_level_order_witness :
  ~ (chaodi_level TrumpSuit.DJ 0 > chaodi_level TrumpSuit.DIAMOND 0)%Z.
Proof.
  apply (proj1 (proj2 (proj2 (proj2
           (chaodi_level_order TrumpSuit.DJ 0 TrumpSuit.DIAMOND 0))))).
  lia.
Defined.


(** * Further properties of [env/Game.py] *)

Lemma opt_pos_eqb_neq : forall a b, opt_pos_eqb a b = false <-> a <> b.
Proof.
  intros a b. destruct (opt_pos_eqb a b) eqn:E.
  - apply opt_pos_eqb_eq in E. split; [discriminate | contradiction].
  - split; [|reflexivity]. intros _ H. apply opt_pos_eqb_eq in H. congruence.
Qed.

(** ** The pass of the DECLARE stage *)

(** What a pass does, in each of its four cases.  While the caller is not
    on a confirmation turn and fewer than 100 cards are in hands, the
    next seat draws the top card and gets the turn (the call raises
    instead if that seat already holds 25 cards or the deck is empty).
    With 100 or more cards out, the pass opens a confirmation lap that
    starts with the next seat, whether or not anybody has declared, and
    moves no card.  On its confirmation turn a seat hands the turn on,
    unless the next seat is the one that opened the lap: then the stage
    becomes KITTY, the dealer (a random seat if none is fixed) takes the
    whole rest of the deck and gets the turn. *)
Theorem pass_declare_cases :
  forall rules rnd g p,
    let r := run_action rules rnd g DontDeclareAction p in
    (current_declaration_turn g <> Some p ->
     hands_total g < 100 ->
     (size (hands g (next_position p)) < 25 ->
      forall c rest, deck g = c :: rest ->
        outcome_of r = Some (Some (next_position p), 0%Q)
        /\ stage (state_of r) = stage g
        /\ deck (state_of r) = rest
        /\ hands (state_of r)
           = upd (hands g) (next_position p)
                 (add_card (hands g (next_position p)) c 1)
        /\ current_declaration_turn (state_of r) = current_declaration_turn g)
     /\ (25 <= size (hands g (next_position p)) \/ deck g = [] -> r = Raised g))
    /\ (current_declaration_turn g <> Some p ->
        100 <= hands_total g ->
        outcome_of r = Some (Some (next_position p), 0%Q)
        /\ stage (state_of r) = stage g
        /\ deck (state_of r) = deck g
        /\ hands (state_of r) = hands g
        /\ current_declaration_turn (state_of r) = Some (next_position p)
        /\ initial_declaration_position (state_of r) = Some (next_position p))
    /\ (current_declaration_turn g = Some p ->
        initial_declaration_position g <> Some (next_position p) ->
        outcome_of r = Some (Some (next_position p), 0%Q)
        /\ stage (state_of r) = stage g
        /\ deck (state_of r) = deck g
        /\ hands (state_of r) = hands g
        /\ current_declaration_turn (state_of r) = Some (next_position p)
        /\ initial_declaration_position (state_of r) = initial_declaration_position g)
    /\ (current_declaration_turn g = Some p ->
        initial_declaration_position g = Some (next_position p) ->
        let dealer := match dealer_position g with Some d => d | None => rnd end in
        outcome_of r = Some (Some dealer, 0%Q)
        /\ stage (state_of r) = kitty_stage
        /\ deck (state_of r) = []
        /\ dealer_position (state_of r) = Some dealer
        /\ current_declaration_turn (state_of r) = None
        /\ size (hands (state_of r) dealer)
           = size (hands g dealer) + List.length (deck g)
        /\ forall q, q <> dealer -> hands (state_of r) q = hands g q).
Proof.
  intros rules rnd g p r. subst r. cbn [run_action]. unfold run_DontDeclareAction.
  split; [|split; [|split]].
  - intros T L. apply opt_pos_eqb_neq in T. apply Nat.ltb_lt in L.
    rewrite T, L. split.
    + intros S c rest D. apply Nat.ltb_lt in S. rewrite S.
      unfold draw_card. rewrite D. repeat split.
    + intros [S|D].
      * apply Nat.ltb_ge in S. rewrite S. reflexivity.
      * unfold draw_card. rewrite D.
        destruct (size (hands g (next_position p)) <? 25); reflexivity.
  - intros T L. apply opt_pos_eqb_neq in T. apply Nat.ltb_ge in L.
    rewrite T, L. repeat split.
  - intros T N. rewrite (proj2 (opt_pos_eqb_eq _ _) T).
    assert (E : opt_pos_eqb (Some (next_position p))
                            (initial_declaration_position g) = false)
      by (apply opt_pos_eqb_neq; congruence).
    rewrite E, T. repeat split.
  - intros T N. rewrite (proj2 (opt_pos_eqb_eq _ _) T).
    rewrite (proj2 (opt_pos_eqb_eq _ _) (eq_sym N)).
    cbv zeta. cbn [state_of outcome_of]. fields.
    repeat split.
    + unfold upd. rewrite pos_eqb_refl. apply size_deal_all.
    + intros q Q. unfold upd. apply pos_eqb_neq in Q. rewrite Q. reflexivity.
Qed.

(** The confirmation lap of [pass_declare_cases] on the standard deck:
    East's pass with 100 cards out keeps the stage, and East's pass at
    the end of the lap moves to KITTY. *)
Lemma pass_declare_cases_witness :
  stage (state_of (run_action Reference.rules NORTH Scenario.hundred_out
                              DontDeclareAction EAST)) = declare_stage
  /\ stage (state_of (run_action Reference.rules NORTH Scenario.lap_end
                                 DontDeclareAction EAST)) = kitty_stage.
Proof.
  split.
  - destruct (proj1 (proj2 (pass_declare_cases Reference.rules NORTH
                              Scenario.hundred_out EAST))) as (_ & S & _).
    + vm_compute; discriminate.
    + apply Nat.leb_le; vm_compute; reflexivity.
    + rewrite S. vm_compute. reflexivity.
  - destruct (proj2 (proj2 (proj2 (pass_declare_cases Reference.rules NORTH
                                      Scenario.lap_end EAST)))) as (_ & S & _).
    + vm_compute; reflexivity.
    + vm_compute; reflexivity.
    + exact S.
Defined.

(** ** Declaring *)

Lemma get_count_get_card : forall h s dr n d,
  get_count h s dr = Some n -> exists c k, get_card d dr = Some (c, k).
Proof.
  intros h s dr n d H. unfold get_count, get_card in *.
  destruct (LETTER_RANK dr); [|discriminate]. eauto.
Qed.

(** A declare action returns exactly when no declaration stands or the
    new level is strictly higher than the standing one, the bidder holds
    at least one copy of the card that qualifies a declaration in that
    suit, and a card can be drawn if fewer than 100 are in hands.  Bidder
    and suit play no part: a bid of equal level is rejected whoever makes
    it, and the same seat may raise its own bid in another suit. *)
Theorem declare_accepted_iff :
  forall rules rnd g d p,
    (exists g' r, run_action rules rnd g (DeclareAction d) p = Returned g' r)
    <->
    ((declarations g = []
      \/ exists standing, last_opt (declarations g) = Some standing
                          /\ (level standing < level d)%Z)
     /\ (exists held, get_count (hands g p) (suit d) (dominant_rank g) = Some held
                      /\ 1 <= held)
     /\ (hands_total g < 100 -> deck g <> [])).
Proof.
  intros rules rnd g d p. cbn [run_action]. split.
  - intros (g' & r & H). unfold run_DeclareAction in H. cbv zeta in H.
    destruct (level_increases g d) eqn:L; [|discriminate]. simpl negb in H.
    split; [|split].
    + unfold level_increases in L.
      destruct (last_opt (declarations g)) as [standing|] eqn:LO.
      * right. exists standing. split; [reflexivity|]. apply Z.ltb_lt. exact L.
      * left. apply last_opt_None. exact LO.
    + destruct (get_count (hands g p) (suit d) (dominant_rank g)) as [held|];
        [|discriminate].
      exists held. split; [reflexivity|].
      destruct held as [|k]; [cbn [negb] in H; discriminate H | lia].
    + intros T E.
      destruct (match dealer_position g with Some _ => false | None => true end
                || is_initial_game g);
        fields; returned H;
        match goal with
        | D : draw_card _ _ = Some _ |- _ =>
            unfold draw_card in D; fields; rewrite E in D; discriminate D
        | B : (hands_total _ <? 100) = false |- _ =>
            unfold hands_total in *; fields; apply Nat.ltb_ge in B; lia
        end.
  - intros (L & (held & C & N) & D). unfold run_DeclareAction.
    assert (L' : level_increases g d = true).
    { unfold level_increases. destruct L as [L|(s & L & Hl)].
      - rewrite L. reflexivity.
      - rewrite L. apply Z.ltb_lt. exact Hl. }
    rewrite L', C. apply Nat.leb_le in N. rewrite N. cbn [negb].
    destruct (get_count_get_card _ _ _ _ d C) as (c & k & G).
    destruct (match dealer_position g with Some _ => false | None => true end
              || is_initial_game g);
      fields; rewrite G; unfold hands_total in *; fields;
      (destruct (sum_sizes (hands g) <? 100) eqn:T;
       [ apply Nat.ltb_lt in T; specialize (D T);
         unfold draw_card; fields;
         destruct (deck g) as [|c0 rest]; [congruence|]; eauto
       | eauto ]).
Qed.

(** The first declaration of the hearts game is accepted: nothing
    stands, North holds a two of hearts, and the deck is not empty. *)
Lemma declare_accepted_iff_witness :
  exists g' r,
    run_action Reference.rules NORTH
               (state_of (start_game NORTH Scenario.hearts_game))
               (DeclareAction Scenario.hearts_north) NORTH
    = Returned g' r.
Proof.
  apply declare_accepted_iff. split; [left; reflexivity|]. split.
  - exists 1. split; [vm_compute; reflexivity | lia].
  - intros _. vm_compute. discriminate.
Defined.

(** What an accepted declare action leaves behind: the declaration is
    the standing one and gives the trump suit; in a game created without
    a fixed dealer the bidder becomes dealer and kitty owner (on every
    accepted bid, not only the first), with a fixed dealer both stay;
    the shown cards are added to the bidder's public cards, nobody
    else's; the next seat gets the turn and the reward is 0. *)
Theorem declare_effects :
  forall rules rnd g d p g' r,
    run_action rules rnd g (DeclareAction d) p = Returned g' r ->
    r = (Some (next_position p), 0%Q)
    /\ last_opt (declarations g') = Some d
    /\ dominant_suit g' = suit d
    /\ stage g' = stage g
    /\ (dealer_position g = None \/ is_initial_game g = true ->
        dealer_position g' = Some p /\ kitty_owner g' = Some p)
    /\ (dealer_position g <> None -> is_initial_game g = false ->
        dealer_position g' = dealer_position g /\ kitty_owner g' = kitty_owner g)
    /\ (exists c n, get_card d (dominant_rank g) = Some (c, n)
                    /\ public_cards g' p = add_card (public_cards g p) c n
                    /\ forall q, q <> p -> public_cards g' q = public_cards g q).
Proof.
  intros rules rnd g d p g' r H. cbn [run_action] in H.
  pose proof (run_DeclareAction_effect g d p g' r H) as (_ & D & _ & _).
  assert (LD : last_opt (declarations g') = Some d)
    by (rewrite D; apply last_opt_snoc).
  unfold run_DeclareAction in H. cbv zeta in H.
  destruct (level_increases g d); [|discriminate]. simpl negb in H.
  destruct (dealer_position g) as [dealer|] eqn:DP;
    destruct (is_initial_game g) eqn:IG; simpl orb in H; cbv iota in H;
    fields; returned H;
    repeat match goal with
           | D : draw_card _ _ = Some _ |- _ =>
               unfold draw_card in D; fields;
               destruct (deck g); [discriminate D|];
               inversion D; subst; clear D
           end;
    unfold dominant_suit; rewrite LD; fields;
    repeat (split;
            [first [ reflexivity
                   | intros; repeat split; first [reflexivity | congruence]
                   | intros [X|X]; discriminate X
                   | intros; congruence ]|]);
    eexists; eexists; (split; [first [reflexivity | eassumption]|]);
    (split; [unfold upd; rewrite pos_eqb_refl; reflexivity|]);
    intros q Q; unfold upd; apply pos_eqb_neq in Q; rewrite Q; reflexivity.
Qed.

(** The effects of [declare_effects] on North's declaration of hearts. *)
Lemma declare_effects_witness :
  dominant_suit
    (state_of (run_action Reference.rules NORTH
                 (state_of (start_game NORTH Scenario.hearts_game))
                 (DeclareAction Scenario.hearts_north) NORTH))
  = TrumpSuit.HEART.
Proof.
  destruct (run_action Reference.rules NORTH
              (state_of (start_game NORTH Scenario.hearts_game))
              (DeclareAction Scenario.hearts_north) NORTH) as [g' r|g'] eqn:H.
  - exact (proj1 (proj2 (proj2
             (declare_effects Reference.rules NORTH _ _ NORTH g' r H)))).
  - exfalso.
    assert (N : outcome_of (run_action Reference.rules NORTH
                  (state_of (start_game NORTH Scenario.hearts_game))
                  (DeclareAction Scenario.hearts_north) NORTH) <> None)
      by (vm_compute; discriminate).
    rewrite H in N. apply N. reflexivity.
Defined.

(** The trump suit is the small-joker marker in a new game and after that
    the suit of the declaration accepted last, by a declare action or a
    counter-bid; no other action changes it, and no action ever removes a
    declaration. *)
Theorem dominant_suit_follows_declarations :
  forall rules,
    (forall dr dealer chaodi combos cards warm ov cp ca,
        dominant_suit (new_Game dr dealer chaodi combos cards warm ov cp ca)
        = TrumpSuit.XJ)
    /\ (forall rnd g a p g' r,
           run_action rules rnd g a p = Returned g' r ->
           (exists more, declarations g' = declarations g ++ more)
           /\ match a with
              | DeclareAction d | ChaodiAction d => dominant_suit g' = suit d
              | _ => dominant_suit g' = dominant_suit g
              end).
Proof.
  intros rules. split; [reflexivity|].
  intros rnd g a p g' r H.
  pose proof (run_action_declarations rules rnd g a p g' r H) as D.
  unfold dominant_suit.
  destruct a; try (rewrite D; split; [exists []; rewrite app_nil_r|]; reflexivity).
  - destruct D as [D _]. rewrite D, last_opt_snoc. split; [eauto|reflexivity].
  - rewrite D, last_opt_snoc. split; [eauto|reflexivity].
Qed.

(** West's counter-bid with clubs makes clubs the trump suit. *)
Lemma dominant_suit_follows_declarations_witness :
  dominant_suit
    (state_of (run_action Reference.rules NORTH Scenario.counter_bid_time
                          (ChaodiAction Scenario.clubs_pair) WEST))
  = TrumpSuit.CLUB.
Proof.
  assert (N : outcome_of (run_action Reference.rules NORTH Scenario.counter_bid_time
                            (ChaodiAction Scenario.clubs_pair) WEST) <> None)
    by (vm_compute; discriminate).
  destruct (run_action Reference.rules NORTH Scenario.counter_bid_time
              (ChaodiAction Scenario.clubs_pair) WEST) as [g' r|g'] eqn:H.
  - exact (proj2 (proj2 (dominant_suit_follows_declarations Reference.rules)
                    NORTH _ _ WEST g' r H)).
  - exfalso. apply N. reflexivity.
Defined.


(** ** Setting the kitty *)

(** Only the single-card action checks the capacity of the kitty.  With
    eight or more cards in the kitty a place-one action raises and leaves
    the game untouched.  A place-all action returns whenever the hand
    holds the cards, whatever the kitty already contains, and the kitty
    grows by the whole batch; when the hand lacks some of the cards the
    call raises after the batch was added to the kitty. *)
Theorem kitty_capacity_check :
  forall rules rnd g p,
    (forall c n,
        8 <= size (kitty g) ->
        run_action rules rnd g (PlaceKittyAction c n) p = Raised g)
    /\ (forall cards remaining,
           remove_cardset (hands g p) cards = Some remaining ->
           exists g' r,
             run_action rules rnd g (PlaceAllKittyAction cards) p = Returned g' r
             /\ kitty g' = add_cardset (kitty g) cards
             /\ size (kitty g') = size (kitty g) + size cards
             /\ hands g' p = remaining)
    /\ (forall cards,
           remove_cardset (hands g p) cards = None ->
           exists g',
             run_action rules rnd g (PlaceAllKittyAction cards) p = Raised g'
             /\ kitty g' = add_cardset (kitty g) cards
             /\ hands g' = hands g).
Proof.
  intros rules rnd g p. cbn [run_action]. split; [|split].
  - intros c n F. unfold run_PlaceKittyAction.
    apply Nat.ltb_ge in F. rewrite F. reflexivity.
  - intros cards remaining R. unfold run_PlaceAllKittyAction. fields.
    rewrite R. unfold open_first_round. fields.
    destruct (round_history g); fields;
      destruct (negb (enable_chaodi g)
                || match declarations g with [] => true | _ :: _ => false end);
      eexists; eexists; (split; [reflexivity|]); fields;
      (split; [reflexivity|]); (split; [apply size_add_cardset|]);
      unfold upd; rewrite pos_eqb_refl; reflexivity.
  - intros cards R. unfold run_PlaceAllKittyAction. fields. rewrite R.
    eexists. split; [reflexivity|]. fields. split; reflexivity.
Qed.

(** After North's eight discards the kitty is full, and a second batch
    is still accepted: the kitty then holds sixteen cards. *)
Lemma kitty_capacity_check_witness :
  size (kitty (Scenario.kitty_set false)) = 8
  /\ exists g' r,
       run_action Reference.rules NORTH (Scenario.kitty_set false)
                  (PlaceAllKittyAction Scenario.more_discards) NORTH
       = Returned g' r
       /\ size (kitty g') = 16.
Proof.
  assert (K : size (kitty (Scenario.kitty_set false)) = 8)
    by (vm_compute; reflexivity).
  split; [exact K|].
  assert (F : forallb (fun c => Scenario.more_discards c
                                <=? hands (Scenario.kitty_set false) NORTH c)
                      ORDERING = true)
    by (vm_compute; reflexivity).
  assert (R : remove_cardset (hands (Scenario.kitty_set false) NORTH)
                             Scenario.more_discards
              = Some (fun c => hands (Scenario.kitty_set false) NORTH c
                               - Scenario.more_discards c)).
  { unfold remove_cardset. rewrite F. reflexivity. }
  destruct (proj1 (proj2 (kitty_capacity_check Reference.rules NORTH
                            (Scenario.kitty_set false) NORTH))
                  Scenario.more_discards _ R)
    as (g' & r & H & _ & S & _).
  exists g', r. split; [exact H|]. rewrite S, K.
  vm_compute. reflexivity.
Defined.

(** What a returning place-one action did.  The kitty held fewer than
    eight cards, the seat held the card, one copy moved from the hand to
    the kitty.  If the kitty is still short of eight, the same seat acts
    again, the stage and the round history are unchanged and the reward
    is 0: the reward computed for that discard is dropped.  The discard
    that brings the kitty to eight returns the computed reward, opens the
    first round if none is open, and moves to CHAODI with the next seat
    to speak when counter-bids are enabled, and to PLAY with the dealer to
    act otherwise. *)
Theorem place_kitty_returns :
  forall rules rnd g c n p g' next reward,
    run_action rules rnd g (PlaceKittyAction c n) p = Returned g' (next, reward) ->
    size (kitty g) < 8
    /\ 1 <= hands g p c
    /\ kitty g' = add_card (kitty g) c 1
    /\ remove_card (hands g p) c 1 = Some (hands g' p)
    /\ (size (kitty g) < 7 ->
        next = Some p /\ reward = 0%Q /\ stage g' = stage g
        /\ round_history g' = round_history g)
    /\ (size (kitty g) = 7 ->
        reward = kitty_discard_reward (hands g p) (hands g' p) c
                                      (dominant_suit g) (dominant_rank g)
        /\ round_history g' <> []
        /\ (enable_chaodi g = true ->
            stage g' = chaodi_stage /\ next = Some (next_position p)
            /\ current_chaodi_turn g' = Some (next_position p)
            /\ initial_chaodi_position g' = Some p)
        /\ (enable_chaodi g = false ->
            stage g' = main_stage /\ next = dealer_position g)).
Proof.
  intros rules rnd g c n p g' next reward H. cbn [run_action] in H.
  unfold run_PlaceKittyAction in H.
  destruct (size (kitty g) <? 8) eqn:K; [|discriminate]. cbn [negb] in H.
  apply Nat.ltb_lt in K.
  fields.
  destruct (remove_card (hands g p) c 1) as [remaining|] eqn:R; [|discriminate].
  assert (Hc : 1 <= hands g p c).
  { unfold remove_card in R. destruct (Nat.leb_spec 1 (hands g p c)); [assumption|discriminate]. }
  rewrite (size_add_card (kitty g) c 1) in H.
  unfold open_first_round in H. fields.
  destruct (size (kitty g) + 1 =? 8) eqn:E.
  - apply Nat.eqb_eq in E.
    destruct (round_history g) eqn:RH; try rewrite RH in H; fields;
      destruct (enable_chaodi g) eqn:C; try rewrite C in H; cbn [negb] in H;
      inversion H; subst; clear H; fields;
      unfold dominant_suit; fields;
      unfold upd; rewrite pos_eqb_refl;
      repeat split; try reflexivity; try assumption; try lia;
      try discriminate; try (intros; lia); try (intros; discriminate); try congruence.
  - apply Nat.eqb_neq in E.
    inversion H; subst; clear H; fields.
    unfold upd; rewrite pos_eqb_refl.
    repeat split; try reflexivity; try assumption; try lia; intros; lia.
Qed.

(** North's first discard after the deal is the big joker; the action
    returns reward 0 and North acts again. *)
Lemma place_kitty_returns_witness :
  outcome_of (run_action Reference.rules NORTH (Scenario.kitty_time false)
                         (PlaceKittyAction card_DJ 1) NORTH)
  = Some (Some NORTH, 0%Q).
Proof.
  destruct (run_action Reference.rules NORTH (Scenario.kitty_time false)
              (PlaceKittyAction card_DJ 1) NORTH) as [g' [next reward]|g'] eqn:H.
  - destruct (place_kitty_returns Reference.rules NORTH _ _ _ _ g' next reward H)
      as (_ & _ & _ & _ & S & _).
    destruct S as (N & W & _); [vm_compute; lia|].
    simpl. rewrite N, W. reflexivity.
  - exfalso.
    assert (N : outcome_of (run_action Reference.rules NORTH (Scenario.kitty_time false)
                              (PlaceKittyAction card_DJ 1) NORTH) <> None)
      by (vm_compute; discriminate).
    rewrite H in N. apply N. reflexivity.
Defined.


(** ** Scores and the end of the game *)

Lemma draw_card_scores : forall g seat g',
  draw_card g seat = Some g' ->
  defender_points g' = defender_points g
  /\ opponent_points g' = opponent_points g
  /\ points_per_round g' = points_per_round g
  /\ final_opponent_reward g' = final_opponent_reward g
  /\ final_defender_reward g' = final_defender_reward g
  /\ game_ended g' = game_ended g.
Proof.
  intros g seat g' H. unfold draw_card in H.
  destruct (deck g); [discriminate|].
  inversion H; subst; clear H. repeat split.
Qed.

Ltac use_draw_scores :=
  repeat match goal with
         | D : draw_card _ _ = Some _ |- _ =>
             apply draw_card_scores in D; destruct D as (? & ? & ? & ? & ? & ?)
         end.

(** No action other than the card that completes a trick touches the
    score fields. *)
Lemma scores_frame : forall rules rnd g a p g' r,
  run_action rules rnd g a p = Returned g' r ->
  (forall cs, a <> FollowAction cs) ->
  defender_points g' = defender_points g
  /\ opponent_points g' = opponent_points g
  /\ points_per_round g' = points_per_round g
  /\ final_opponent_reward g' = final_opponent_reward g
  /\ final_defender_reward g' = final_defender_reward g
  /\ game_ended g' = game_ended g.
Proof.
  intros rules rnd g a p g' r H NF.
  destruct a as [d| |c n|cards| |d|move|cur move|move|cs]; cbn [run_action] in H.
  - unfold run_DeclareAction in H. cbv zeta in H.
    destruct (level_increases g d); [|discriminate]. simpl negb in H.
    destruct (match dealer_position g with Some _ => false | None => true end
              || is_initial_game g);
      fields; returned H; use_draw_scores; fields; repeat split; congruence.
  - unfold run_DontDeclareAction in H.
    destruct (opt_pos_eqb (current_declaration_turn g) (Some p)).
    + destruct (opt_pos_eqb (Some (next_position p)) (initial_declaration_position g)).
      * inversion H; subst; clear H. repeat split.
      * destruct (current_declaration_turn g); [|discriminate].
        inversion H; subst; clear H. repeat split.
    + destruct (hands_total g <? 100).
      * destruct (size (hands g (next_position p)) <? 25); [|discriminate].
        destruct (draw_card g (next_position p)) eqn:D; [|discriminate].
        inversion H; subst; clear H.
        apply draw_card_scores in D. tauto.
      * inversion H; subst; clear H. repeat split.
  - unfold run_PlaceKittyAction in H. cbv zeta in H. fields.
    destruct (size (kitty g) <? 8); [|discriminate]. simpl negb in H.
    destruct (remove_card (hands g p) c 1) as [after|]; [|discriminate].
    unfold open_first_round in H. fields.
    destruct (size (add_card (kitty g) c 1) =? 8).
    + destruct (round_history g); fields;
        destruct (enable_chaodi g); cbn [negb] in H;
        inversion H; subst; clear H; repeat split.
    + inversion H; subst; clear H; repeat split.
  - unfold run_PlaceAllKittyAction in H. cbv zeta in H. fields.
    destruct (remove_cardset (hands g p) cards) as [after|]; [|discriminate].
    unfold open_first_round in H. fields.
    destruct (round_history g); fields;
      destruct (negb (enable_chaodi g)
                || match declarations g with [] => true | _ :: _ => false end);
      inversion H; subst; clear H; repeat split.
  - unfold run_DontChaodiAction in H. returned H; repeat split.
  - unfold run_ChaodiAction in H.
    destruct (remove_cardset _ _) as [emptied|] in H; [|discriminate].
    destruct (get_card _ _) as [[shown count]|] in H; [|discriminate].
    destruct (level d =? 3)%Z; inversion H; subst; clear H; repeat split.
  - unfold run_LeadAction in H.
    destruct (round_history g) as [|r0 rh] eqn:RH; [discriminate|].
    inversion H; subst; clear H. repeat split.
  - unfold run_AppendLeadAction in H. returned H; repeat split.
  - unfold run_EndLeadAction in H. cbv zeta in H.
    destruct (is_legal_combo rules move _ (dominant_suit g) (dominant_rank g))
      as [is_legal penalty_move].
    destruct is_legal.
    + destruct (last_opt (round_history g)) as [[leader moves]|]; [|discriminate].
      destruct moves; fields; returned H; repeat split.
    + destruct (last_opt (round_history g)) as [[leader [|m moves]]|];
        try discriminate.
      fields; returned H; repeat split.
  - exfalso. apply (NF cs). reflexivity.
Qed.

(** The settlement of a completed trick.  [pts] is the point value of
    the four groups; one side gets it.  When the card was not the seat's
    last, a new round opens for the winner.  When it was, the game ends,
    the kitty bonus is booked and both final rewards are set. *)
Lemma settle_round_scores : forall rules g lead moves p g' r,
  settle_round rules g lead moves p = Returned g' r ->
  exists bonus : Z,
    ((defender_points g' = (defender_points g
                            + fold_right Z.add 0 (map (total_points rules) moves))
      /\ opponent_points g' = opponent_points g
      /\ points_per_round g'
         = points_per_round g
           ++ [fold_right Z.add 0 (map (total_points rules) moves) + bonus]
      /\ (game_ended g' = game_ended g
          \/ bonus = total_points rules (kitty g) * 2))
     \/ (defender_points g' = defender_points g
         /\ opponent_points g'
            = opponent_points g
              + fold_right Z.add 0 (map (total_points rules) moves) + bonus
         /\ points_per_round g'
            = points_per_round g
              ++ [- fold_right Z.add 0 (map (total_points rules) moves) - bonus]))%Z
    /\ hands g' = hands g
    /\ ((game_ended g' = game_ended g /\ bonus = 0%Z
         /\ size (hands g p) <> 0
         /\ final_opponent_reward g' = final_opponent_reward g
         /\ final_defender_reward g' = final_defender_reward g
         /\ exists w, r = (Some w, 0%Q)
                      /\ round_history g' = round_history g ++ [(w, [])])
        \/ (game_ended g' = true /\ size (hands g p) = 0
            /\ r = (None, 0%Q)
            /\ round_history g' = round_history g
            /\ final_opponent_reward g' = Some (opponent_reward (opponent_points g'))
            /\ final_defender_reward g'
               = Some (- opponent_reward (opponent_points g'))%Z)).
Proof.
  intros rules g lead moves p g' r H. unfold settle_round in H. cbv zeta in H.
  destruct (dealer_position g) as [dealer|]; [|discriminate].
  destruct (index_of dealer _) as [dealer_index|]; [|discriminate].
  destruct (nth_error _ (round_winner rules moves (dominant_suit g) (dominant_rank g)))
    as [new_leading_position|]; [|discriminate].
  destruct ((round_winner rules moves (dominant_suit g) (dominant_rank g) =? dealer_index)
            || ((round_winner rules moves (dominant_suit g) (dominant_rank g) + 2) mod 4
                =? dealer_index)); fields.
  - destruct (size (hands g p) =? 0) eqn:S.
    + simpl negb in H. cbv iota in H. fields.
      inversion H; subst; clear H. fields.
      apply Nat.eqb_eq in S.
      exists (total_points rules (kitty g) * 2)%Z. split.
      * left. repeat split; try reflexivity.
        -- rewrite upd_last_snoc. reflexivity.
        -- right; reflexivity.
      * split; [reflexivity|]. right. repeat split; assumption.
    + inversion H; subst; clear H. fields.
      apply Nat.eqb_neq in S.
      exists 0%Z. split.
      * left. repeat split; try reflexivity.
        -- rewrite Z.add_0_r. reflexivity.
        -- left; reflexivity.
      * split; [reflexivity|]. left. repeat split; try assumption.
        exists new_leading_position. split; reflexivity.
  - destruct (size (hands g p) =? 0) eqn:S.
    + simpl negb in H. cbv iota in H.
      destruct (nth_error moves _) as [winning|]; [|discriminate]. fields.
      inversion H; subst; clear H. fields.
      apply Nat.eqb_eq in S.
      exists (total_points rules (kitty g)
              * get_multiplier rules (Combo winning) (dominant_suit g) (dominant_rank g))%Z.
      split.
      * right. repeat split; try reflexivity.
        rewrite upd_last_snoc. reflexivity.
      * split; [reflexivity|]. right. repeat split; assumption.
    + inversion H; subst; clear H. fields.
      apply Nat.eqb_neq in S.
      exists 0%Z. split.
      * right. repeat split; try reflexivity; try lia.
        rewrite Z.sub_0_r. reflexivity.
      * split; [reflexivity|]. left. repeat split; try assumption.
        exists new_leading_position. split; reflexivity.
Qed.

(** The seats of a trick in playing order, starting with the seat that
    led: [position_array] of the settlement. *)
Lemma dealer_side_seats : forall lead dealer winner_index dealer_index winner,
  index_of dealer
    [lead; next_position lead; next_position (next_position lead);
     last_position lead] = Some dealer_index ->
  nth_error
    [lead; next_position lead; next_position (next_position lead);
     last_position lead] winner_index = Some winner ->
  ((winner_index =? dealer_index) || ((winner_index + 2) mod 4 =? dealer_index))
  = (pos_eqb winner dealer
     || pos_eqb winner (next_position (next_position dealer))).
Proof.
  intros lead dealer wi di winner I W.
  destruct wi as [|[|[|[|wi]]]];
    [| | | |destruct wi; discriminate W];
    destruct lead, dealer; cbn in I, W;
    inversion I; subst; inversion W; subst; reflexivity.
Qed.

(** The settlement of a completed trick, side by side.  The winner is
    the seat at the index the rules return, counted from the seat that
    led.  If the winner is the dealer or the seat opposite the dealer,
    the dealer's side books the points of the four groups; otherwise the
    other side does.  If the card was the seat's last the game ends and
    the kitty bonus is booked. *)
Lemma settle_round_books : forall rules g lead moves p g' r,
  settle_round rules g lead moves p = Returned g' r ->
  exists dealer winner bonus,
    dealer_position g = Some dealer
    /\ nth_error
         [lead; next_position lead; next_position (next_position lead);
          last_position lead]
         (round_winner rules moves (dominant_suit g) (dominant_rank g))
       = Some winner
    /\ hands g' = hands g
    /\ (size (hands g p) <> 0 -> bonus = 0%Z /\ game_ended g' = game_ended g)
    /\ (size (hands g p) = 0 -> game_ended g' = true)
    /\ (winner = dealer \/ winner = next_position (next_position dealer) ->
        (size (hands g p) = 0 -> bonus = (total_points rules (kitty g) * 2)%Z)
        /\ defender_points g'
           = (defender_points g
              + fold_right Z.add 0 (map (total_points rules) moves))%Z
        /\ opponent_points g' = opponent_points g
        /\ points_per_round g'
           = points_per_round g
             ++ [(fold_right Z.add 0 (map (total_points rules) moves) + bonus)%Z])
    /\ (winner <> dealer -> winner <> next_position (next_position dealer) ->
        (size (hands g p) = 0 ->
         exists winning,
           nth_error moves
             (round_winner rules moves (dominant_suit g) (dominant_rank g))
           = Some winning
           /\ bonus = (total_points rules (kitty g)
                       * get_multiplier rules (Combo winning)
                           (dominant_suit g) (dominant_rank g))%Z)
        /\ defender_points g' = defender_points g
        /\ opponent_points g'
           = (opponent_points g
              + fold_right Z.add 0 (map (total_points rules) moves) + bonus)%Z
        /\ points_per_round g'
           = points_per_round g
             ++ [(- fold_right Z.add 0 (map (total_points rules) moves) - bonus)%Z]).
Proof.
  intros rules g lead moves p g' r H. unfold settle_round in H. cbv zeta in H.
  destruct (dealer_position g) as [dealer|]; [|discriminate].
  destruct (index_of dealer _) as [dealer_index|] eqn:I; [|discriminate].
  destruct (nth_error _ (round_winner rules moves (dominant_suit g) (dominant_rank g)))
    as [winner|] eqn:W; [|discriminate].
  rewrite (dealer_side_seats _ _ _ _ _ I W) in H.
  destruct (pos_eqb winner dealer
            || pos_eqb winner (next_position (next_position dealer))) eqn:DS.
  - assert (Side : winner = dealer
                   \/ winner = next_position (next_position dealer)).
    { apply orb_true_iff in DS. rewrite !pos_eqb_eq in DS. exact DS. }
    fields. destruct (size (hands g p) =? 0) eqn:S.
    + simpl negb in H. cbv iota in H. fields.
      inversion H; subst; clear H. fields.
      apply Nat.eqb_eq in S.
      exists dealer, winner, (total_points rules (kitty g) * 2)%Z.
      repeat match goal with |- _ /\ _ => split end;
        intros; repeat match goal with |- _ /\ _ => split end; intros;
        try reflexivity; try congruence; try tauto.
      rewrite upd_last_snoc. reflexivity.
    + inversion H; subst; clear H. fields.
      apply Nat.eqb_neq in S.
      exists dealer, winner, 0%Z.
      repeat match goal with |- _ /\ _ => split end;
        intros; repeat match goal with |- _ /\ _ => split end; intros;
        try reflexivity; try congruence; try tauto.
      rewrite Z.add_0_r. reflexivity.
  - assert (Side : winner <> dealer
                   /\ winner <> next_position (next_position dealer)).
    { apply orb_false_iff in DS. rewrite !pos_eqb_neq in DS. exact DS. }
    fields. destruct (size (hands g p) =? 0) eqn:S.
    + simpl negb in H. cbv iota in H.
      destruct (nth_error moves _) as [winning|] eqn:WN; [|discriminate]. fields.
      inversion H; subst; clear H. fields.
      apply Nat.eqb_eq in S.
      exists dealer, winner,
        (total_points rules (kitty g)
         * get_multiplier rules (Combo winning) (dominant_suit g) (dominant_rank g))%Z.
      repeat match goal with |- _ /\ _ => split end;
        intros; repeat match goal with |- _ /\ _ => split end; intros;
        try reflexivity; try congruence; try tauto.
      * exists winning. split; reflexivity.
      * rewrite upd_last_snoc. reflexivity.
    + inversion H; subst; clear H. fields.
      apply Nat.eqb_neq in S.
      exists dealer, winner, 0%Z.
      repeat match goal with |- _ /\ _ => split end;
        intros; repeat match goal with |- _ /\ _ => split end; intros;
        try reflexivity; try congruence; try tauto.
      * rewrite Z.add_0_r. reflexivity.
      * rewrite Z.sub_0_r. reflexivity.
Qed.

(** Only the card that completes a trick moves a score, and it always
    does.  A returning action that is not the fourth card of a trick
    leaves both scores, the per-round list and the ended flag as they
    were.  The fourth card of a trick books the points of the four
    groups: the winner is the seat at the index the rules return, counted
    from the seat that led; if the winner is the dealer or the seat
    opposite the dealer the points go to [defender_points] and a
    positive entry is appended to the per-round list, otherwise they go
    to [opponent_points] and the entry is negative.  The kitty bonus is
    booked only when that card was the seat's last, and then the game
    ends: twice the kitty's points in the per-round entry alone for the
    dealer's side, the kitty's points times the multiplier of the winning
    group in score and entry for the other side. *)
Theorem trick_points_one_side :
  forall rules rnd g a p g' r,
    run_action rules rnd g a p = Returned g' r ->
    ((forall cs lead previous,
         a = FollowAction cs ->
         last_opt (round_history g) = Some (lead, previous) ->
         List.length previous <> 3) ->
     defender_points g' = defender_points g
     /\ opponent_points g' = opponent_points g
     /\ points_per_round g' = points_per_round g
     /\ game_ended g' = game_ended g)
    /\ (forall cs lead previous,
           a = FollowAction cs ->
           last_opt (round_history g) = Some (lead, previous) ->
           List.length previous = 3 ->
           exists dealer winner bonus,
             dealer_position g = Some dealer
             /\ nth_error
                  [lead; next_position lead; next_position (next_position lead);
                   last_position lead]
                  (round_winner rules (previous ++ [cs])
                                (dominant_suit g) (dominant_rank g))
                = Some winner
             /\ (size (hands g' p) <> 0 ->
                 bonus = 0%Z /\ game_ended g' = game_ended g)
             /\ (size (hands g' p) = 0 -> game_ended g' = true)
             /\ (winner = dealer \/ winner = next_position (next_position dealer) ->
                 (size (hands g' p) = 0 ->
                  bonus = (total_points rules (kitty g) * 2)%Z)
                 /\ defender_points g'
                    = (defender_points g
                       + fold_right Z.add 0
                           (map (total_points rules) (previous ++ [cs])))%Z
                 /\ opponent_points g' = opponent_points g
                 /\ points_per_round g'
                    = points_per_round g
                      ++ [(fold_right Z.add 0
                             (map (total_points rules) (previous ++ [cs]))
                           + bonus)%Z])
             /\ (winner <> dealer ->
                 winner <> next_position (next_position dealer) ->
                 (size (hands g' p) = 0 ->
                  exists winning,
                    nth_error (previous ++ [cs])
                      (round_winner rules (previous ++ [cs])
                                    (dominant_suit g) (dominant_rank g))
                    = Some winning
                    /\ bonus = (total_points rules (kitty g)
                                * get_multiplier rules (Combo winning)
                                    (dominant_suit g) (dominant_rank g))%Z)
                 /\ defender_points g' = defender_points g
                 /\ opponent_points g'
                    = (opponent_points g
                       + fold_right Z.add 0
                           (map (total_points rules) (previous ++ [cs]))
                       + bonus)%Z
                 /\ points_per_round g'
                    = points_per_round g
                      ++ [(- fold_right Z.add 0
                               (map (total_points rules) (previous ++ [cs]))
                           - bonus)%Z])).
Proof.
  intros rules rnd g a p g' r H.
  destruct a as [d| |c n|cards| |d|move|cur move|move|cs];
    try (match type of H with
         | run_action _ _ _ ?a _ = _ =>
             assert (NF : forall cs, a <> FollowAction cs) by (intros cs; discriminate)
         end;
         destruct (scores_frame _ _ _ _ _ _ _ H NF) as (A & B & C & _ & _ & E);
         split; [intros _; repeat split; assumption
                |intros cs lead previous X; discriminate X]).
  cbn [run_action] in H. unfold run_FollowAction in H. cbv zeta in H.
  destruct (last_opt (round_history g)) as [[lead previous]|] eqn:L; [|discriminate].
  destruct (remove_cardset (hands g p) cs) as [h|] eqn:R; [|discriminate].
  fields.
  destruct (remove_cardset (unplayed_cards g) cs) as [u|]; [|discriminate].
  destruct (List.length (previous ++ [cs]) =? 4) eqn:N.
  - apply Nat.eqb_eq in N. rewrite length_app in N. simpl in N.
    apply settle_round_books in H.
    destruct H as (dealer & winner & bonus & D & W & Hh & NE & EN & DSide & OSide).
    unfold dominant_suit in *. fields.
    split.
    + intros NT. exfalso. apply (NT cs lead previous eq_refl eq_refl). lia.
    + intros cs' lead' previous' X L' _. inversion X; subst cs'.
      inversion L'; subst lead' previous'.
      exists dealer, winner, bonus. rewrite Hh. fields.
      split; [exact D|]. split; [exact W|]. split; [exact NE|].
      split; [exact EN|]. split; [exact DSide|exact OSide].
  - apply Nat.eqb_neq in N. rewrite length_app in N. simpl in N.
    inversion H; subst; clear H. fields. split.
    + intros _. repeat split.
    + intros cs' lead' previous' X L' T. exfalso. inversion X; subst cs'.
      inversion L'; subst lead' previous'. lia.
Qed.

(** The fourth card of the first trick: North led the ace of diamonds,
    West and South followed with king and queen, East adds the jack.
    North, the dealer, wins, and the dealer's side books the king's 10
    points. *)
Lemma trick_points_one_side_witness :
  defender_points
    (state_of (run_action Reference.rules NORTH
                 (Scenario.after (Scenario.kitty_set false)
                                 (firstn 3 Scenario.first_trick))
                 (FollowAction (Scenario.one (card rJ sym_diamond))) EAST))
  = 10%Z.
Proof.
  assert (N : outcome_of (run_action Reference.rules NORTH
                (Scenario.after (Scenario.kitty_set false)
                                (firstn 3 Scenario.first_trick))
                (FollowAction (Scenario.one (card rJ sym_diamond))) EAST) <> None)
    by (vm_compute; discriminate).
  assert (L : last_opt (round_history
                          (Scenario.after (Scenario.kitty_set false)
                                          (firstn 3 Scenario.first_trick)))
              = Some (NORTH, [Scenario.one (card rA sym_diamond);
                              Scenario.one (card rK sym_diamond);
                              Scenario.one (card rQ sym_diamond)]))
    by (vm_compute; reflexivity).
  assert (D0 : dealer_position (Scenario.after (Scenario.kitty_set false)
                                               (firstn 3 Scenario.first_trick))
               = Some NORTH) by (vm_compute; reflexivity).
  assert (W0 : nth_error [NORTH; next_position NORTH;
                          next_position (next_position NORTH); last_position NORTH]
                 (round_winner Reference.rules
                    ([Scenario.one (card rA sym_diamond);
                      Scenario.one (card rK sym_diamond);
                      Scenario.one (card rQ sym_diamond)]
                     ++ [Scenario.one (card rJ sym_diamond)])
                    (dominant_suit (Scenario.after (Scenario.kitty_set false)
                                                   (firstn 3 Scenario.first_trick)))
                    (dominant_rank (Scenario.after (Scenario.kitty_set false)
                                                   (firstn 3 Scenario.first_trick))))
               = Some NORTH) by (vm_compute; reflexivity).
  assert (P0 : (defender_points (Scenario.after (Scenario.kitty_set false)
                                                (firstn 3 Scenario.first_trick))
                + fold_right Z.add 0
                    (map (total_points Reference.rules)
                         ([Scenario.one (card rA sym_diamond);
                           Scenario.one (card rK sym_diamond);
                           Scenario.one (card rQ sym_diamond)]
                          ++ [Scenario.one (card rJ sym_diamond)])))%Z
               = 10%Z) by (vm_compute; reflexivity).
  destruct (run_action Reference.rules NORTH
              (Scenario.after (Scenario.kitty_set false)
                              (firstn 3 Scenario.first_trick))
              (FollowAction (Scenario.one (card rJ sym_diamond))) EAST)
    as [g' r|g'] eqn:H.
  - destruct (proj2 (trick_points_one_side _ _ _ _ _ _ _ H) _ _ _ eq_refl L eq_refl)
      as (dealer & winner & bonus & D & W & _ & _ & DSide & _).
    rewrite D0 in D. injection D as D. rewrite W0 in W. injection W as W.
    subst dealer winner.
    destruct (DSide (or_introl eq_refl)) as (_ & DP & _).
    cbn [state_of]. rewrite DP. exact P0.
  - exfalso. apply N. reflexivity.
Defined.

Lemma opponent_reward_buckets : forall pts,
  ((pts <= 0 -> opponent_reward pts = -3)
   /\ (0 < pts < 40 -> opponent_reward pts = -2)
   /\ (40 <= pts < 80 -> opponent_reward pts = -1)
   /\ (80 <= pts ->
       opponent_reward pts = 1 + (pts - 80) / 40 /\ 1 <= opponent_reward pts))%Z.
Proof.
  intros pts. unfold opponent_reward.
  destruct (Z.geb_spec pts 80); [|destruct (Z.geb_spec pts 40);
                                   [|destruct (Z.gtb_spec pts 0)]];
    repeat split; intros; try lia.
  assert (0 <= (pts - 80) / 40)%Z by (apply Z.div_pos; lia). lia.
Qed.

(** How a game ends.  Only the card that completes a trick (three groups
    are recorded in the open round before it) and empties the seat's hand
    ends a game.  That call returns no next seat and reward 0; the
    outcome is stored in the two final-reward fields, which are opposite
    numbers.  The value for the side playing against the dealer depends
    on that side's final score alone: -3 for no points, -2 below 40, -1
    from 40 to 79, and from 80 on one more than the number of whole steps
    of 40 above 80. *)
Theorem final_reward_buckets :
  forall rules rnd g a p g' r,
    run_action rules rnd g a p = Returned g' r ->
    game_ended g = false ->
    game_ended g' = true ->
    (exists cs lead previous,
        a = FollowAction cs
        /\ last_opt (round_history g) = Some (lead, previous)
        /\ List.length previous = 3)
    /\ r = (None, 0%Q)
    /\ size (hands g' p) = 0
    /\ exists R : Z,
         final_opponent_reward g' = Some R
         /\ final_defender_reward g' = Some (- R)%Z
         /\ ((opponent_points g' <= 0 -> R = -3)
             /\ (0 < opponent_points g' < 40 -> R = -2)
             /\ (40 <= opponent_points g' < 80 -> R = -1)
             /\ (80 <= opponent_points g' ->
                 R = 1 + (opponent_points g' - 80) / 40 /\ 1 <= R))%Z.
Proof.
  intros rules rnd g a p g' r H E0 E1.
  destruct a as [d| |c n|cards| |d|move|cur move|move|cs];
    try (exfalso;
         match type of H with
         | run_action _ _ _ ?a _ = _ =>
             assert (NF : forall cs, a <> FollowAction cs) by (intros cs; discriminate)
         end;
         destruct (scores_frame _ _ _ _ _ _ _ H NF) as (_ & _ & _ & _ & _ & E);
         congruence).
  cbn [run_action] in H. unfold run_FollowAction in H. cbv zeta in H.
  destruct (last_opt (round_history g)) as [[lead previous]|] eqn:L; [|discriminate].
  destruct (remove_cardset (hands g p) cs) as [h|] eqn:R; [|discriminate].
  fields.
  destruct (remove_cardset (unplayed_cards g) cs) as [u|]; [|discriminate].
  destruct (List.length (previous ++ [cs]) =? 4) eqn:N.
  - apply Nat.eqb_eq in N. rewrite length_app in N. simpl in N.
    apply settle_round_scores in H.
    destruct H as (bonus & _ & Hh & En). fields.
    destruct En as [(E & _)|(_ & Z & Rr & _ & FO & FD)]; [congruence|].
    split; [exists cs, lead, previous; repeat split; lia|].
    split; [exact Rr|]. rewrite Hh. fields. split; [exact Z|].
    exists (opponent_reward (opponent_points g')).
    split; [exact FO|]. split; [exact FD|].
    apply opponent_reward_buckets.
  - inversion H; subst; clear H. fields. congruence.
Qed.

(** The last trick of a game in which the side against the dealer stands
    at 60 points: East's last card ends the game, the dealer wins the
    trick, and the final rewards are -1 and 1. *)
Lemma final_reward_buckets_witness :
  final_opponent_reward
    (state_of (run_action Reference.rules NORTH Scenario.last_trick
                 (FollowAction (Scenario.one (card r5 sym_club))) EAST))
  = Some (-1)%Z
  /\ final_defender_reward
       (state_of (run_action Reference.rules NORTH Scenario.last_trick
                    (FollowAction (Scenario.one (card r5 sym_club))) EAST))
     = Some 1%Z.
Proof.
  assert (P : opponent_points
                (state_of (run_action Reference.rules NORTH Scenario.last_trick
                             (FollowAction (Scenario.one (card r5 sym_club))) EAST))
              = 60%Z) by (vm_compute; reflexivity).
  assert (E : game_ended
                (state_of (run_action Reference.rules NORTH Scenario.last_trick
                             (FollowAction (Scenario.one (card r5 sym_club))) EAST))
              = true) by (vm_compute; reflexivity).
  assert (N : outcome_of (run_action Reference.rules NORTH Scenario.last_trick
                            (FollowAction (Scenario.one (card r5 sym_club))) EAST)
              <> None) by (vm_compute; discriminate).
  destruct (run_action Reference.rules NORTH Scenario.last_trick
              (FollowAction (Scenario.one (card r5 sym_club))) EAST)
    as [g' r|g'] eqn:H.
  - simpl in P, E. simpl.
    destruct (final_reward_buckets _ _ _ _ _ _ _ H eq_refl E)
      as (_ & _ & _ & R & FO & FD & _ & _ & B & _).
    assert (V : R = (-1)%Z) by (apply B; lia).
    rewrite FO, FD, V. split; reflexivity.
  - exfalso. apply N. reflexivity.
Defined.


(** ** Counter-bids *)

(** A counter-bid is accepted without any check: neither the standing
    declaration nor the bidder's hand is looked at, and the call raises
    only when the trump rank is outside 2..14.  A returning counter-bid
    is appended to the declarations, the bidder picks up the whole kitty,
    which is left empty, becomes the kitty's owner and acts next with
    reward 0; the game is back in the kitty stage and the dealer is not
    changed.  The card shown is added to the bidder's public cards, the
    bidder's tally goes up by one, and a bid of level 3 closes the
    counter-bid lap. *)
Theorem chaodi_effects :
  forall rules rnd g d p,
    (outcome_of (run_action rules rnd g (ChaodiAction d) p) = None
     <-> (dominant_rank g < 2 \/ 14 < dominant_rank g)%Z)
    /\ forall g' r,
         run_action rules rnd g (ChaodiAction d) p = Returned g' r ->
         r = (Some p, 0%Q)
         /\ declarations g' = declarations g ++ [d]
         /\ (forall c, hands g' p c = hands g p c + kitty g c)
         /\ (forall q, q <> p -> hands g' q = hands g q)
         /\ (forall c, kitty g' c = 0)
         /\ kitty_owner g' = Some p
         /\ dealer_position g' = dealer_position g
         /\ stage g' = kitty_stage
         /\ chaodi_times g' = incr_at (Z.to_nat (seat_index p)) (chaodi_times g)
         /\ current_chaodi_turn g'
            = (if (level d =? 3)%Z then None else current_chaodi_turn g)
         /\ exists shown count,
              get_card d (dominant_rank g) = Some (shown, count)
              /\ public_cards g' p = add_card (public_cards g p) shown count
              /\ forall q, q <> p -> public_cards g' q = public_cards g q.
Proof.
  intros rules rnd g d p. cbn [run_action]. unfold run_ChaodiAction. fields.
  unfold remove_cardset. rewrite forallb_le_refl. fields.
  assert (GN : get_card d (dominant_rank g) = None
               <-> (dominant_rank g < 2 \/ 14 < dominant_rank g)%Z).
  { unfold get_card. rewrite <- LETTER_RANK_None_iff.
    destruct (LETTER_RANK (dominant_rank g)); split; congruence. }
  destruct (get_card d (dominant_rank g)) as [[shown count]|] eqn:G.
  - split.
    + destruct (level d =? 3)%Z; cbn [outcome_of];
        (split; [discriminate|]); intros B; apply GN in B; discriminate.
    + intros g' r H.
      assert (U : forall A (f : AbsolutePosition -> A) v q,
                 q <> p -> upd f p v q = f q).
      { intros A f v q N. unfold upd. apply pos_eqb_neq in N. rewrite N. reflexivity. }
      destruct (level d =? 3)%Z; inversion H; subst; clear H; fields;
        unfold upd at 1; rewrite pos_eqb_refl;
        repeat (split; [first [ reflexivity
                              | intros q N; apply U; exact N
                              | intros c; apply Nat.sub_diag ]|]);
        exists shown, count; (split; [reflexivity|]);
        (split; [ unfold upd; rewrite pos_eqb_refl; reflexivity
                | intros q N; apply U; exact N ]).
  - split.
    + cbn [outcome_of]. split; [intros _; apply GN; reflexivity | reflexivity].
    + intros g' r H. discriminate.
Qed.

(** West's counter-bid with the pair of twos of clubs: West owns the
    kitty afterwards, although North remains the dealer. *)
Lemma chaodi_effects_witness :
  kitty_owner
    (state_of (run_action Reference.rules NORTH Scenario.counter_bid_time
                 (ChaodiAction Scenario.clubs_pair) WEST))
  = Some WEST.
Proof.
  destruct (run_action Reference.rules NORTH Scenario.counter_bid_time
              (ChaodiAction Scenario.clubs_pair) WEST) as [g' r|g'] eqn:H.
  - destruct (proj2 (chaodi_effects Reference.rules NORTH Scenario.counter_bid_time
                       Scenario.clubs_pair WEST) g' r H)
      as (_ & _ & _ & _ & _ & K & _).
    exact K.
  - exfalso.
    assert (N : outcome_of (run_action Reference.rules NORTH Scenario.counter_bid_time
                  (ChaodiAction Scenario.clubs_pair) WEST) <> None)
      by (vm_compute; discriminate).
    rewrite H in N. apply N. reflexivity.
Defined.

(** The counter-bid lap.  A pass raises when no counter-bid turn is set.
    Otherwise the seat passed as the acting seat is not looked at: the
    turn stored in the game moves on.  Starting with the seat after the
    one that set the kitty, three passes close the lap: the first two
    hand the turn to the next seat and leave the stage alone, the third
    clears the turn, starts the play stage and returns the dealer. *)
Theorem chaodi_lap_closes :
  forall rules rnd g,
    (current_chaodi_turn g = None ->
     forall p, run_action rules rnd g DontChaodiAction p = Raised g)
    /\ forall setter,
         initial_chaodi_position g = Some setter ->
         current_chaodi_turn g = Some (next_position setter) ->
         forall a b c,
         exists g1 g2 g3,
           run_action rules rnd g DontChaodiAction a
           = Returned g1 (Some (next_position (next_position setter)), 0%Q)
           /\ run_action rules rnd g1 DontChaodiAction b
              = Returned g2 (Some (last_position setter), 0%Q)
           /\ run_action rules rnd g2 DontChaodiAction c
              = Returned g3 (dealer_position g, 0%Q)
           /\ stage g1 = stage g /\ stage g2 = stage g
           /\ stage g3 = main_stage
           /\ current_chaodi_turn g3 = None
           /\ hands g3 = hands g /\ kitty g3 = kitty g
           /\ declarations g3 = declarations g.
Proof.
  intros rules rnd g. cbn [run_action]. split.
  - intros N p. unfold run_DontChaodiAction. rewrite N. reflexivity.
  - intros setter I T a b c.
    unfold run_DontChaodiAction at 1. rewrite T, I.
    assert (N1 : opt_pos_eqb (Some (next_position (next_position setter)))
                             (Some setter) = false)
      by (destruct setter; reflexivity).
    assert (N2 : opt_pos_eqb
                   (Some (next_position (next_position (next_position setter))))
                   (Some setter) = false)
      by (destruct setter; reflexivity).
    assert (N3 : opt_pos_eqb
                   (Some (next_position
                            (next_position (next_position (next_position setter)))))
                   (Some setter) = true)
      by (destruct setter; reflexivity).
    assert (L : next_position (next_position (next_position setter))
                = last_position setter) by (destruct setter; reflexivity).
    rewrite N1. fields.
    eexists. eexists. eexists.
    split; [reflexivity|].
    split.
    { unfold run_DontChaodiAction. fields. rewrite I, N2. fields.
      rewrite L. reflexivity. }
    split.
    { unfold run_DontChaodiAction. fields. rewrite I, <- L, N3. fields.
      reflexivity. }
    fields. repeat split; reflexivity.
Qed.

(** After North has set the kitty in the game with a standing
    declaration, three passes return the lead to North, the dealer. *)
Lemma chaodi_lap_closes_witness :
  exists g1 g2 g3,
    run_action Reference.rules NORTH Scenario.counter_bid_time DontChaodiAction WEST
    = Returned g1 (Some SOUTH, 0%Q)
    /\ run_action Reference.rules NORTH g1 DontChaodiAction SOUTH
       = Returned g2 (Some EAST, 0%Q)
    /\ run_action Reference.rules NORTH g2 DontChaodiAction EAST
       = Returned g3 (Some NORTH, 0%Q)
    /\ stage g3 = main_stage.
Proof.
  assert (I : initial_chaodi_position Scenario.counter_bid_time = Some NORTH)
    by (vm_compute; reflexivity).
  assert (T : current_chaodi_turn Scenario.counter_bid_time
              = Some (next_position NORTH))
    by (vm_compute; reflexivity).
  assert (D : dealer_position Scenario.counter_bid_time = Some NORTH)
    by (vm_compute; reflexivity).
  destruct (proj2 (chaodi_lap_closes Reference.rules NORTH Scenario.counter_bid_time)
              NORTH I T WEST SOUTH EAST)
    as (g1 & g2 & g3 & A & B & C & _ & _ & S & _).
  exists g1, g2, g3. rewrite D in C.
  split; [exact A|]. split; [exact B|]. split; [exact C|exact S].
Defined.


(** ** Observations *)

(** The observation never reads the score of the dealer's side: changing
    [defender_points] changes nothing in it, and both score fields of an
    observation carry [opponent_points]. *)
Theorem observation_ignores_defender_points :
  forall rules g position v,
    get_observation rules (set_defender_points v g) position
    = get_observation rules g position
    /\ forall o,
         get_observation rules g position = Some o ->
         Observation.defender_points o = opponent_points g
         /\ Observation.opponent_points o = opponent_points g.
Proof.
  intros rules g position v. split.
  - reflexivity.
  - intros o H. unfold get_observation in H.
    destruct (compute_actions rules g position); [|discriminate].
    inversion H; subst; clear H. split; reflexivity.
Qed.

Lemma get_observation_None : forall rules g position,
  get_observation rules g position = None ->
  compute_actions rules g position = None.
Proof.
  intros rules g position H. unfold get_observation in H.
  destruct (compute_actions rules g position); [discriminate H|reflexivity].
Qed.

(** After the first trick the dealer's side has 10 points and the other
    side none; North's observation shows 0 in both score fields. *)
Lemma observation_ignores_defender_points_witness :
  defender_points Scenario.after_first_trick = 10%Z
  /\ option_map Observation.defender_points
       (get_observation Reference.rules Scenario.after_first_trick NORTH)
     = Some 0%Z.
Proof.
  split; [vm_compute; reflexivity|].
  assert (P : opponent_points Scenario.after_first_trick = 0%Z)
    by (vm_compute; reflexivity).
  assert (N : compute_actions Reference.rules Scenario.after_first_trick NORTH
              <> None) by (vm_compute; discriminate).
  destruct (get_observation Reference.rules Scenario.after_first_trick NORTH)
    as [o|] eqn:H.
  - destruct (proj2 (observation_ignores_defender_points Reference.rules
                       Scenario.after_first_trick NORTH 0%Z) o H) as (D & _).
    cbn [option_map]. rewrite D, P. reflexivity.
  - exfalso. apply N. apply get_observation_None. exact H.
Defined.

Lemma compute_actions_other_hands : forall rules g position q h,
  q <> position ->
  compute_actions rules (set_hands (upd (hands g) q h) g) position
  = compute_actions rules g position.
Proof.
  intros rules g position q h N.
  assert (E : pos_eqb position q = false) by (apply pos_eqb_neq; congruence).
  unfold compute_actions, dominant_suit, may_declare. fields.
  unfold upd. rewrite E. reflexivity.
Qed.

(** What an observation tells about the other seats' hands.  Apart from
    the three [actual_*] fields nothing in it depends on them: replacing
    another seat's hand leaves the rest of the observation, the offered
    actions included, as it was.  The three fields are the other seats'
    hands themselves, so two games with the same observation for a seat
    agree on every other seat's hand. *)
Theorem observation_other_hands :
  forall rules position,
    (forall g q h,
        q <> position ->
        option_map without_actual_hands
          (get_observation rules (set_hands (upd (hands g) q h) g) position)
        = option_map without_actual_hands (get_observation rules g position))
    /\ (forall g1 g2 o,
           get_observation rules g1 position = Some o ->
           get_observation rules g2 position = Some o ->
           forall q, q <> position -> hands g1 q = hands g2 q).
Proof.
  intros rules position. split.
  - intros g q h N. unfold get_observation.
    rewrite (compute_actions_other_hands rules g position q h N).
    destruct (compute_actions rules g position) as [actions|]; [|reflexivity].
    assert (E : pos_eqb position q = false) by (apply pos_eqb_neq; congruence).
    cbn [option_map]. unfold without_actual_hands. cbn. fields.
    unfold upd. rewrite E. reflexivity.
  - intros g1 g2 o H1 H2 q N. unfold get_observation in H1, H2.
    destruct (compute_actions rules g1 position); [|discriminate].
    destruct (compute_actions rules g2 position); [|discriminate].
    injection H1 as E1. injection H2 as E2.
    pose proof (f_equal Observation.actual_left E1) as L1.
    pose proof (f_equal Observation.actual_right E1) as R1.
    pose proof (f_equal Observation.actual_opposite E1) as O1.
    pose proof (f_equal Observation.actual_left E2) as L2.
    pose proof (f_equal Observation.actual_right E2) as R2.
    pose proof (f_equal Observation.actual_opposite E2) as O2.
    clear E1 E2.
    cbn [Observation.actual_left Observation.actual_right
         Observation.actual_opposite] in *.
    unfold copy in *.
    destruct position, q; try congruence;
      cbn [last_position next_position] in *; congruence.
Qed.

(** Emptying West's hand changes nothing North can see outside the three
    [actual_*] fields. *)
Lemma observation_other_hands_witness :
  option_map without_actual_hands
    (get_observation Reference.rules
       (set_hands (upd (hands (Scenario.kitty_set false)) WEST CardSet_empty)
                  (Scenario.kitty_set false)) NORTH)
  = option_map without_actual_hands
      (get_observation Reference.rules (Scenario.kitty_set false) NORTH).
Proof.
  apply (proj1 (observation_other_hands Reference.rules NORTH)). discriminate.
Defined.


(** ** Offered actions *)

Lemma TrumpSuit_eqb_eq : forall a b, TrumpSuit.eqb a b = true <-> a = b.
Proof. intros [] []; cbv; split; congruence. Qed.

(** In the declare stage every seat gets an observation at any time, and
    its last offered action is the pass.  A warm-up game offers nothing
    else.  Every other offer is a declaration in the observer's name,
    taken from the options of the observer's hand, whose level is above
    the standing declaration's, so that it passes the level check of
    [run_action]; and a seat is never offered to replace its own standing
    declaration by another suit. *)
Theorem declare_stage_offers :
  forall rules g position,
    stage g = declare_stage ->
    exists offered,
      compute_actions rules g position = Some (offered ++ [DontDeclareAction])
      /\ (is_warmup_game g = true -> offered = [])
      /\ forall a,
           In a offered ->
           exists d,
             a = DeclareAction d
             /\ absolute_position d = position
             /\ In (suit d, level d)
                   (trump_declaration_options rules (hands g position)
                                              (dominant_rank g))
             /\ level_increases g d = true
             /\ forall standing,
                  last_opt (declarations g) = Some standing ->
                  suit standing = suit d
                  \/ absolute_position standing <> position.
Proof.
  intros rules g position S. unfold compute_actions. rewrite S.
  cbn [stage_eqb].
  match goal with
  | |- context [Some (?l ++ [DontDeclareAction])] => exists l
  end.
  split.
  { match goal with
    | |- context [Some (?l ++ [DontDeclareAction])] => destruct l; reflexivity
    end. }
  split.
  - intros W. rewrite W. reflexivity.
  - intros a I. destruct (is_warmup_game g); cbn [negb] in I; [destruct I|].
    apply in_flat_map in I. destruct I as ([s l] & O & I).
    destruct (may_declare g position s l) eqn:M; [|destruct I].
    destruct I as [I|[]]. subst a.
    exists (new_Declaration s l position).
    split; [reflexivity|]. split; [reflexivity|]. split; [exact O|].
    unfold may_declare in M. unfold level_increases. cbn [level suit new_Declaration].
    destruct (last_opt (declarations g)) as [standing|].
    + apply andb_true_iff in M. destruct M as (L & C). split; [exact L|].
      intros st E. inversion E; subst st.
      apply orb_true_iff in C. destruct C as [C|C].
      * left. apply TrumpSuit_eqb_eq. exact C.
      * right. apply negb_true_iff in C. apply pos_eqb_neq. exact C.
    + split; [reflexivity|]. intros st E. discriminate E.
Qed.

(** West's observation right after North declared hearts ends with the
    pass. *)
Lemma declare_stage_offers_witness :
  exists offered,
    compute_actions Reference.rules Scenario.hearts_declared WEST
    = Some (offered ++ [DontDeclareAction]).
Proof.
  assert (S : stage Scenario.hearts_declared = declare_stage)
    by (vm_compute; reflexivity).
  destruct (declare_stage_offers Reference.rules Scenario.hearts_declared WEST S)
    as (offered & E & _).
  exists offered. exact E.
Defined.




(** Outside the declare stage, a seat that holds at most 25 cards and
    whose counter-bid turn it is gets an observation whose last offered
    action is the pass.  Nothing else is offered when counter-bids are
    disabled or nothing was declared.  Every other offer is a counter-bid
    in the observer's name, taken from the options of the observer's
    hand, that ranks strictly above the standing declaration in the
    counter-bid order; such a bid is a pair or better. *)
Theorem chaodi_offers :
  forall rules g position,
    stage g <> declare_stage ->
    size (hands g position) <= 25 ->
    current_chaodi_turn g = Some position ->
    exists offered,
      compute_actions rules g position = Some (offered ++ [DontChaodiAction])
      /\ (enable_chaodi g = false \/ declarations g = [] -> offered = [])
      /\ forall a,
           In a offered ->
           exists d standing,
             a = ChaodiAction d
             /\ absolute_position d = position
             /\ In (suit d, level d)
                   (trump_declaration_options rules (hands g position)
                                              (dominant_rank g))
             /\ last_opt (declarations g) = Some standing
             /\ (chaodi_level (suit standing) (level standing)
                 < chaodi_level (suit d) (level d))%Z
             /\ (1 <= level d)%Z.
Proof.
  intros rules g position S B T. unfold compute_actions.
  assert (SE : stage_eqb (stage g) declare_stage = false)
    by (destruct (stage g); try reflexivity; congruence).
  assert (BE : (25 <? size (hands g position)) = false)
    by (apply Nat.ltb_ge; exact B).
  rewrite SE, BE, T. cbn [opt_pos_eqb]. rewrite pos_eqb_refl.
  match goal with
  | |- context [Some (?l ++ [DontChaodiAction])] => exists l
  end.
  split.
  { match goal with
    | |- context [Some (?l ++ [DontChaodiAction])] => destruct l; reflexivity
    end. }
  split.
  - intros [E|E]; rewrite E; [reflexivity|].
    rewrite andb_false_r. reflexivity.
  - intros a I.
    destruct (enable_chaodi g
              && match declarations g with [] => false | _ :: _ => true end);
      [|destruct I].
    apply in_flat_map in I. destruct I as ([s l] & O & I).
    destruct (last_opt (declarations g)) as [standing|]; [|destruct I].
    destruct (Z.gtb_spec (chaodi_level s l)
                         (chaodi_level (suit standing) (level standing)))
      as [G|G]; [|destruct I].
    destruct I as [I|[]]. subst a.
    exists (new_Declaration s l position), standing.
    cbn [suit level absolute_position new_Declaration].
    repeat split; try assumption.
    unfold chaodi_level in G.
    destruct (Z.geb_spec l 1); [lia|].
    destruct (level standing >=? 1)%Z; destruct (suit standing); lia.
Qed.

(** West is first to speak in the counter-bid lap after North's
    declaration of a pair of diamonds; the observation ends with the
    pass. *)
Lemma chaodi_offers_witness :
  exists offered,
    compute_actions Reference.rules Scenario.counter_bid_time WEST
    = Some (offered ++ [DontChaodiAction]).
Proof.
  assert (S : stage Scenario.counter_bid_time <> declare_stage)
    by (vm_compute; discriminate).
  assert (B : size (hands Scenario.counter_bid_time WEST) <= 25)
    by (vm_compute; lia).
  assert (T : current_chaodi_turn Scenario.counter_bid_time = Some WEST)
    by (vm_compute; reflexivity).
  destruct (chaodi_offers Reference.rules Scenario.counter_bid_time WEST S B T)
    as (offered & E & _).
  exists offered. exact E.
Defined.



(** ** The unplayed cards *)

Lemma seat_sum_upd : forall (d : AbsolutePosition -> CardSet) p v c,
  list_sum (map (fun q => upd d p v q c) [NORTH; SOUTH; WEST; EAST]) + d p c
  = list_sum (map (fun q => d q c) [NORTH; SOUTH; WEST; EAST]) + v c.
Proof.
  intros d p v c. unfold upd.
  destruct p; cbn [list_sum fold_right map pos_eqb]; lia.
Qed.

Lemma Card_eqb_sym : forall a b, Card_eqb a b = Card_eqb b a.
Proof.
  intros a b. destruct (Card_eqb a b) eqn:E.
  - apply Card_eqb_eq in E. subst. symmetry. apply Card_eqb_refl.
  - destruct (Card_eqb b a) eqn:F; [|reflexivity].
    apply Card_eqb_eq in F. subst. rewrite Card_eqb_refl in E. discriminate.
Qed.

Lemma occurrences_cons : forall c x l,
  occurrences c (x :: l) = (if Card_eqb x c then 1 else 0) + occurrences c l.
Proof.
  intros c x l. unfold occurrences. cbn [filter].
  destruct (Card_eqb x c); reflexivity.
Qed.

Lemma deal_all_count : forall l h c,
  fold_left (fun h x => add_card h x 1) l h c = h c + occurrences c l.
Proof.
  induction l as [|x l IH]; intros h c.
  - unfold occurrences. simpl. lia.
  - cbn [fold_left]. rewrite IH, occurrences_cons. unfold add_card.
    rewrite (Card_eqb_sym c x). destruct (Card_eqb x c); lia.
Qed.

Lemma draw_card_tracks : forall g seat g',
  draw_card g seat = Some g' ->
  unplayed_cards g' = unplayed_cards g
  /\ forall c, copies_held g' c = copies_held g c.
Proof.
  intros g seat g' H. unfold draw_card in H.
  destruct (deck g) as [|x rest] eqn:D; [discriminate|].
  inversion H; subst; clear H. split; [reflexivity|].
  intros c. unfold copies_held. fields. rewrite D, occurrences_cons.
  pose proof (seat_sum_upd (hands g) seat (add_card (hands g seat) x 1) c) as E.
  unfold add_card in E at 2. rewrite (Card_eqb_sym c x) in E.
  destruct (Card_eqb x c); lia.
Qed.

Lemma remove_cardset_count : forall a b a',
  remove_cardset a b = Some a' -> forall c, b c <= a c /\ a' c = a c - b c.
Proof.
  intros a b a' H c. unfold remove_cardset in H.
  destruct (forallb (fun c => b c <=? a c) ORDERING) eqn:E; [|discriminate].
  inversion H; subst; clear H.
  rewrite forallb_forall in E. specialize (E c (ORDERING_complete c)).
  apply Nat.leb_le in E. split; [exact E|reflexivity].
Qed.

(** The settlement of a trick moves no card. *)
Lemma settle_round_holdings : forall rules g lead moves p g' r,
  settle_round rules g lead moves p = Returned g' r ->
  hands g' = hands g /\ unplayed_cards g' = unplayed_cards g
  /\ kitty g' = kitty g /\ deck g' = deck g.
Proof.
  intros rules g lead moves p g' r H. unfold settle_round in H. cbv zeta in H.
  destruct (dealer_position g) as [dealer|]; [|discriminate].
  destruct (index_of dealer _) as [dealer_index|]; [|discriminate].
  destruct (nth_error _ (round_winner rules moves (dominant_suit g) (dominant_rank g)))
    as [new_leading_position|]; [|discriminate].
  destruct ((round_winner rules moves (dominant_suit g) (dominant_rank g) =? dealer_index)
            || ((round_winner rules moves (dominant_suit g) (dominant_rank g) + 2) mod 4
                =? dealer_index)); fields.
  - destruct (size (hands g p) =? 0).
    + simpl negb in H. cbv iota in H. fields.
      inversion H; subst; clear H. repeat split.
    + inversion H; subst; clear H. repeat split.
  - destruct (size (hands g p) =? 0).
    + simpl negb in H. cbv iota in H.
      destruct (nth_error moves _) as [winning|]; [|discriminate]. fields.
      inversion H; subst; clear H. repeat split.
    + inversion H; subst; clear H. repeat split.
Qed.

(** One returning action keeps the agreement between [unplayed_cards]
    and the copies held. *)
Lemma run_action_tracks : forall rules rnd g a p g' r,
  run_action rules rnd g a p = Returned g' r ->
  (forall c, unplayed_cards g c = copies_held g c) ->
  forall c, unplayed_cards g' c = copies_held g' c.
Proof.
  intros rules rnd g a p g' r H I c. specialize (I c).
  destruct a as [d| |x n|cards| |d|move|cur move|move|cs]; cbn [run_action] in H.
  - unfold run_DeclareAction in H. cbv zeta in H.
    destruct (level_increases g d); [|discriminate]. simpl negb in H.
    destruct (match dealer_position g with Some _ => false | None => true end
              || is_initial_game g);
      fields; returned H;
      repeat match goal with
             | D : draw_card _ _ = Some _ |- _ =>
                 apply draw_card_tracks in D; destruct D as (U & C);
                 specialize (C c)
             end;
      unfold copies_held in *; fields; congruence.
  - unfold run_DontDeclareAction in H.
    destruct (opt_pos_eqb (current_declaration_turn g) (Some p)).
    + destruct (opt_pos_eqb (Some (next_position p)) (initial_declaration_position g)).
      * inversion H; subst; clear H.
        unfold copies_held in *. fields.
        set (dl := match dealer_position g with Some d => d | None => rnd end).
        pose proof (seat_sum_upd (hands g) dl
          (fold_left (fun h x => add_card h x 1) (deck g) (hands g dl)) c) as E.
        rewrite deal_all_count in E.
        change (occurrences c []) with 0. lia.
      * destruct (current_declaration_turn g); [|discriminate].
        inversion H; subst; clear H. exact I.
    + destruct (hands_total g <? 100).
      * destruct (size (hands g (next_position p)) <? 25); [|discriminate].
        destruct (draw_card g (next_position p)) eqn:D; [|discriminate].
        inversion H; subst; clear H.
        apply draw_card_tracks in D. destruct D as (U & C). rewrite U, C. exact I.
      * inversion H; subst; clear H. exact I.
  - unfold run_PlaceKittyAction in H. cbv zeta in H. fields.
    destruct (size (kitty g) <? 8); [|discriminate]. simpl negb in H.
    destruct (remove_card (hands g p) x 1) as [after|] eqn:R; [|discriminate].
    unfold remove_card in R.
    destruct (Nat.leb_spec 1 (hands g p x)) as [L|]; [|discriminate].
    inversion R; subst after; clear R.
    pose proof (seat_sum_upd (hands g) p
      (fun c' => if Card_eqb c' x then hands g p c' - 1 else hands g p c') c) as E.
    cbv beta in E.
    assert (K : add_card (kitty g) x 1 c
                = kitty g c + (if Card_eqb c x then 1 else 0))
      by (unfold add_card; destruct (Card_eqb c x); lia).
    assert (L' : Card_eqb c x = true -> 1 <= hands g p c)
      by (intros Q; apply Card_eqb_eq in Q; subst; exact L).
    unfold open_first_round in H. fields.
    destruct (size (add_card (kitty g) x 1) =? 8).
    + destruct (round_history g); fields;
        destruct (enable_chaodi g); cbn [negb] in H;
        inversion H; subst; clear H;
        unfold copies_held in *; fields; rewrite K;
        destruct (Card_eqb c x); try specialize (L' eq_refl); lia.
    + inversion H; subst; clear H.
      unfold copies_held in *; fields; rewrite K;
        destruct (Card_eqb c x); try specialize (L' eq_refl); lia.
  - unfold run_PlaceAllKittyAction in H. cbv zeta in H. fields.
    destruct (remove_cardset (hands g p) cards) as [after|] eqn:R; [|discriminate].
    destruct (remove_cardset_count _ _ _ R c) as (L & A).
    pose proof (seat_sum_upd (hands g) p after c) as E.
    unfold open_first_round in H. fields.
    destruct (round_history g); fields;
      destruct (negb (enable_chaodi g)
                || match declarations g with [] => true | _ :: _ => false end);
      inversion H; subst; clear H;
      unfold copies_held in *; fields; unfold add_cardset; lia.
  - unfold run_DontChaodiAction in H. returned H; exact I.
  - unfold run_ChaodiAction in H.
    destruct (remove_cardset _ _) as [emptied|] eqn:R in H; [|discriminate].
    destruct (get_card _ _) as [[shown count]|] in H; [|discriminate].
    cbn [kitty set_hands set_declarations] in R.
    destruct (remove_cardset_count _ _ _ R c) as (_ & A).
    pose proof (seat_sum_upd (hands g) p (add_cardset (hands g p) (kitty g)) c) as E.
    assert (AC : add_cardset (hands g p) (kitty g) c = hands g p c + kitty g c)
      by reflexivity.
    destruct (level d =? 3)%Z; inversion H; subst; clear H;
      unfold copies_held in *; fields; lia.
  - unfold run_LeadAction in H.
    destruct (round_history g) as [|r0 rh] eqn:RH; [discriminate|].
    inversion H; subst; clear H. exact I.
  - unfold run_AppendLeadAction in H. returned H; exact I.
  - unfold run_EndLeadAction in H. cbv zeta in H.
    destruct (is_legal_combo rules move _ (dominant_suit g) (dominant_rank g))
      as [is_legal penalty_move].
    destruct is_legal.
    + destruct (last_opt (round_history g)) as [[leader moves]|]; [|discriminate].
      destruct moves; fields;
        (destruct (remove_cardset (hands g p) (cardset move)) as [h|] eqn:R1;
         [|discriminate]);
        (destruct (remove_cardset (unplayed_cards g) (cardset move)) as [u|] eqn:R2;
         [|discriminate]);
        destruct (remove_cardset_count _ _ _ R1 c) as (L1 & A1);
        destruct (remove_cardset_count _ _ _ R2 c) as (L2 & A2);
        pose proof (seat_sum_upd (hands g) p h c) as E;
        inversion H; subst; clear H;
        unfold copies_held in *; fields; lia.
    + destruct (last_opt (round_history g)) as [[leader [|m moves]]|];
        try discriminate.
      fields.
      destruct (remove_cardset (hands g p) penalty_move) as [h|] eqn:R1;
        [|discriminate].
      destruct (remove_cardset (unplayed_cards g) penalty_move) as [u|] eqn:R2;
        [|discriminate].
      destruct (remove_cardset (cardset move) penalty_move); [|discriminate].
      destruct (remove_cardset_count _ _ _ R1 c) as (L1 & A1).
      destruct (remove_cardset_count _ _ _ R2 c) as (L2 & A2).
      pose proof (seat_sum_upd (hands g) p h c) as E.
      inversion H; subst; clear H.
      unfold copies_held in *. fields. lia.
  - unfold run_FollowAction in H. cbv zeta in H.
    destruct (last_opt (round_history g)) as [[lead previous]|]; [|discriminate].
    destruct (remove_cardset (hands g p) cs) as [h|] eqn:R1; [|discriminate].
    fields.
    destruct (remove_cardset (unplayed_cards g) cs) as [u|] eqn:R2; [|discriminate].
    destruct (remove_cardset_count _ _ _ R1 c) as (L1 & A1).
    destruct (remove_cardset_count _ _ _ R2 c) as (L2 & A2).
    pose proof (seat_sum_upd (hands g) p h c) as E.
    assert (G : forall g1, hands g1 = upd (hands g) p h -> unplayed_cards g1 = u ->
                kitty g1 = kitty g -> deck g1 = deck g ->
                unplayed_cards g1 c = copies_held g1 c).
    { intros g1 E1 E2 E3 E4. unfold copies_held in *. rewrite E1, E2, E3, E4. lia. }
    destruct (List.length (previous ++ [cs]) =? 4).
    + apply settle_round_holdings in H. destruct H as (E1 & E2 & E3 & E4).
      apply G; [rewrite E1|rewrite E2|rewrite E3|rewrite E4]; reflexivity.
    + inversion H; subst; clear H. apply G; reflexivity.
Qed.

(** [unplayed_cards] is kept in step with the cards themselves.  In a
    game constructed on a deck holding every card twice, in every state
    reached by [start_game] and by returning actions of any kind, in any
    order and by any seat, the count [unplayed_cards] gives for a card is
    the number of its copies in the four hands, the kitty and the undealt
    deck.  A start-lead or extend-lead, which records a group without
    taking it from the hand, does not disturb this. *)
Theorem unplayed_cards_tracks_holdings :
  forall rules dr dealer chaodi combos cards warm ov cp ca g,
    (forall c, occurrences c cards = 2) ->
    reachable rules any_action
              (new_Game dr dealer chaodi combos cards warm ov cp ca) g ->
    forall c, unplayed_cards g c = copies_held g c.
Proof.
  intros rules dr dealer chaodi combos cards warm ov cp ca g L R.
  induction R as [|rnd g g' first R IH S|rnd g a p g' r R IH C S].
  - intros c. unfold copies_held, new_Game.
    cbn [hands kitty deck unplayed_cards]. rewrite L. reflexivity.
  - intros c. unfold start_game in S.
    destruct (draw_card g _) as [g1|] eqn:D; [|discriminate].
    inversion S; subst; clear S.
    apply draw_card_tracks in D. destruct D as (U & K). rewrite U, K. apply IH.
  - eapply run_action_tracks; eassumption.
Qed.

(** With combos enabled, North has started a lead with the ace of
    diamonds: the ace is recorded in the round history and still in
    North's hand, and the unplayed count of the ace is still the two
    copies held. *)
Lemma unplayed_cards_tracks_holdings_witness :
  unplayed_cards Scenario.lead_started (card rA sym_diamond)
  = copies_held Scenario.lead_started (card rA sym_diamond).
Proof.
  apply (unplayed_cards_tracks_holdings Reference.rules 2%Z (Some NORTH) true true
           Scenario.standard_deck false 0%Q 0.1%Q false).
  - intros [| |[] []]; reflexivity.
  - unfold Scenario.lead_started, Scenario.kitty_set, Scenario.kitty_time,
      Scenario.started.
    repeat (apply after_reachable; [intros; exact I|]).
    apply (started_reachable Reference.rules any_action NORTH (Scenario.fresh true)).
Defined.


(** ** The reward of a discard *)

Lemma CardSuit_eqb_eq : forall a b, CardSuit.eqb a b = true <-> a = b.
Proof. intros [] []; cbv; split; congruence. Qed.

Lemma occurrences_filter : forall (P : Card -> bool) c l,
  occurrences c (filter P l) = if P c then occurrences c l else 0.
Proof.
  intros P c l. induction l as [|x l IH].
  - unfold occurrences. simpl. destruct (P c); reflexivity.
  - cbn [filter]. destruct (P x) eqn:Px.
    + rewrite !occurrences_cons, IH.
      destruct (Card_eqb x c) eqn:E.
      * apply Card_eqb_eq in E. subst x. rewrite Px. reflexivity.
      * destruct (P c); reflexivity.
    + rewrite occurrences_cons, IH.
      destruct (Card_eqb x c) eqn:E.
      * apply Card_eqb_eq in E. subst x. rewrite Px. reflexivity.
      * reflexivity.
Qed.

(** Removing one copy of a card lowers the count of the card's own
    effective suit by one and leaves the other suits alone. *)
Lemma count_suit_remove_card : forall h c h' s ds dr,
  remove_card h c 1 = Some h' ->
  count_suit h' s ds dr + (if CardSuit.eqb (get_suit c ds dr) s then 1 else 0)
  = count_suit h s ds dr.
Proof.
  intros h c h' s ds dr R. unfold remove_card in R.
  destruct (Nat.leb_spec 1 (h c)) as [L|]; [|discriminate].
  inversion R; subst h'; clear R. unfold count_suit.
  pose proof (sum_remove_card
                (filter (fun c0 => CardSuit.eqb (get_suit c0 ds dr) s) ORDERING)
                h c 1 L) as E.
  rewrite occurrences_filter, occurrences_ORDERING in E.
  destruct (CardSuit.eqb (get_suit c ds dr) s); lia.
Qed.

Lemma get_rank_15_trump : forall c ds dr,
  (2 <= dr <= 14)%Z ->
  (15 <= get_rank c ds dr)%Z ->
  get_suit c ds dr = CardSuit.TRUMP.
Proof.
  intros c ds dr R H. destruct c as [| |r s]; [reflexivity|reflexivity|].
  pose proof (NUMERIC_RANK_range r) as Hr.
  unfold get_rank in H. unfold get_suit.
  destruct (Z.eqb_spec (NUMERIC_RANK r) dr) as [E|N]; [reflexivity|].
  simpl in H. destruct (Z.ltb_spec (NUMERIC_RANK r) dr); lia.
Qed.

(** The reward computed for a discard, in closed form.  With the trump
    rank in 2..14 it takes one of four values: -1.5 for a joker or a card
    of the trump rank, -0.5 for any other trump, 0.2 for the last card
    the hand held of a side suit, and 0 for any other side-suit card. *)
Theorem kitty_discard_reward_values :
  forall before after c ds dr,
    (2 <= dr <= 14)%Z ->
    remove_card before c 1 = Some after ->
    (kitty_discard_reward before after c ds dr
     == if (15 <=? get_rank c ds dr)%Z then -1.5
        else if CardSuit.eqb (get_suit c ds dr) CardSuit.TRUMP then -0.5
        else if count_suit before (get_suit c ds dr) ds dr =? 1 then 0.2
        else 0)%Q.
Proof.
  intros before after c ds dr Hdr R.
  pose proof (count_suit_remove_card before c after CardSuit.CLUB ds dr R) as EC.
  pose proof (count_suit_remove_card before c after CardSuit.DIAMOND ds dr R) as ED.
  pose proof (count_suit_remove_card before c after CardSuit.HEART ds dr R) as EH.
  pose proof (count_suit_remove_card before c after CardSuit.SPADE ds dr R) as ES.
  pose proof (count_suit_remove_card before c after CardSuit.TRUMP ds dr R) as ET.
  pose proof (get_rank_15_trump c ds dr Hdr) as HT.
  unfold kitty_discard_reward, suit_count. cbv zeta. cbn [filter].
  replace (get_rank c ds dr >=? 15)%Z with (15 <=? get_rank c ds dr)%Z
    by (rewrite Z.geb_leb; reflexivity).
  destruct (Z.leb_spec 15 (get_rank c ds dr)) as [G|G].
  - rewrite (HT G) in *.
    cbv [CardSuit.eqb CardSuit.value String.eqb Ascii.eqb Bool.eqb] in EC, ED, EH, ES, ET.
    assert (XC : count_suit after CardSuit.CLUB ds dr
                 = count_suit before CardSuit.CLUB ds dr) by lia.
    assert (XD : count_suit after CardSuit.DIAMOND ds dr
                 = count_suit before CardSuit.DIAMOND ds dr) by lia.
    assert (XH : count_suit after CardSuit.HEART ds dr
                 = count_suit before CardSuit.HEART ds dr) by lia.
    assert (XS : count_suit after CardSuit.SPADE ds dr
                 = count_suit before CardSuit.SPADE ds dr) by lia.
    rewrite XC, XD, XH, XS, Z.sub_diag.
    assert (LT : (count_suit after CardSuit.TRUMP ds dr
                  <? count_suit before CardSuit.TRUMP ds dr) = true)
      by (apply Nat.ltb_lt; lia).
    rewrite LT. reflexivity.
  - clear HT.
    destruct (get_suit c ds dr) eqn:S;
      cbv [CardSuit.eqb CardSuit.value String.eqb Ascii.eqb Bool.eqb]
        in EC, ED, EH, ES, ET |- *;
      match goal with
      | |- context [(count_suit after CardSuit.TRUMP ds dr
                     <? count_suit before CardSuit.TRUMP ds dr)] =>
          destruct (Nat.ltb_spec (count_suit after CardSuit.TRUMP ds dr)
                                 (count_suit before CardSuit.TRUMP ds dr));
          try lia
      end;
      destruct (Nat.ltb_spec 0 (count_suit before CardSuit.CLUB ds dr));
      destruct (Nat.ltb_spec 0 (count_suit after CardSuit.CLUB ds dr)); try lia;
      destruct (Nat.ltb_spec 0 (count_suit before CardSuit.DIAMOND ds dr));
      destruct (Nat.ltb_spec 0 (count_suit after CardSuit.DIAMOND ds dr)); try lia;
      destruct (Nat.ltb_spec 0 (count_suit before CardSuit.HEART ds dr));
      destruct (Nat.ltb_spec 0 (count_suit after CardSuit.HEART ds dr)); try lia;
      destruct (Nat.ltb_spec 0 (count_suit before CardSuit.SPADE ds dr));
      destruct (Nat.ltb_spec 0 (count_suit after CardSuit.SPADE ds dr)); try lia;
      try match goal with
          | |- context [count_suit before ?s ds dr =? 1] =>
              destruct (Nat.eqb_spec (count_suit before s ds dr) 1); try lia
          end;
      reflexivity.
Qed.

(** Two discards from a hand holding the three of clubs and the big
    joker, with trump rank 2: the club, the hand's last, earns 0.2; the
    joker costs 1.5. *)
Lemma kitty_discard_reward_values_witness :
  Qeq
    (kitty_discard_reward
     (cardset_of_list [card r3 sym_club; card_DJ])
     (fun c' => if Card_eqb c' (card r3 sym_club)
                then cardset_of_list [card r3 sym_club; card_DJ] c' - 1
                else cardset_of_list [card r3 sym_club; card_DJ] c')
     (card r3 sym_club) TrumpSuit.XJ 2) 0.2%Q
  /\ Qeq
       (kitty_discard_reward
        (cardset_of_list [card r3 sym_club; card_DJ])
        (fun c' => if Card_eqb c' card_DJ
                   then cardset_of_list [card r3 sym_club; card_DJ] c' - 1
                   else cardset_of_list [card r3 sym_club; card_DJ] c')
        card_DJ TrumpSuit.XJ 2) (-1.5)%Q.
Proof.
  assert (R : (2 <= 2 <= 14)%Z) by lia.
  split.
  - exact (kitty_discard_reward_values
             (cardset_of_list [card r3 sym_club; card_DJ]) _
             (card r3 sym_club) TrumpSuit.XJ 2 R eq_refl).
  - exact (kitty_discard_reward_values
             (cardset_of_list [card r3 sym_club; card_DJ]) _
             card_DJ TrumpSuit.XJ 2 R eq_refl).
Defined.


(** ** Leading *)

Lemma upd_same : forall A (d : AbsolutePosition -> A) p v, upd d p v p = v.
Proof. intros. unfold upd. rewrite pos_eqb_refl. reflexivity. Qed.

Lemma upd_other : forall A (d : AbsolutePosition -> A) p v q,
  q <> p -> upd d p v q = d q.
Proof.
  intros A d p v q N. unfold upd. apply pos_eqb_neq in N. rewrite N. reflexivity.
Qed.

(** A start-lead or an extend-lead only writes the round history and the
    counter of consecutive moves.  The start-lead appends its group to
    the open round and sets the counter to 1; the extend-lead replaces
    the first group of the open round and adds 1 to the counter, and
    raises when the round is still empty.  Neither checks the hand: the
    cards stay where they are, the same seat acts again and the reward is
    0. *)
Theorem tentative_lead_effects :
  forall rules rnd g move p leader moves,
    last_opt (round_history g) = Some (leader, moves) ->
    (exists g',
        run_action rules rnd g (LeadAction move) p = Returned g' (Some p, 0%Q)
        /\ last_opt (round_history g') = Some (leader, moves ++ [cardset move])
        /\ consecutive_moves g' = 1%Z
        /\ hands g' = hands g /\ unplayed_cards g' = unplayed_cards g
        /\ public_cards g' = public_cards g)
    /\ (forall current,
           moves = [] ->
           run_action rules rnd g (AppendLeadAction current move) p = Raised g)
    /\ (forall current first rest,
           moves = first :: rest ->
           exists g',
             run_action rules rnd g (AppendLeadAction current move) p
             = Returned g' (Some p, 0%Q)
             /\ last_opt (round_history g') = Some (leader, cardset move :: rest)
             /\ consecutive_moves g' = (consecutive_moves g + 1)%Z
             /\ hands g' = hands g /\ unplayed_cards g' = unplayed_cards g
             /\ public_cards g' = public_cards g).
Proof.
  intros rules rnd g move p leader moves L. cbn [run_action].
  split; [|split].
  - unfold run_LeadAction.
    destruct (round_history g) as [|r0 rh] eqn:RH; [discriminate L|].
    rewrite <- RH in *.
    eexists. split; [reflexivity|]. fields.
    split; [|repeat split].
    rewrite (last_opt_upd_last _ _ _ _ L). reflexivity.
  - intros current E. subst moves. unfold run_AppendLeadAction. rewrite L.
    reflexivity.
  - intros current first rest E. subst moves. unfold run_AppendLeadAction.
    rewrite L. eexists. split; [reflexivity|]. fields.
    split; [|repeat split].
    rewrite (last_opt_upd_last _ _ _ _ L). reflexivity.
Qed.

(** North's start-lead of the ace of diamonds, with combos enabled, is
    recorded in the round North opened. *)
Lemma tentative_lead_effects_witness :
  exists g',
    run_action Reference.rules NORTH (Scenario.kitty_set true)
               (LeadAction (Single (Scenario.one (card rA sym_diamond)))) NORTH
    = Returned g' (Some NORTH, 0%Q)
    /\ hands g' = hands (Scenario.kitty_set true).
Proof.
  assert (L : last_opt (round_history (Scenario.kitty_set true)) = Some (NORTH, []))
    by (vm_compute; reflexivity).
  destruct (proj1 (tentative_lead_effects Reference.rules NORTH
                     (Scenario.kitty_set true)
                     (Single (Scenario.one (card rA sym_diamond))) NORTH NORTH [] L))
    as (g' & H & _ & _ & K & _).
  exists g'. split; [exact H|exact K].
Defined.

(** What a returning close-lead did.  The next seat acts.  When the
    rules judge the move legal, its cards leave the hand and the unplayed
    cards, the reward is 0, and the group is recorded only if the round
    was still empty: after a start-lead the recorded group stays the one
    the start-lead wrote.  When the move is judged illegal, the round
    already held a group; the penalty move's cards leave the hand and the
    unplayed cards, the reward is minus the combo penalty, and a round
    that held one group holds the penalty move instead.  (With more
    groups recorded the source pops the last one and then subtracts the
    penalty from the action's own CardSet object, which may be one of
    the groups still recorded; the statement is limited to the case
    where the popped group is the only one.)  No other seat's hand
    changes. *)
Theorem close_lead_effects :
  forall rules rnd g move p g' next reward,
    run_action rules rnd g (EndLeadAction move) p = Returned g' (next, reward) ->
    next = Some (next_position p)
    /\ (forall q, q <> p -> hands g' q = hands g q)
    /\ exists leader moves legal penalty,
         last_opt (round_history g) = Some (leader, moves)
         /\ is_legal_combo rules move
              [hands g (next_position p);
               hands g (next_position (next_position p));
               hands g (next_position (next_position (next_position p)))]
              (dominant_suit g) (dominant_rank g) = (legal, penalty)
         /\ (legal = true ->
             reward = 0%Q
             /\ remove_cardset (hands g p) (cardset move) = Some (hands g' p)
             /\ remove_cardset (unplayed_cards g) (cardset move)
                = Some (unplayed_cards g')
             /\ last_opt (round_history g')
                = Some (leader, match moves with
                                | [] => [cardset move]
                                | _ :: _ => moves
                                end)
             /\ public_cards g' p
                = forget_played (public_cards g p)
                                (card_list_of rules (cardset move)))
         /\ (legal = false ->
             reward = (- combo_penalty g)%Q
             /\ moves <> []
             /\ remove_cardset (hands g p) penalty = Some (hands g' p)
             /\ remove_cardset (unplayed_cards g) penalty = Some (unplayed_cards g')
             /\ (forall recorded,
                    moves = [recorded] ->
                    last_opt (round_history g') = Some (leader, [penalty]))
             /\ exists failed,
                  remove_cardset (cardset move) penalty = Some failed
                  /\ public_cards g' p
                     = reveal_failed (public_cards g p)
                                     (count_iterator rules failed)).
Proof.
  intros rules rnd g move p g' next reward H. cbn [run_action] in H.
  unfold run_EndLeadAction in H. cbv zeta in H.
  destruct (is_legal_combo rules move _ (dominant_suit g) (dominant_rank g))
    as [is_legal penalty_move] eqn:LC.
  destruct (last_opt (round_history g)) as [[leader moves]|] eqn:L;
    [|destruct is_legal; discriminate].
  destruct is_legal.
  - destruct moves as [|m ms]; fields;
      (destruct (remove_cardset (hands g p) (cardset move)) as [h|] eqn:R1;
       [|discriminate]);
      (destruct (remove_cardset (unplayed_cards g) (cardset move)) as [u|] eqn:R2;
       [|discriminate]);
      inversion H; subst; clear H; fields;
      (split; [reflexivity|]);
      (split; [intros q N; apply upd_other; exact N|]);
      eexists; eexists; exists true, penalty_move;
      (split; [reflexivity|]); (split; [reflexivity|]);
      (split; [|intros X; discriminate X]); intros _;
      rewrite !upd_same;
      repeat split; try reflexivity; try assumption.
    rewrite (last_opt_upd_last _ _ _ _ L). reflexivity.
  - destruct moves as [|m ms]; [discriminate|]. fields.
    destruct (remove_cardset (hands g p) penalty_move) as [h|] eqn:R1;
      [|discriminate].
    destruct (remove_cardset (unplayed_cards g) penalty_move) as [u|] eqn:R2;
      [|discriminate].
    destruct (remove_cardset (cardset move) penalty_move) as [failed|] eqn:R3;
      [|discriminate].
    inversion H; subst; clear H; fields.
    split; [reflexivity|].
    split; [intros q N; apply upd_other; exact N|].
    eexists; eexists; exists false, penalty_move.
    split; [reflexivity|]. split; [reflexivity|].
    split; [intros X; discriminate X|]. intros _.
    rewrite !upd_same.
    repeat split; try reflexivity; try assumption; try discriminate.
    + intros recorded X. inversion X; subst.
      rewrite (last_opt_upd_last _ _ _ _ L). reflexivity.
    + exists failed. split; [exact R3|reflexivity].
Qed.

(** North's close-lead of the ace of diamonds after the kitty: West acts
    next. *)
Lemma close_lead_effects_witness :
  option_map fst
    (outcome_of (run_action Reference.rules NORTH (Scenario.kitty_set false)
                   (EndLeadAction (Single (Scenario.one (card rA sym_diamond))))
                   NORTH))
  = Some (Some WEST).
Proof.
  assert (N : outcome_of (run_action Reference.rules NORTH (Scenario.kitty_set false)
                (EndLeadAction (Single (Scenario.one (card rA sym_diamond)))) NORTH)
              <> None) by (vm_compute; discriminate).
  destruct (run_action Reference.rules NORTH (Scenario.kitty_set false)
              (EndLeadAction (Single (Scenario.one (card rA sym_diamond)))) NORTH)
    as [g' [next reward]|g'] eqn:H.
  - destruct (close_lead_effects _ _ _ _ _ _ _ _ H) as (E & _).
    cbn [outcome_of option_map fst]. rewrite E. reflexivity.
  - exfalso. apply N. reflexivity.
Defined.


(** ** Public cards *)

Lemma forget_played_count : forall l pub c,
  forget_played pub l c = pub c - occurrences c l.
Proof.
  unfold forget_played.
  induction l as [|x l IH]; intros pub c; cbn [fold_left].
  - unfold occurrences. simpl. lia.
  - rewrite IH, occurrences_cons. unfold has_card, remove_card.
    destruct (Nat.ltb_spec 0 (pub x)) as [P|P].
    + destruct (Nat.leb_spec 1 (pub x)); [|lia].
      rewrite (Card_eqb_sym c x). destruct (Card_eqb x c); lia.
    + destruct (Card_eqb x c) eqn:E; [|lia].
      apply Card_eqb_eq in E. subst x. lia.
Qed.

Lemma reveal_failed_bounds : forall l pub c,
  pub c <= reveal_failed pub l c
  /\ (forall n, In (c, n) l -> n <= reveal_failed pub l c)
  /\ (reveal_failed pub l c = pub c \/ In (c, reveal_failed pub l c) l).
Proof.
  unfold reveal_failed.
  induction l as [|[x n] l IH]; intros pub c; cbn [fold_left].
  - split; [lia|]. split; [intros n []|left; reflexivity].
  - set (pub' := if pub x <? n
                 then (fun c' => if Card_eqb c' x then n else pub c')
                 else pub).
    destruct (IH pub' c) as (A & B & C).
    assert (S : pub c <= pub' c
                /\ (x = c -> n <= pub' c)
                /\ (pub' c = pub c \/ (x = c /\ pub' c = n))).
    { unfold pub'. destruct (Nat.ltb_spec (pub x) n) as [Lt|Ge].
      - destruct (Card_eqb c x) eqn:E.
        + apply Card_eqb_eq in E. subst x.
          split; [lia|]. split; [intros _; lia|]. right. split; reflexivity.
        + split; [lia|]. split; [|left; reflexivity].
          intros X. subst x. rewrite Card_eqb_refl in E. discriminate.
      - split; [lia|]. split; [|left; reflexivity].
        intros X. subst x. exact Ge. }
    destruct S as (S1 & S2 & S3).
    split; [lia|]. split.
    + intros m [X|X].
      * inversion X; subst. specialize (S2 eq_refl). lia.
      * apply B. exact X.
    + destruct C as [C|C].
      * destruct S3 as [S3|(S3 & S4)].
        -- left. congruence.
        -- right. left. subst x. rewrite C, S4. reflexivity.
      * right. right. exact C.
Qed.

Lemma settle_round_public : forall rules g lead moves p g' r,
  settle_round rules g lead moves p = Returned g' r ->
  public_cards g' = public_cards g.
Proof.
  intros rules g lead moves p g' r H. unfold settle_round in H. cbv zeta in H.
  destruct (dealer_position g) as [dealer|]; [|discriminate].
  destruct (index_of dealer _) as [dealer_index|]; [|discriminate].
  destruct (nth_error _ (round_winner rules moves (dominant_suit g) (dominant_rank g)))
    as [new_leading_position|]; [|discriminate].
  destruct ((round_winner rules moves (dominant_suit g) (dominant_rank g) =? dealer_index)
            || ((round_winner rules moves (dominant_suit g) (dominant_rank g) + 2) mod 4
                =? dealer_index)); fields.
  - destruct (size (hands g p) =? 0).
    + simpl negb in H. cbv iota in H. fields.
      inversion H; subst; clear H. reflexivity.
    + inversion H; subst; clear H. reflexivity.
  - destruct (size (hands g p) =? 0).
    + simpl negb in H. cbv iota in H.
      destruct (nth_error moves _) as [winning|]; [|discriminate]. fields.
      inversion H; subst; clear H. reflexivity.
    + inversion H; subst; clear H. reflexivity.
Qed.

(** What the other seats are told a seat holds.  Playing cards lowers
    the public count of each played card by the number of copies played,
    never below zero, and touches no other seat's public cards: so it is
    for every returning follow.  The cards revealed after a failed combo
    only raise counts: each count ends as the larger of the old count and
    the revealed counts for that card. *)
Theorem public_cards_bookkeeping :
  forall rules rnd,
    (forall g cs p g' r,
        run_action rules rnd g (FollowAction cs) p = Returned g' r ->
        (forall c, public_cards g' p c
                   = public_cards g p c - occurrences c (card_list_of rules cs))
        /\ (forall q, q <> p -> public_cards g' q = public_cards g q))
    /\ (forall pub played c,
           forget_played pub played c = pub c - occurrences c played)
    /\ (forall pub failed c,
           pub c <= reveal_failed pub failed c
           /\ (forall n, In (c, n) failed -> n <= reveal_failed pub failed c)
           /\ (reveal_failed pub failed c = pub c
               \/ In (c, reveal_failed pub failed c) failed)).
Proof.
  intros rules rnd. split; [|split].
  - intros g cs p g' r H. cbn [run_action] in H.
    unfold run_FollowAction in H. cbv zeta in H.
    destruct (last_opt (round_history g)) as [[lead previous]|]; [|discriminate].
    destruct (remove_cardset (hands g p) cs) as [h|]; [|discriminate].
    fields.
    destruct (remove_cardset (unplayed_cards g) cs) as [u|]; [|discriminate].
    assert (G : forall g1,
               public_cards g1
               = upd (public_cards g) p
                     (forget_played (public_cards g p) (card_list_of rules cs)) ->
               (forall c, public_cards g1 p c
                          = public_cards g p c
                            - occurrences c (card_list_of rules cs))
               /\ (forall q, q <> p -> public_cards g1 q = public_cards g q)).
    { intros g1 E. rewrite E. split.
      - intros c. rewrite upd_same. apply forget_played_count.
      - intros q N. apply upd_other. exact N. }
    destruct (List.length (previous ++ [cs]) =? 4).
    + apply settle_round_public in H. apply G. rewrite H. reflexivity.
    + inversion H; subst; clear H. apply G. reflexivity.
  - intros pub played c. apply forget_played_count.
  - intros pub failed c. apply reveal_failed_bounds.
Qed.

(** West follows the ace of diamonds with the king: West's public count
    of the king stays 0, as West had shown no king. *)
Lemma public_cards_bookkeeping_witness :
  public_cards
    (state_of (run_action Reference.rules NORTH
                 (Scenario.after (Scenario.kitty_set false)
                                 (firstn 1 Scenario.first_trick))
                 (FollowAction (Scenario.one (card rK sym_diamond))) WEST))
    WEST (card rK sym_diamond)
  = 0.
Proof.
  assert (P : public_cards (Scenario.after (Scenario.kitty_set false)
                                           (firstn 1 Scenario.first_trick))
                WEST (card rK sym_diamond) = 0)
    by (vm_compute; reflexivity).
  assert (N : outcome_of (run_action Reference.rules NORTH
                 (Scenario.after (Scenario.kitty_set false)
                                 (firstn 1 Scenario.first_trick))
                 (FollowAction (Scenario.one (card rK sym_diamond))) WEST) <> None)
    by (vm_compute; discriminate).
  destruct (run_action Reference.rules NORTH
              (Scenario.after (Scenario.kitty_set false)
                              (firstn 1 Scenario.first_trick))
              (FollowAction (Scenario.one (card rK sym_diamond))) WEST)
    as [g' r|g'] eqn:H.
  - destruct (proj1 (public_cards_bookkeeping Reference.rules NORTH) _ _ _ _ _ H)
      as (A & _).
    cbn [state_of]. rewrite A, P. reflexivity.
  - exfalso. apply N. reflexivity.
Defined.


(** ** Offered actions during play *)

Lemma nonempty_option : forall (l offered : list Action),
  match l with [] => None | _ :: _ => Some l end = Some offered ->
  l = offered.
Proof. intros [|x l] offered H; [discriminate|]. inversion H. reflexivity. Qed.

(** What a seat is offered during play, that is outside the declare
    stage, with at most 25 cards in hand and when it is not the seat's
    counter-bid turn.  The seat that opened the round is offered the
    leading moves of its hand: as start-leads when combos are enabled
    (and, under combo alternation, the seat is North or South), as
    close-leads otherwise.  Once a group is recorded and combos are
    enabled, the offers are extensions of the recorded group, none after
    three consecutive moves, followed by the close-lead of the recorded
    group as a combo.  Any other seat is offered follows, one per
    matching move for the first recorded group, and gets no observation
    when nothing is recorded. *)
Theorem play_offers :
  forall rules g position leader moves offered,
    stage g <> declare_stage ->
    size (hands g position) <= 25 ->
    current_chaodi_turn g <> Some position ->
    last_opt (round_history g) = Some (leader, moves) ->
    compute_actions rules g position = Some offered ->
    (leader = position ->
     enable_combos g = false \/ moves = [] ->
     offered
     = map (fun move =>
              if enable_combos g
                 && negb (combo_alternation g
                          && (pos_eqb position EAST || pos_eqb position WEST))
              then LeadAction move else EndLeadAction move)
           (get_leading_moves rules (hands g position)
                              (dominant_suit g) (dominant_rank g)))
    /\ (leader = position ->
        enable_combos g = true ->
        forall current rest,
          moves = current :: rest ->
          exists extensions,
            offered = extensions ++ [EndLeadAction (Combo current)]
            /\ ((3 <= consecutive_moves g)%Z -> extensions = [])
            /\ forall a,
                 In a extensions ->
                 exists move, a = AppendLeadAction current move)
    /\ (leader <> position ->
        exists led rest,
          moves = led :: rest
          /\ offered
             = map FollowAction
                   (get_matching_moves rules (hands g position) (Combo led)
                                       (dominant_suit g) (dominant_rank g))).
Proof.
  intros rules g position leader moves offered S B T L H.
  unfold compute_actions in H.
  assert (SE : stage_eqb (stage g) declare_stage = false)
    by (destruct (stage g); try reflexivity; congruence).
  assert (BE : (25 <? size (hands g position)) = false)
    by (apply Nat.ltb_ge; exact B).
  assert (TE : opt_pos_eqb (current_chaodi_turn g) (Some position) = false).
  { destruct (opt_pos_eqb (current_chaodi_turn g) (Some position)) eqn:E;
      [|reflexivity].
    apply opt_pos_eqb_eq in E. contradiction. }
  rewrite SE, BE, TE, L in H.
  split; [|split].
  - intros E C. subst leader. rewrite pos_eqb_refl in H.
    assert (CE : negb (enable_combos g)
                 || match moves with [] => true | _ :: _ => false end = true).
    { destruct C as [C|C]; [rewrite C; reflexivity|].
      subst moves. apply orb_true_r. }
    rewrite CE in H. apply nonempty_option in H. symmetry. exact H.
  - intros E C current rest M. subst leader moves. rewrite pos_eqb_refl in H.
    rewrite C in H. cbn [negb orb] in H.
    destruct (card_list_of rules current) as [|first l]; [discriminate|].
    destruct (remove_cardset _ current) as [remaining_cards|]; [|discriminate].
    apply nonempty_option in H. subst offered.
    eexists. split; [reflexivity|]. split.
    + intros G. apply Z.ltb_ge in G. rewrite G. reflexivity.
    + intros a I. destruct (consecutive_moves g <? 3)%Z; [|destruct I].
      apply in_map_iff in I. destruct I as (move & I & _).
      exists move. symmetry. exact I.
  - intros N. apply pos_eqb_neq in N. rewrite N in H.
    destruct moves as [|led rest]; [discriminate|].
    apply nonempty_option in H. exists led, rest. split; [reflexivity|].
    symmetry. exact H.
Qed.

(** North, leading after the kitty with combos disabled, is offered
    close-leads only. *)
Lemma play_offers_witness :
  exists offered,
    compute_actions Reference.rules (Scenario.kitty_set false) NORTH = Some offered
    /\ offered
       = map EndLeadAction
             (get_leading_moves Reference.rules
                (hands (Scenario.kitty_set false) NORTH)
                (dominant_suit (Scenario.kitty_set false))
                (dominant_rank (Scenario.kitty_set false))).
Proof.
  assert (S : stage (Scenario.kitty_set false) <> declare_stage)
    by (vm_compute; discriminate).
  assert (B : size (hands (Scenario.kitty_set false) NORTH) <= 25)
    by (vm_compute; lia).
  assert (T : current_chaodi_turn (Scenario.kitty_set false) <> Some NORTH)
    by (vm_compute; discriminate).
  assert (L : last_opt (round_history (Scenario.kitty_set false)) = Some (NORTH, []))
    by (vm_compute; reflexivity).
  assert (C : enable_combos (Scenario.kitty_set false) = false)
    by (vm_compute; reflexivity).
  assert (N : compute_actions Reference.rules (Scenario.kitty_set false) NORTH
              <> None) by (vm_compute; discriminate).
  destruct (compute_actions Reference.rules (Scenario.kitty_set false) NORTH)
    as [offered|] eqn:H; [|exfalso; apply N; reflexivity].
  exists offered. split; [reflexivity|].
  destruct (play_offers Reference.rules (Scenario.kitty_set false) NORTH NORTH []
              offered S B T L H) as (A & _).
  rewrite (A eq_refl (or_introl C)), C. reflexivity.
Defined.



(** ** Dealing *)

Lemma draw_card_deals : forall g seat g',
  draw_card g seat = Some g' ->
  card_list g' = card_list g
  /\ exists c, deck g = c :: deck g'
               /\ draw_order g' = draw_order g ++ [(seat, c)]
               /\ hands g' seat = add_card (hands g seat) c 1.
Proof.
  intros g seat g' H. unfold draw_card in H.
  destruct (deck g) as [|c rest]; [discriminate|].
  inversion H; subst; clear H. fields. split; [reflexivity|].
  exists c. repeat split. apply upd_same.
Qed.

Lemma settle_round_dealing : forall rules g lead moves p g' r,
  settle_round rules g lead moves p = Returned g' r ->
  card_list g' = card_list g /\ draw_order g' = draw_order g
  /\ deck g' = deck g.
Proof.
  intros rules g lead moves p g' r H. unfold settle_round in H. cbv zeta in H.
  destruct (dealer_position g) as [dealer|]; [|discriminate].
  destruct (index_of dealer _) as [dealer_index|]; [|discriminate].
  destruct (nth_error _ (round_winner rules moves (dominant_suit g) (dominant_rank g)))
    as [new_leading_position|]; [|discriminate].
  destruct ((round_winner rules moves (dominant_suit g) (dominant_rank g) =? dealer_index)
            || ((round_winner rules moves (dominant_suit g) (dominant_rank g) + 2) mod 4
                =? dealer_index)); fields.
  - destruct (size (hands g p) =? 0).
    + simpl negb in H. cbv iota in H. fields.
      inversion H; subst; clear H. repeat split.
    + inversion H; subst; clear H. repeat split.
  - destruct (size (hands g p) =? 0).
    + simpl negb in H. cbv iota in H.
      destruct (nth_error moves _) as [winning|]; [|discriminate]. fields.
      inversion H; subst; clear H. repeat split.
    + inversion H; subst; clear H. repeat split.
Qed.

(** A returning action leaves the constructor's card list alone, and
    either deals the next card of the deck, recording it in the draw
    order, or records nothing and leaves the deck as it is or empty. *)
Lemma run_action_deals : forall rules rnd g a p g' r,
  run_action rules rnd g a p = Returned g' r ->
  card_list g' = card_list g
  /\ ((draw_order g' = draw_order g /\ (deck g' = deck g \/ deck g' = []))
      \/ exists seat c, deck g = c :: deck g'
                        /\ draw_order g' = draw_order g ++ [(seat, c)]).
Proof.
  intros rules rnd g a p g' r H.
  destruct a as [d| |x n|cards| |d|move|cur move|move|cs]; cbn [run_action] in H.
  - unfold run_DeclareAction in H. cbv zeta in H.
    destruct (level_increases g d); [|discriminate]. simpl negb in H.
    destruct (match dealer_position g with Some _ => false | None => true end
              || is_initial_game g);
      fields; returned H;
      try match goal with
          | D : draw_card _ _ = Some _ |- _ =>
              apply draw_card_deals in D; fields;
              destruct D as (CL & ? & DK & DO & _);
              (split; [exact CL|]); right; eexists; eexists; split; eassumption
          end;
      (split; [reflexivity|]); left; (split; [reflexivity|left; reflexivity]).
  - unfold run_DontDeclareAction in H.
    destruct (opt_pos_eqb (current_declaration_turn g) (Some p)).
    + destruct (opt_pos_eqb (Some (next_position p)) (initial_declaration_position g)).
      * inversion H; subst; clear H. fields.
        split; [reflexivity|]. left. split; [reflexivity|right; reflexivity].
      * destruct (current_declaration_turn g); [|discriminate].
        inversion H; subst; clear H.
        split; [reflexivity|]. left. split; [reflexivity|left; reflexivity].
    + destruct (hands_total g <? 100).
      * destruct (size (hands g (next_position p)) <? 25); [|discriminate].
        destruct (draw_card g (next_position p)) eqn:D; [|discriminate].
        inversion H; subst; clear H.
        apply draw_card_deals in D. destruct D as (CL & c & DK & DO & _).
        split; [exact CL|]. right. eexists; exists c; split; eassumption.
      * inversion H; subst; clear H.
        split; [reflexivity|]. left. split; [reflexivity|left; reflexivity].
  - unfold run_PlaceKittyAction in H. cbv zeta in H. fields.
    destruct (size (kitty g) <? 8); [|discriminate]. simpl negb in H.
    destruct (remove_card (hands g p) x 1) as [after|]; [|discriminate].
    unfold open_first_round in H. fields.
    destruct (size (add_card (kitty g) x 1) =? 8).
    + destruct (round_history g); fields;
        destruct (enable_chaodi g); cbn [negb] in H;
        inversion H; subst; clear H;
        (split; [reflexivity|]); left; (split; [reflexivity|left; reflexivity]).
    + inversion H; subst; clear H.
      split; [reflexivity|]. left. split; [reflexivity|left; reflexivity].
  - unfold run_PlaceAllKittyAction in H. cbv zeta in H. fields.
    destruct (remove_cardset (hands g p) cards) as [after|]; [|discriminate].
    unfold open_first_round in H. fields.
    destruct (round_history g); fields;
      destruct (negb (enable_chaodi g)
                || match declarations g with [] => true | _ :: _ => false end);
      inversion H; subst; clear H;
      (split; [reflexivity|]); left; (split; [reflexivity|left; reflexivity]).
  - unfold run_DontChaodiAction in H. returned H;
      (split; [reflexivity|]); left; (split; [reflexivity|left; reflexivity]).
  - unfold run_ChaodiAction in H.
    destruct (remove_cardset _ _) as [emptied|] in H; [|discriminate].
    destruct (get_card _ _) as [[shown count]|] in H; [|discriminate].
    destruct (level d =? 3)%Z; inversion H; subst; clear H;
      (split; [reflexivity|]); left; (split; [reflexivity|left; reflexivity]).
  - unfold run_LeadAction in H.
    destruct (round_history g) as [|r0 rh] eqn:RH; [discriminate|].
    inversion H; subst; clear H.
    split; [reflexivity|]. left. split; [reflexivity|left; reflexivity].
  - unfold run_AppendLeadAction in H. returned H;
      (split; [reflexivity|]); left; (split; [reflexivity|left; reflexivity]).
  - unfold run_EndLeadAction in H. cbv zeta in H.
    destruct (is_legal_combo rules move _ (dominant_suit g) (dominant_rank g))
      as [is_legal penalty_move].
    destruct is_legal.
    + destruct (last_opt (round_history g)) as [[leader moves]|]; [|discriminate].
      destruct moves; fields; returned H;
        (split; [reflexivity|]); left; (split; [reflexivity|left; reflexivity]).
    + destruct (last_opt (round_history g)) as [[leader [|m moves]]|];
        try discriminate.
      fields; returned H;
        (split; [reflexivity|]); left; (split; [reflexivity|left; reflexivity]).
  - unfold run_FollowAction in H. cbv zeta in H.
    destruct (last_opt (round_history g)) as [[lead previous]|]; [|discriminate].
    destruct (remove_cardset (hands g p) cs) as [h|]; [|discriminate].
    fields.
    destruct (remove_cardset (unplayed_cards g) cs) as [u|]; [|discriminate].
    destruct (List.length (previous ++ [cs]) =? 4).
    + apply settle_round_dealing in H. fields. destruct H as (A & B & C).
      split; [exact A|]. left. split; [exact B|left; exact C].
    + inversion H; subst; clear H.
      split; [reflexivity|]. left. split; [reflexivity|left; reflexivity].
Qed.

Lemma sum_sizes_ge : forall (d : AbsolutePosition -> CardSet) p,
  size (d p) <= sum_sizes d.
Proof.
  intros d p. unfold sum_sizes.
  destruct p; cbn [list_sum fold_right map]; lia.
Qed.

(** How the cards come out of the deck.  A new game has not started.
    [start_game] raises exactly when the deck is exhausted; otherwise it
    deals the top card to the dealer, or to the drawn seat when no dealer
    is set, records the draw, leaves the dealer as it was, and the game
    counts as started; it does not check whether the game had started
    before.  In every state reached from a new game the card list is the
    constructor's, and the cards recorded in the draw order are the first
    cards of that list, in order; the deck is the rest of the list until
    the dealer takes the remaining cards, which are not recorded. *)
Theorem dealing_follows_the_deck :
  forall rules dr dealer chaodi combos cards warm ov cp ca,
    game_started (new_Game dr dealer chaodi combos cards warm ov cp ca) = false
    /\ (forall rnd g,
           outcome_of (start_game rnd g) = None <-> deck g = [])
    /\ (forall rnd g g' first,
           start_game rnd g = Returned g' first ->
           first = match dealer_position g with Some d => d | None => rnd end
           /\ game_started g' = true
           /\ dealer_position g' = dealer_position g
           /\ exists c, deck g = c :: deck g'
                        /\ hands g' first = add_card (hands g first) c 1
                        /\ draw_order g' = draw_order g ++ [(first, c)])
    /\ (forall g,
           reachable rules any_action
                     (new_Game dr dealer chaodi combos cards warm ov cp ca) g ->
           card_list g = cards
           /\ exists rest,
                cards = map snd (draw_order g) ++ rest
                /\ (deck g = rest \/ deck g = [])).
Proof.
  intros rules dr dealer chaodi combos cards warm ov cp ca.
  split; [reflexivity|]. split; [|split].
  - intros rnd g. unfold start_game, draw_card.
    destruct (deck g) as [|c rest]; cbn [outcome_of]; split;
      congruence || discriminate.
  - intros rnd g g' first H. unfold start_game in H.
    destruct (draw_card g _) as [g1|] eqn:D; [|discriminate].
    inversion H; subst; clear H.
    pose proof D as D'. apply draw_card_deals in D'.
    destruct D' as (_ & c & DK & DO & HD).
    split; [reflexivity|]. split; [|split].
    + unfold game_started. apply orb_true_iff. left. apply Nat.ltb_lt.
      pose proof (sum_sizes_ge (hands g')
                    (match dealer_position g with Some d => d | None => rnd end)) as G.
      rewrite HD, size_add_card in G. lia.
    + unfold draw_card in D. destruct (deck g); [discriminate|].
      inversion D; subst; clear D. reflexivity.
    + exists c. repeat split; assumption.
  - intros g R.
    induction R as [|rnd g g' first R IH S|rnd g a p g' r R IH C S].
    + split; [reflexivity|]. exists cards. split; [reflexivity|left; reflexivity].
    + destruct IH as (CL & rest & E & DK).
      unfold start_game in S.
      destruct (draw_card g _) as [g1|] eqn:D; [|discriminate].
      inversion S; subst; clear S.
      apply draw_card_deals in D. destruct D as (CL' & c & DK' & DO & _).
      split; [congruence|].
      destruct DK as [DK|DK]; [|congruence].
      exists (deck g'). split; [|left; reflexivity].
      rewrite DO, map_app, <- app_assoc. cbn [map snd app]. congruence.
    + destruct IH as (CL & rest & E & DK).
      apply run_action_deals in S. destruct S as (CL' & S).
      split; [congruence|].
      destruct S as [(DO & [DK'|DK'])|(seat & c & DK' & DO)].
      * exists rest. split; [congruence|]. destruct DK; [left|right]; congruence.
      * exists rest. split; [congruence|right; exact DK'].
      * destruct DK as [DK|DK]; [|congruence].
        exists (deck g'). split; [|left; reflexivity].
        rewrite DO, map_app, <- app_assoc. cbn [map snd app]. congruence.
Qed.

(** On the standard deck North, the dealer, gets the first card, and the
    game counts as started. *)
Lemma dealing_follows_the_deck_witness :
  game_started (Scenario.started false) = true.
Proof.
  assert (N : outcome_of (start_game NORTH (Scenario.fresh false)) <> None)
    by (vm_compute; discriminate).
  unfold Scenario.started.
  destruct (start_game NORTH (Scenario.fresh false)) as [g' first|g'] eqn:H.
  - exact (proj1 (proj2 (proj1 (proj2 (proj2
      (dealing_follows_the_deck Reference.rules 2%Z (Some NORTH) true false
         Scenario.standard_deck false 0%Q 0.1%Q false)))
      NORTH _ g' first H))).
  - exfalso. apply N. reflexivity.
Defined.

(** * The scores shown, the kitty and its rewards *)

Lemma get_observation_scores : forall rules g position o,
  get_observation rules g position = Some o ->
  Observation.defender_points o = opponent_points g
  /\ Observation.opponent_points o = opponent_points g.
Proof.
  intros rules g position o H. unfold get_observation in H.
  destruct (compute_actions rules g position); [|discriminate].
  inversion H; subst; clear H. split; reflexivity.
Qed.

(** C1.  [get_observation] fills both score fields of an observation
    with the game's [opponent_points] (Game.py:145 reads
    [defender_points = self.opponent_points]).  After the first trick of
    a game on the standard deck, which North, the dealer, wins with the
    king of diamonds in it, the game has 10 defender points and no
    opponent points, and North's observation shows 0 defender points. *)
Theorem observation_defender_points_mismatch :
  (forall rules g position o,
      get_observation rules g position = Some o ->
      Observation.defender_points o = opponent_points g
      /\ Observation.opponent_points o = opponent_points g)
  /\ reachable Reference.rules any_action (Scenario.fresh false)
               Scenario.after_first_trick
  /\ defender_points Scenario.after_first_trick = 10%Z
  /\ opponent_points Scenario.after_first_trick = 0%Z
  /\ option_map Observation.defender_points
       (get_observation Reference.rules Scenario.after_first_trick NORTH)
     = Some 0%Z
  /\ option_map Observation.opponent_points
       (get_observation Reference.rules Scenario.after_first_trick NORTH)
     = Some 0%Z.
Proof.
  split; [exact get_observation_scores|].
  split.
  { unfold Scenario.after_first_trick, Scenario.kitty_set, Scenario.kitty_time,
      Scenario.started.
    repeat (apply after_reachable; [intros; exact I|]).
    apply started_reachable. }
  repeat (split; [vm_compute; reflexivity|]). vm_compute. reflexivity.
Qed.

Lemma run_PlaceKittyAction_full : forall g c p,
  8 <= size (kitty g) -> run_PlaceKittyAction g c p = Raised g.
Proof.
  intros g c p F. unfold run_PlaceKittyAction.
  apply Nat.ltb_ge in F. rewrite F. reflexivity.
Qed.

(** C10.  With eight cards in the kitty a place-one action raises and
    leaves the game as it was ([assert self.kitty.size < 8],
    Game.py:216); the place-all branch (Game.py:263-265) has no such
    check.  After North's eight discards on the standard deck a second
    batch of eight is accepted: the call returns, the kitty holds
    sixteen cards and North seventeen. *)
Theorem place_all_kitty_ignores_capacity :
  (forall rules rnd g c n p,
      8 <= size (kitty g) ->
      run_action rules rnd g (PlaceKittyAction c n) p = Raised g)
  /\ reachable Reference.rules any_action (Scenario.fresh false)
               (Scenario.kitty_set false)
  /\ size (kitty (Scenario.kitty_set false)) = 8
  /\ outcome_of (run_action Reference.rules NORTH (Scenario.kitty_set false)
                   (PlaceAllKittyAction Scenario.more_discards) NORTH)
     = Some (Some NORTH, 0%Q)
  /\ size (kitty (state_of
                    (run_action Reference.rules NORTH (Scenario.kitty_set false)
                       (PlaceAllKittyAction Scenario.more_discards) NORTH)))
     = 16
  /\ size (hands (state_of
                    (run_action Reference.rules NORTH (Scenario.kitty_set false)
                       (PlaceAllKittyAction Scenario.more_discards) NORTH))
                 NORTH)
     = 17.
Proof.
  split.
  { intros rules rnd g c n p F. cbn [run_action].
    apply run_PlaceKittyAction_full. exact F. }
  split.
  { unfold Scenario.kitty_set, Scenario.kitty_time, Scenario.started.
    repeat (apply after_reachable; [intros; exact I|]).
    apply started_reachable. }
  repeat (split; [vm_compute; reflexivity|]). vm_compute. reflexivity.
Qed.

Lemma run_PlaceKittyAction_early : forall g c p g' r,
  run_PlaceKittyAction g c p = Returned g' r ->
  size (kitty g) <> 7 ->
  r = (Some p, 0%Q).
Proof.
  intros g c p g' r H N. unfold run_PlaceKittyAction in H.
  destruct (size (kitty g) <? 8); [|discriminate]. cbn [negb] in H.
  fields.
  destruct (remove_card (hands g p) c 1) as [after|]; [|discriminate].
  fields. rewrite size_add_card in H.
  destruct (size (kitty g) + 1 =? 8) eqn:E.
  - apply Nat.eqb_eq in E. lia.
  - inversion H; reflexivity.
Qed.

(** C5.  The place-one branch computes the shaped reward of every
    discard, but returns it only for the discard that fills the kitty:
    before that it returns 0 (Game.py:252).  On the standard deck
    North's first discard is the big joker: the shaped reward is -1.5
    (a trump less, and a card of rank 15 or more), the call returns
    0. *)
Theorem first_discard_reward_dropped :
  (forall rules rnd g c n p g' r,
      run_action rules rnd g (PlaceKittyAction c n) p = Returned g' r ->
      size (kitty g) <> 7 ->
      r = (Some p, 0%Q))
  /\ reachable Reference.rules any_action (Scenario.fresh false)
               (Scenario.kitty_time false)
  /\ size (kitty (Scenario.kitty_time false)) = 0
  /\ match remove_card (hands (Scenario.kitty_time false) NORTH) card_DJ 1 with
     | Some after =>
         Qeq (kitty_discard_reward (hands (Scenario.kitty_time false) NORTH)
                after card_DJ
                (dominant_suit (Scenario.kitty_time false))
                (dominant_rank (Scenario.kitty_time false)))
             (-1.5)%Q
     | None => False
     end
  /\ outcome_of (run_action Reference.rules NORTH (Scenario.kitty_time false)
                   (PlaceKittyAction card_DJ 1) NORTH)
     = Some (Some NORTH, 0%Q).
Proof.
  split.
  { intros rules rnd g c n p g' r H N. cbn [run_action] in H.
    exact (run_PlaceKittyAction_early g c p g' r H N). }
  split.
  { unfold Scenario.kitty_time, Scenario.started.
    repeat (apply after_reachable; [intros; exact I|]).
    apply started_reachable. }
  repeat (split; [vm_compute; reflexivity|]). vm_compute. reflexivity.
Qed.

(** ** The final reward *)

Lemma game_end_rewards : forall rules rnd g a p g' r,
  run_action rules rnd g a p = Returned g' r ->
  game_ended g = false ->
  game_ended g' = true ->
  final_opponent_reward g' = Some (opponent_reward (opponent_points g'))
  /\ final_defender_reward g' = Some (- opponent_reward (opponent_points g'))%Z.
Proof.
  intros rules rnd g a p g' r H E0 E1.
  destruct a as [d| |c n|cards| |d|move|cur move|move|cs];
    try (exfalso;
         match type of H with
         | run_action _ _ _ ?a _ = _ =>
             assert (NF : forall cs, a <> FollowAction cs) by (intros cs; discriminate)
         end;
         destruct (scores_frame _ _ _ _ _ _ _ H NF) as (_ & _ & _ & _ & _ & E);
         congruence).
  cbn [run_action] in H. unfold run_FollowAction in H. cbv zeta in H.
  destruct (last_opt (round_history g)) as [[lead previous]|] eqn:L; [|discriminate].
  destruct (remove_cardset (hands g p) cs) as [h|] eqn:R; [|discriminate].
  fields.
  destruct (remove_cardset (unplayed_cards g) cs) as [u|]; [|discriminate].
  destruct (List.length (previous ++ [cs]) =? 4) eqn:N.
  - apply settle_round_scores in H.
    destruct H as (bonus & _ & Hh & En). fields.
    destruct En as [(E & _)|(_ & Z & Rr & _ & FO & FD)]; [congruence|].
    split; [exact FO|exact FD].
  - inversion H; subst; clear H. fields. congruence.
Qed.

(** C8.  The call that ends a game stores the final reward of the side
    playing against the dealer, computed from that side's score by
    fixed thresholds: from 80 on it is 1 plus one for every whole 40
    points above 80 (exactly 80 gives 1), from 40 to 79 it is -1, from 1
    to 39 it is -2, and for 0 it is -3.  The final reward of the
    dealer's side is its negation. *)
Theorem final_reward_thresholds :
  forall rules rnd g a p g' r,
    run_action rules rnd g a p = Returned g' r ->
    game_ended g = false ->
    game_ended g' = true ->
    exists R : Z,
      final_opponent_reward g' = Some R
      /\ final_defender_reward g' = Some (- R)%Z
      /\ ((80 <= opponent_points g' -> R = 1 + (opponent_points g' - 80) / 40)
          /\ (opponent_points g' = 80 -> R = 1)
          /\ (40 <= opponent_points g' <= 79 -> R = -1)
          /\ (1 <= opponent_points g' <= 39 -> R = -2)
          /\ (opponent_points g' = 0 -> R = -3))%Z.
Proof.
  intros rules rnd g a p g' r H E0 E1.
  destruct (game_end_rewards rules rnd g a p g' r H E0 E1) as [FO FD].
  exists (opponent_reward (opponent_points g')).
  split; [exact FO|]. split; [exact FD|].
  destruct (opponent_reward_buckets (opponent_points g')) as (B0 & B1 & B2 & B3).
  repeat split; intros P.
  - apply B3. exact P.
  - rewrite P. reflexivity.
  - apply B2. lia.
  - apply B1. lia.
  - apply B0. lia.
Qed.

(** The last trick of a game in which the side against the dealer
    stands at exactly 80 points and the dealer wins the trick: East's
    last card ends the game and the final rewards are 1 and -1. *)
Lemma final_reward_thresholds_witness :
  final_opponent_reward
    (state_of (run_action Reference.rules NORTH
                 (set_opponent_points 80%Z Scenario.last_trick)
                 (FollowAction (Scenario.one (card r5 sym_club))) EAST))
  = Some 1%Z
  /\ final_defender_reward
       (state_of (run_action Reference.rules NORTH
                    (set_opponent_points 80%Z Scenario.last_trick)
                    (FollowAction (Scenario.one (card r5 sym_club))) EAST))
     = Some (-1)%Z.
Proof.
  assert (P : opponent_points
                (state_of (run_action Reference.rules NORTH
                             (set_opponent_points 80%Z Scenario.last_trick)
                             (FollowAction (Scenario.one (card r5 sym_club))) EAST))
              = 80%Z) by (vm_compute; reflexivity).
  assert (E : game_ended
                (state_of (run_action Reference.rules NORTH
                             (set_opponent_points 80%Z Scenario.last_trick)
                             (FollowAction (Scenario.one (card r5 sym_club))) EAST))
              = true) by (vm_compute; reflexivity).
  assert (N : outcome_of (run_action Reference.rules NORTH
                            (set_opponent_points 80%Z Scenario.last_trick)
                            (FollowAction (Scenario.one (card r5 sym_club))) EAST)
              <> None) by (vm_compute; discriminate).
  destruct (run_action Reference.rules NORTH
              (set_opponent_points 80%Z Scenario.last_trick)
              (FollowAction (Scenario.one (card r5 sym_club))) EAST)
    as [g' r|g'] eqn:H.
  - simpl in P, E. simpl.
    destruct (final_reward_thresholds _ _ _ _ _ _ _ H eq_refl E)
      as (R & FO & FD & _ & B & _).
    assert (V : R = 1%Z) by (apply B; exact P).
    rewrite FO, FD, V. split; reflexivity.
  - exfalso. apply N. reflexivity.
Defined.

(** ** The pass once 100 cards are out *)

Lemma pass_draws : forall rules rnd g p g' r,
  current_declaration_turn g <> Some p ->
  hands_total g < 100 ->
  run_action rules rnd g DontDeclareAction p = Returned g' r ->
  r = (Some (next_position p), 0%Q)
  /\ stage g' = stage g
  /\ exists c, deck g = c :: deck g'
               /\ hands g' = upd (hands g) (next_position p)
                                 (add_card (hands g (next_position p)) c 1).
Proof.
  intros rules rnd g p g' r T L H. cbn [run_action] in H.
  unfold run_DontDeclareAction in H.
  apply opt_pos_eqb_neq in T. apply Nat.ltb_lt in L. rewrite T, L in H.
  destruct (size (hands g (next_position p)) <? 25); [|discriminate].
  unfold draw_card in H. destruct (deck g) as [|c rest]; [discriminate|].
  inversion H; subst; clear H. fields.
  split; [reflexivity|]. split; [reflexivity|]. exists c. split; reflexivity.
Qed.

Lemma pass_opens_lap : forall rules rnd g p,
  current_declaration_turn g <> Some p ->
  100 <= hands_total g ->
  run_action rules rnd g DontDeclareAction p
  = Returned (set_current_declaration_turn (Some (next_position p))
                (set_initial_declaration_position (Some (next_position p)) g))
             (Some (next_position p), 0%Q).
Proof.
  intros rules rnd g p T L. cbn [run_action]. unfold run_DontDeclareAction.
  apply opt_pos_eqb_neq in T. apply Nat.ltb_ge in L. rewrite T, L. reflexivity.
Qed.

Lemma pass_hands_turn_on : forall rules rnd g p,
  current_declaration_turn g = Some p ->
  initial_declaration_position g <> Some (next_position p) ->
  run_action rules rnd g DontDeclareAction p
  = Returned (set_current_declaration_turn (Some (next_position p)) g)
             (Some (next_position p), 0%Q).
Proof.
  intros rules rnd g p T N. cbn [run_action]. unfold run_DontDeclareAction.
  rewrite (proj2 (opt_pos_eqb_eq _ _) T).
  assert (E : opt_pos_eqb (Some (next_position p))
                          (initial_declaration_position g) = false)
    by (apply opt_pos_eqb_neq; congruence).
  rewrite E, T. reflexivity.
Qed.

Lemma pass_closes_lap : forall rules rnd g p,
  current_declaration_turn g = Some p ->
  initial_declaration_position g = Some (next_position p) ->
  exists g',
    run_action rules rnd g DontDeclareAction p
    = Returned g' (Some (match dealer_position g with Some d => d | None => rnd end),
                   0%Q)
    /\ stage g' = kitty_stage
    /\ deck g' = []
    /\ declarations g' = declarations g
    /\ size (hands g' (match dealer_position g with Some d => d | None => rnd end))
       = size (hands g (match dealer_position g with Some d => d | None => rnd end))
         + List.length (deck g)
    /\ forall q,
         q <> match dealer_position g with Some d => d | None => rnd end ->
         hands g' q = hands g q.
Proof.
  intros rules rnd g p T N. cbn [run_action]. unfold run_DontDeclareAction.
  rewrite (proj2 (opt_pos_eqb_eq _ _) T).
  rewrite (proj2 (opt_pos_eqb_eq _ _) (eq_sym N)).
  cbv zeta. eexists. split; [reflexivity|]. fields.
  repeat split.
  - unfold upd. rewrite pos_eqb_refl. apply size_deal_all.
  - intros q Q. unfold upd. apply pos_eqb_neq in Q. rewrite Q. reflexivity.
Qed.

(** C4, counterexample.  On the standard deck, with every seat passing
    on every card, 100 cards are out and nobody has declared.  East's
    next pass gives North the turn: the stage is still DECLARE and the
    last 8 cards are still in the deck. *)
Lemma pass_at_hundred_opens_lap :
  reachable Reference.rules any_action (Scenario.fresh false) Scenario.hundred_out
  /\ stage Scenario.hundred_out = declare_stage
  /\ hands_total Scenario.hundred_out = 100
  /\ declarations Scenario.hundred_out = []
  /\ outcome_of (run_action Reference.rules NORTH Scenario.hundred_out
                   DontDeclareAction EAST)
     = Some (Some NORTH, 0%Q)
  /\ stage (state_of (run_action Reference.rules NORTH Scenario.hundred_out
                        DontDeclareAction EAST))
     = declare_stage
  /\ List.length (deck (state_of (run_action Reference.rules NORTH
                                    Scenario.hundred_out DontDeclareAction EAST)))
     = 8
  /\ size (kitty (state_of (run_action Reference.rules NORTH
                              Scenario.hundred_out DontDeclareAction EAST)))
     = 0.
Proof.
  split.
  { unfold Scenario.hundred_out, Scenario.started.
    repeat (apply after_reachable; [intros; exact I|]).
    apply started_reachable. }
  repeat (split; [vm_compute; reflexivity|]). vm_compute. reflexivity.
Qed.

(** C4, amended.  A pass by a seat that is not on a confirmation turn
    draws the next card for the next seat and gives it the turn only
    while fewer than 100 cards have been distributed.  Once 100 cards
    are out such a pass opens one confirmation round, whether or not a
    seat declared during the draw: the next seat gets the turn, then the
    two seats after it and the seat that opened the round, each by a
    pass of the seat before it, and through these passes the stage, the
    hands and the deck stay as they were.  The pass of the seat that
    opened the round closes it: the rest of the deck goes to the dealer
    (a random seat if none is fixed) in one batch, the stage becomes
    KITTY and the dealer acts. *)
Theorem pass_opens_confirmation_round :
  forall rules rnd g p,
    current_declaration_turn g <> Some p ->
    (hands_total g < 100 ->
     forall g' r,
       run_action rules rnd g DontDeclareAction p = Returned g' r ->
       r = (Some (next_position p), 0%Q)
       /\ stage g' = stage g
       /\ exists c, deck g = c :: deck g'
                    /\ hands g' = upd (hands g) (next_position p)
                                      (add_card (hands g (next_position p)) c 1))
    /\ (100 <= hands_total g ->
        let dealer := match dealer_position g with Some d => d | None => rnd end in
        exists g1 g2 g3 g4 g5,
          run_action rules rnd g DontDeclareAction p
          = Returned g1 (Some (next_position p), 0%Q)
          /\ run_action rules rnd g1 DontDeclareAction (next_position p)
             = Returned g2 (Some (next_position (next_position p)), 0%Q)
          /\ run_action rules rnd g2 DontDeclareAction
                        (next_position (next_position p))
             = Returned g3 (Some (last_position p), 0%Q)
          /\ run_action rules rnd g3 DontDeclareAction (last_position p)
             = Returned g4 (Some p, 0%Q)
          /\ run_action rules rnd g4 DontDeclareAction p
             = Returned g5 (Some dealer, 0%Q)
          /\ (forall s, In s [g1; g2; g3; g4] ->
                stage s = stage g /\ hands s = hands g /\ deck s = deck g
                /\ kitty s = kitty g /\ declarations s = declarations g)
          /\ stage g5 = kitty_stage
          /\ deck g5 = []
          /\ declarations g5 = declarations g
          /\ size (hands g5 dealer) = size (hands g dealer) + List.length (deck g)
          /\ forall q, q <> dealer -> hands g5 q = hands g q).
Proof.
  intros rules rnd g p T. split.
  - intros L g' r H. exact (pass_draws rules rnd g p g' r T L H).
  - intros L dealer.
    pose (g1 := set_current_declaration_turn (Some (next_position p))
                  (set_initial_declaration_position (Some (next_position p)) g)).
    pose (g2 := set_current_declaration_turn
                  (Some (next_position (next_position p))) g1).
    pose (g3 := set_current_declaration_turn (Some (last_position p)) g2).
    pose (g4 := set_current_declaration_turn (Some p) g3).
    assert (N3 : next_position (next_position (next_position p)) = last_position p)
      by (destruct p; reflexivity).
    assert (N4 : next_position (last_position p) = p) by (destruct p; reflexivity).
    assert (R1 : run_action rules rnd g DontDeclareAction p
                 = Returned g1 (Some (next_position p), 0%Q))
      by exact (pass_opens_lap rules rnd g p T L).
    assert (R2 : run_action rules rnd g1 DontDeclareAction (next_position p)
                 = Returned g2 (Some (next_position (next_position p)), 0%Q)).
    { apply pass_hands_turn_on; [reflexivity|].
      subst g1. fields. destruct p; discriminate. }
    assert (R3 : run_action rules rnd g2 DontDeclareAction
                   (next_position (next_position p))
                 = Returned g3 (Some (last_position p), 0%Q)).
    { subst g3. rewrite <- N3. apply pass_hands_turn_on; [reflexivity|].
      subst g2 g1. fields. destruct p; discriminate. }
    assert (R4 : run_action rules rnd g3 DontDeclareAction (last_position p)
                 = Returned g4 (Some p, 0%Q)).
    { subst g4. rewrite <- N4 at 2 3. apply pass_hands_turn_on; [reflexivity|].
      subst g3 g2 g1. fields. destruct p; discriminate. }
    destruct (pass_closes_lap rules rnd g4 p eq_refl eq_refl)
      as (g5 & R5 & S5 & D5 & De5 & H5 & O5).
    exists g1, g2, g3, g4, g5.
    split; [exact R1|]. split; [exact R2|]. split; [exact R3|].
    split; [exact R4|]. split; [exact R5|]. split.
    { intros s [E|[E|[E|[E|[]]]]]; subst s; repeat split. }
    split; [exact S5|]. split; [exact D5|]. split; [exact De5|].
    split; [exact H5|exact O5].
Qed.

(** The confirmation round of C4 on the standard deck, where nobody
    declares: with 100 cards out East passes, then North, West, South
    and East again, and only then does the dealer, North, receive the 8
    remaining cards. *)
Lemma pass_opens_confirmation_round_witness :
  exists g1 g5,
    run_action Reference.rules NORTH Scenario.hundred_out DontDeclareAction EAST
    = Returned g1 (Some NORTH, 0%Q)
    /\ stage g1 = declare_stage
    /\ List.length (deck g1) = 8
    /\ stage g5 = kitty_stage
    /\ deck g5 = []
    /\ size (hands g5 NORTH) = 33.
Proof.
  assert (T : current_declaration_turn Scenario.hundred_out <> Some EAST)
    by (vm_compute; discriminate).
  assert (L : hands_total Scenario.hundred_out = 100) by (vm_compute; reflexivity).
  assert (S : stage Scenario.hundred_out = declare_stage) by (vm_compute; reflexivity).
  assert (D : List.length (deck Scenario.hundred_out) = 8) by (vm_compute; reflexivity).
  assert (N : size (hands Scenario.hundred_out NORTH) = 25) by (vm_compute; reflexivity).
  assert (Dl : dealer_position Scenario.hundred_out = Some NORTH)
    by (vm_compute; reflexivity).
  destruct (proj2 (pass_opens_confirmation_round Reference.rules NORTH
                     Scenario.hundred_out EAST T) (Nat.eq_le_incl _ _ (eq_sym L)))
    as (g1 & g2 & g3 & g4 & g5 & R1 & _ & _ & _ & _ & Same & S5 & D5 & _ & H5 & _).
  exists g1, g5.
  destruct (Same g1 (or_introl eq_refl)) as (S1 & _ & D1 & _).
  split; [exact R1|]. split; [congruence|]. split; [congruence|].
  split; [exact S5|]. split; [exact D5|].
  rewrite Dl in H5. rewrite H5, N, D. reflexivity.
Defined.

(** ** A declaration against the standing one *)

Lemma run_DeclareAction_low : forall g d p standing,
  last_opt (declarations g) = Some standing ->
  (level d <= level standing)%Z ->
  run_DeclareAction g d p = Raised g.
Proof.
  intros g d p standing L Le. unfold run_DeclareAction, level_increases.
  rewrite L. assert (E : (level standing <? level d)%Z = false)
    by (apply Z.ltb_ge; exact Le).
  rewrite E. reflexivity.
Qed.

Lemma run_DeclareAction_returns : forall g d p held,
  level_increases g d = true ->
  get_count (hands g p) (suit d) (dominant_rank g) = Some held ->
  1 <= held ->
  (hands_total g < 100 -> deck g <> []) ->
  exists g' r, run_DeclareAction g d p = Returned g' r.
Proof.
  intros g d p held L C N D. unfold run_DeclareAction.
  rewrite L, C. apply Nat.leb_le in N. rewrite N. cbn [negb].
  destruct (get_count_get_card _ _ _ _ d C) as (c & k & G).
  destruct (match dealer_position g with Some _ => false | None => true end
            || is_initial_game g);
    fields; rewrite G; unfold hands_total in *; fields;
    (destruct (sum_sizes (hands g) <? 100) eqn:T;
     [ apply Nat.ltb_lt in T; specialize (D T);
       unfold draw_card; fields;
       destruct (deck g) as [|c0 rest]; [congruence|]; eauto
     | eauto ]).
Qed.

Lemma offered_declaration : forall rules g position actions d standing,
  stage g = declare_stage ->
  compute_actions rules g position = Some actions ->
  In (DeclareAction d) actions ->
  last_opt (declarations g) = Some standing ->
  (level standing < level d)%Z
  /\ (suit standing = suit d \/ absolute_position standing <> position).
Proof.
  intros rules g position actions d standing S C I L.
  unfold compute_actions in C. rewrite S in C. cbn [stage_eqb] in C.
  match type of C with
  | context [Some (?l ++ [DontDeclareAction])] =>
      assert (E : actions = l ++ [DontDeclareAction])
        by (revert C; destruct l; intros C; cbn in C |- *; congruence)
  end.
  subst actions. clear C. apply in_app_or in I.
  destruct I as [I|[I|[]]]; [|discriminate I].
  destruct (is_warmup_game g); cbn [negb] in I; [destruct I|].
  apply in_flat_map in I. destruct I as ([s l] & _ & I).
  destruct (may_declare g position s l) eqn:M; [|destruct I].
  destruct I as [I|[]]. inversion I; subst d. cbn [level suit new_Declaration].
  unfold may_declare in M. rewrite L in M.
  apply andb_true_iff in M. destruct M as (Lt & Cs). split.
  - apply Z.ltb_lt. exact Lt.
  - apply orb_true_iff in Cs. destruct Cs as [Cs|Cs].
    + left. apply TrumpSuit_eqb_eq. exact Cs.
    + right. apply negb_true_iff in Cs. apply pos_eqb_neq. exact Cs.
Qed.

(** C7, counterexample.  North has declared hearts with one two of
    hearts; West, who holds the other two of hearts, declares hearts at
    the same level.  The bidder differs and the suit is the running
    suit, so the declaration supersedes North's by the re-affirmation
    rule; the call raises. *)
Lemma reaffirmation_rejected :
  reachable Reference.rules any_action Scenario.hearts_game Scenario.hearts_declared
  /\ stage Scenario.hearts_declared = declare_stage
  /\ last_opt (declarations Scenario.hearts_declared) = Some Scenario.hearts_north
  /\ supersedes_spec Scenario.hearts_north Scenario.hearts_west
  /\ get_count (hands Scenario.hearts_declared WEST) TrumpSuit.HEART
               (dominant_rank Scenario.hearts_declared)
     = Some 1
  /\ outcome_of (run_action Reference.rules NORTH Scenario.hearts_declared
                   (DeclareAction Scenario.hearts_west) WEST)
     = None.
Proof.
  split.
  { unfold Scenario.hearts_declared.
    repeat (apply after_reachable; [intros; exact I|]).
    apply started_reachable. }
  split; [vm_compute; reflexivity|].
  split; [vm_compute; reflexivity|].
  split.
  { right. split; [reflexivity|]. split; [discriminate|reflexivity]. }
  split; vm_compute; reflexivity.
Qed.

(** C7, amended.  Against a standing declaration a declare action is
    accepted exactly when its level is strictly higher, provided the
    bidder holds a card that qualifies the declaration and a card can be
    drawn while fewer than 100 are out.  A declaration of the same or a
    lower level raises and leaves the game as it was, whoever bids and
    in whatever suit: there is no re-affirmation at equal level.  The
    declare actions that an observation offers in the DECLARE stage have
    a strictly higher level and, in addition, the running suit or a
    bidder other than the standing one. *)
Theorem declare_requires_higher_level :
  forall rules rnd g d p standing,
    last_opt (declarations g) = Some standing ->
    ((level d <= level standing)%Z ->
     run_action rules rnd g (DeclareAction d) p = Raised g)
    /\ (forall g' r,
           run_action rules rnd g (DeclareAction d) p = Returned g' r ->
           (level standing < level d)%Z
           /\ declarations g' = declarations g ++ [d])
    /\ ((level standing < level d)%Z ->
        forall held,
          get_count (hands g p) (suit d) (dominant_rank g) = Some held ->
          1 <= held ->
          (hands_total g < 100 -> deck g <> []) ->
          exists g' r, run_action rules rnd g (DeclareAction d) p = Returned g' r)
    /\ (forall actions d',
           stage g = declare_stage ->
           compute_actions rules g p = Some actions ->
           In (DeclareAction d') actions ->
           (level standing < level d')%Z
           /\ (suit standing = suit d' \/ absolute_position standing <> p)).
Proof.
  intros rules rnd g d p standing L. cbn [run_action].
  split; [|split; [|split]].
  - intros Le. exact (run_DeclareAction_low g d p standing L Le).
  - intros g' r H. apply run_DeclareAction_effect in H.
    destruct H as (_ & D & _ & Li). split; [|exact D].
    exact (proj1 (level_increases_iff g d) Li standing L).
  - intros Lt held C N D.
    apply (run_DeclareAction_returns g d p held); try assumption.
    apply level_increases_iff. intros s E. rewrite L in E.
    inversion E; subst s. exact Lt.
  - intros actions d' S C I.
    exact (offered_declaration rules g p actions d' standing S C I L).
Qed.

(** C7 as amended, on two games.  Against North's hearts at level 0
    West's hearts at level 0 raises and changes nothing.  Against
    North's single diamond, North's pair of diamonds, at level 1, is
    accepted. *)
Lemma declare_requires_higher_level_witness :
  run_action Reference.rules NORTH Scenario.hearts_declared
             (DeclareAction Scenario.hearts_west) WEST
  = Raised Scenario.hearts_declared
  /\ exists g' r,
       run_action Reference.rules NORTH
         (Scenario.after (state_of (start_game NORTH Scenario.pairs_game))
            ((DeclareAction Scenario.first_diamond, NORTH) :: Scenario.passes 1 3))
         (DeclareAction Scenario.diamonds_pair) NORTH
       = Returned g' r.
Proof.
  split.
  - assert (L : last_opt (declarations Scenario.hearts_declared)
                = Some Scenario.hearts_north) by (vm_compute; reflexivity).
    apply (proj1 (declare_requires_higher_level Reference.rules NORTH
                    Scenario.hearts_declared Scenario.hearts_west WEST
                    Scenario.hearts_north L)).
    apply Z.le_refl.
  - assert (L : last_opt
                  (declarations
                     (Scenario.after (state_of (start_game NORTH Scenario.pairs_game))
                        ((DeclareAction Scenario.first_diamond, NORTH)
                         :: Scenario.passes 1 3)))
                = Some Scenario.first_diamond) by (vm_compute; reflexivity).
    apply (proj1 (proj2 (proj2
             (declare_requires_higher_level Reference.rules NORTH _
                Scenario.diamonds_pair NORTH Scenario.first_diamond L)))
             ltac:(reflexivity) 2).
    + vm_compute. reflexivity.
    + lia.
    + intros _. vm_compute. discriminate.
Defined.

(** ** What an observation shows of the other hands *)

Lemma compute_actions_own_hand : forall rules g position h,
  h position = hands g position ->
  compute_actions rules (set_hands h g) position
  = compute_actions rules g position.
Proof.
  intros rules g position h E.
  unfold compute_actions, dominant_suit, may_declare. fields.
  rewrite E. reflexivity.
Qed.

Lemma swapped_keeps_north_south : forall g,
  Scenario.swapped g NORTH = hands g NORTH
  /\ Scenario.swapped g SOUTH = hands g SOUTH.
Proof. intros g. split; reflexivity. Qed.

(** C9, counterexample.  After the kitty is set on the standard deck,
    exchanging the hands of West and East changes nothing else in the
    game, and North's own hand is the same; North's observation is not:
    its [actual_right] field holds one big joker before the exchange
    and none after. *)
Lemma observation_shows_other_hands :
  hands (set_hands (Scenario.swapped (Scenario.kitty_set false))
                   (Scenario.kitty_set false)) NORTH
  = hands (Scenario.kitty_set false) NORTH
  /\ hands (set_hands (Scenario.swapped (Scenario.kitty_set false))
                      (Scenario.kitty_set false)) SOUTH
     = hands (Scenario.kitty_set false) SOUTH
  /\ option_map (fun o => Observation.actual_right o card_DJ)
       (get_observation Reference.rules (Scenario.kitty_set false) NORTH)
     = Some 1
  /\ option_map (fun o => Observation.actual_right o card_DJ)
       (get_observation Reference.rules
          (set_hands (Scenario.swapped (Scenario.kitty_set false))
                     (Scenario.kitty_set false)) NORTH)
     = Some 0
  /\ get_observation Reference.rules
       (set_hands (Scenario.swapped (Scenario.kitty_set false))
                  (Scenario.kitty_set false)) NORTH
     <> get_observation Reference.rules (Scenario.kitty_set false) NORTH.
Proof.
  assert (A : option_map (fun o => Observation.actual_right o card_DJ)
                (get_observation Reference.rules (Scenario.kitty_set false) NORTH)
              = Some 1) by (vm_compute; reflexivity).
  assert (B : option_map (fun o => Observation.actual_right o card_DJ)
                (get_observation Reference.rules
                   (set_hands (Scenario.swapped (Scenario.kitty_set false))
                              (Scenario.kitty_set false)) NORTH)
              = Some 0) by (vm_compute; reflexivity).
  split; [exact (proj1 (swapped_keeps_north_south (Scenario.kitty_set false)))|].
  split; [exact (proj2 (swapped_keeps_north_south (Scenario.kitty_set false)))|].
  split; [exact A|]. split; [exact B|].
  intros E.
  pose proof (f_equal (option_map (fun o => Observation.actual_right o card_DJ)) E)
    as F.
  pose proof (eq_trans (eq_sym B) (eq_trans F A)) as X. discriminate X.
Qed.

(** C9, amended.  Two game states that differ only in the hands of the
    other seats yield, for a seat, observations that agree in every
    field except [actual_left], [actual_right] and [actual_opposite]:
    these three are copies of the other seats' hands, and the three
    [perceived_*] fields are copies of their public cards. *)
Theorem observation_hides_all_but_actual :
  forall rules g position h,
    h position = hands g position ->
    option_map without_actual_hands (get_observation rules (set_hands h g) position)
    = option_map without_actual_hands (get_observation rules g position)
    /\ forall o,
         get_observation rules g position = Some o ->
         Observation.actual_left o = hands g (last_position position)
         /\ Observation.actual_right o = hands g (next_position position)
         /\ Observation.actual_opposite o
            = hands g (next_position (next_position position))
         /\ Observation.perceived_left o = public_cards g (last_position position)
         /\ Observation.perceived_right o = public_cards g (next_position position)
         /\ Observation.perceived_opposite o
            = public_cards g (next_position (next_position position)).
Proof.
  intros rules g position h E. split.
  - unfold get_observation.
    rewrite (compute_actions_own_hand rules g position h E).
    destruct (compute_actions rules g position) as [actions|]; [|reflexivity].
    cbn [option_map]. unfold without_actual_hands. cbn. fields.
    rewrite E. reflexivity.
  - intros o H. unfold get_observation in H.
    destruct (compute_actions rules g position); [|discriminate].
    inversion H; subst; clear H. repeat split.
Qed.

(** With the hands of West and East exchanged after the kitty is set,
    North's observation is the same outside the three [actual_*]
    fields. *)
Lemma observation_hides_all_but_actual_witness :
  option_map without_actual_hands
    (get_observation Reference.rules
       (set_hands (Scenario.swapped (Scenario.kitty_set false))
                  (Scenario.kitty_set false)) NORTH)
  = option_map without_actual_hands
      (get_observation Reference.rules (Scenario.kitty_set false) NORTH).
Proof.
  apply (proj1 (observation_hides_all_but_actual Reference.rules
                  (Scenario.kitty_set false) NORTH
                  (Scenario.swapped (Scenario.kitty_set false))
                  (proj1 (swapped_keeps_north_south (Scenario.kitty_set false))))).
Defined.
